(** * WatchCow icon core: format sniffing, ICO container, BMP bit planes,
      and [file://] reference resolution.

    A shallow embedding of package [fpkgen]'s icon code: [detectFormat],
    [decodeICO], [decodeICOImage], [decodeICOBMP] and the five per-depth row
    decoders, followed by the properties the specification states about
    them.  Beside these: [saveICO] of the test-data generator, which writes
    the files [decodeICO] reads; the string helpers [filterEnvironment],
    [sanitizeAppName], [indexOf], [replaceAll] and [escapeForTemplate];
    [NewTemplateData]; and the generator's registry of installed
    applications, with further properties of the code itself.

    Conventions of the embedding.
    - A Go [[]byte] is a [list byte]; [len] is its length as an integer.
    - Go's [int] is the 64-bit integer of the linux/amd64 target.  Every
      [int] computed here comes from a [uint8], [uint16], [uint32] or
      [int32] field or from a buffer length, and the row decoders run only
      on dimensions whose image could be allocated; such values stay below
      [2^63], so [int] arithmetic is written on [Z] directly.  Fixed-width arithmetic
      that can wrap (the [uint32] sum of an entry's offset and size, the
      [int32] conversion of the header's width and height) wraps
      explicitly.
    - Go's [/] and [%] on [int] truncate toward zero: [Z.quot], [Z.rem].
    - A function that returns [(T, error)] returns an [outcome T]; a run-time
      panic (slice bounds, index out of range, allocation) is a third
      alternative, so that the absence of panics is a statement about the
      model and not an assumption of it. *)

From Stdlib Require Import ZArith List Lia Bool.
From Stdlib Require Import Strings.String Strings.Ascii Strings.Byte.
From stdpp Require Import gmap.

Local Open Scope Z_scope.

(** ** Bytes and buffers *)

Definition u8 (b : byte) : Z := Z.of_N (Byte.to_N b).

Definition len {A : Type} (l : list A) : Z := Z.of_nat (length l).

(** ** Outcomes: value, returned error, or panic *)

(** The errors the decoders construct with [fmt.Errorf], one constructor per
    message, carrying the formatted operand where there is one. *)
Inductive error : Type :=
  | ErrICOTooShortForHeader      (* "invalid ICO file: too short for header" *)
  | ErrICOReserved (got : Z)     (* "invalid ICO file: reserved field must be 0, got %d" *)
  | ErrICOType (got : Z)         (* "invalid ICO file: type must be 1 for ICO, got %d" *)
  | ErrICONoImages               (* "invalid ICO file: no images in file" *)
  | ErrICOTooShortForDirectory   (* "invalid ICO file: too short for directory entries" *)
  | ErrICONoValidEntries         (* "invalid ICO file: no valid image entries found" *)
  | ErrImageTooShort             (* "invalid ICO image data: too short" *)
  | ErrPNGInICO                  (* "failed to decode PNG in ICO: %w" *)
  | ErrBMPTooShortForHeader      (* "invalid ICO BMP data: too short for header" *)
  | ErrBMPHeaderSize (got : Z)   (* "invalid ICO BMP: unsupported header size %d" *)
  | ErrBMPCompressed (got : Z)   (* "invalid ICO BMP: compressed BMP not supported (compression=%d)" *)
  | ErrBMPTooShortForPalette     (* "invalid ICO BMP: too short for palette" *)
  | ErrBMPBitDepth (got : Z).    (* "invalid ICO BMP: unsupported bit depth %d" *)

Inductive panic : Type :=
  | SliceBoundsOutOfRange (lo hi cap : Z)
  | IndexOutOfRange (i n : Z)
  | AllocationTooLarge (nbytes : Z).

Inductive outcome (A : Type) : Type :=
  | Ok (a : A)
  | Err (e : error)
  | Panic (p : panic).

Arguments Ok {A} a.
Arguments Err {A} e.
Arguments Panic {A} p.

#[global] Instance outcome_ret : MRet outcome := fun A a => Ok a.

#[global] Instance outcome_bind : MBind outcome := fun A B f m =>
  match m with
  | Ok a => f a
  | Err e => Err e
  | Panic p => Panic p
  end.

#[global] Instance outcome_fmap : FMap outcome := fun A B f m =>
  match m with
  | Ok a => Ok (f a)
  | Err e => Err e
  | Panic p => Panic p
  end.

(** The specification's error taxonomy (its section 7), as a classification
    of the messages above.  The taxonomy names no kind for a non-PNG entry of
    four to thirty-nine bytes ("too short for header"). *)
Inductive ErrorKind : Type :=
  | MalformedHeader
  | TruncatedDirectory
  | NoValidEntries
  | TruncatedEntry
  | UnsupportedDibHeader
  | UnsupportedBitDepth
  | UnsupportedCompression
  | TruncatedPalette
  | EmbeddedDecodeFailed.

Definition errorKind (e : error) : option ErrorKind :=
  match e with
  | ErrICOTooShortForHeader => Some MalformedHeader
  | ErrICOReserved _ => Some MalformedHeader
  | ErrICOType _ => Some MalformedHeader
  | ErrICONoImages => Some MalformedHeader
  | ErrICOTooShortForDirectory => Some TruncatedDirectory
  | ErrICONoValidEntries => Some NoValidEntries
  | ErrImageTooShort => Some TruncatedEntry
  | ErrPNGInICO => Some EmbeddedDecodeFailed
  | ErrBMPTooShortForHeader => None
  | ErrBMPHeaderSize _ => Some UnsupportedDibHeader
  | ErrBMPCompressed _ => Some UnsupportedCompression
  | ErrBMPTooShortForPalette => Some TruncatedPalette
  | ErrBMPBitDepth _ => Some UnsupportedBitDepth
  end.

(** [failsWith o k]: the call returned an error of kind [k]. *)
Definition failsWith {A : Type} (o : outcome A) (k : ErrorKind) : Prop :=
  exists e, o = Err e /\ errorKind e = Some k.

(** ** Go slice and index expressions *)

(** [data[lo:hi]].  Go checks [0 <= lo <= hi <= cap(data)]; every slice
    expression of the decoders either has [hi = len(data)] or is reached
    with [hi <= len(data)], so the capacity is taken to be the length. *)
Definition slice (data : list byte) (lo hi : Z) : outcome (list byte) :=
  if (0 <=? lo) && (lo <=? hi) && (hi <=? len data)
  then Ok (take (Z.to_nat (hi - lo)) (drop (Z.to_nat lo) data))
  else Panic (SliceBoundsOutOfRange lo hi (len data)).

(** [data[lo:]] *)
Definition sliceFrom (data : list byte) (lo : Z) : outcome (list byte) :=
  slice data lo (len data).

(** [data[i]] *)
Definition index (data : list byte) (i : Z) : outcome byte :=
  if 0 <=? i then
    match data !! Z.to_nat i with
    | Some b => Ok b
    | None => Panic (IndexOutOfRange i (len data))
    end
  else Panic (IndexOutOfRange i (len data)).

(** ** encoding/binary.LittleEndian *)

Definition Uint16 (b : list byte) : outcome Z :=
  b1 ← index b 1;
  b0 ← index b 0;
  Ok (Z.lor (u8 b0) (Z.shiftl (u8 b1) 8)).

Definition Uint32 (b : list byte) : outcome Z :=
  b3 ← index b 3;
  b0 ← index b 0;
  b1 ← index b 1;
  b2 ← index b 2;
  Ok (Z.lor (Z.lor (Z.lor (u8 b0) (Z.shiftl (u8 b1) 8))
                   (Z.shiftl (u8 b2) 16))
            (Z.shiftl (u8 b3) 24)).

(** Fixed-width conversions. *)
Definition uint32 (z : Z) : Z := z mod 2 ^ 32.

Definition int32 (z : Z) : Z := (z + 2 ^ 31) mod 2 ^ 32 - 2 ^ 31.

(** ** Format detection *)

Inductive ImageFormat : Type :=
  | FormatUnknown
  | FormatPNG
  | FormatJPEG
  | FormatWebP
  | FormatBMP
  | FormatICO.

Definition magicPNG : list byte := [x89; x50; x4e; x47; x0d; x0a; x1a; x0a].
Definition magicJPEG : list byte := [xff; xd8; xff].
Definition magicBMP : list byte := [x42; x4d].
Definition magicICO : list byte := [x00; x00; x01; x00].
Definition magicRIFF : list byte := [x52; x49; x46; x46].
Definition magicWEBP : list byte := [x57; x45; x42; x50].

(** [bytes.HasPrefix(s, prefix)] *)
Fixpoint HasPrefix (s prefix : list byte) {struct prefix} : bool :=
  match prefix, s with
  | [], _ => true
  | _ :: _, [] => false
  | p :: prefix', b :: s' => Byte.eqb b p && HasPrefix s' prefix'
  end.

(** [bytes.Equal(a, b)] *)
Fixpoint Equal (a b : list byte) : bool :=
  match a, b with
  | [], [] => true
  | x :: a', y :: b' => Byte.eqb x y && Equal a' b'
  | _, _ => false
  end.

(** [detectFormat].  The slice [data[8:12]] stands behind the length test
    of the same conjunction, which [&&] evaluates first. *)
Definition detectFormat (data : list byte) : ImageFormat :=
  if len data <? 2 then FormatUnknown
  else if (8 <=? len data) && HasPrefix data magicPNG then FormatPNG
  else if (3 <=? len data) && HasPrefix data magicJPEG then FormatJPEG
  else if (12 <=? len data) && HasPrefix data magicRIFF
          && Equal (take 4 (drop 8 data)) magicWEBP then FormatWebP
  else if (4 <=? len data) && HasPrefix data magicICO then FormatICO
  else if HasPrefix data magicBMP then FormatBMP
  else FormatUnknown.

(** ** Loops *)

(** One iteration of a Go [for] body either leaves the loop ([break]) or
    hands the next state to the following iteration (falling off the end of
    the body, or [continue]). *)
Inductive step (S : Type) : Type :=
  | Break
  | Next (s : S).

Arguments Break {S}.
Arguments Next {S} s.

(** [for i := i0; i < i0 + n; i++ { body }], [n] iterations at most. *)
Fixpoint forLoop {S : Type} (n : nat) (i : Z)
    (body : Z -> S -> outcome (step S)) (s : S) : outcome S :=
  match n with
  | O => Ok s
  | Datatypes.S n' =>
      r ← body i s;
      match r with
      | Break => Ok s
      | Next s' => forLoop n' (i + 1) body s'
      end
  end.

(** [for i := 0; i < bound; i++ { body }] *)
Definition forRange {S : Type} (bound : Z)
    (body : Z -> S -> outcome (step S)) (s : S) : outcome S :=
  forLoop (Z.to_nat bound) 0 body s.

(** ** Packages image/color and image, as far as the decoders use them *)

Module color.

Record RGBA : Type := mkRGBA { R : byte; G : byte; B : byte; A : byte }.

(** The zero value: transparent black. *)
Definition zero : RGBA := mkRGBA x00 x00 x00 x00.

End color.

Module image.

Record Point : Type := Pt { X : Z; Y : Z }.

Record Rectangle : Type := mkRectangle { Min : Point; Max : Point }.

(** [image.Rect]: the corners are swapped where needed, so that the
    rectangle is well formed. *)
Definition Rect (x0 y0 x1 y1 : Z) : Rectangle :=
  let '(x0, x1) := if x1 <? x0 then (x1, x0) else (x0, x1) in
  let '(y0, y1) := if y1 <? y0 then (y1, y0) else (y0, y1) in
  mkRectangle (Pt x0 y0) (Pt x1 y1).

Definition Dx (r : Rectangle) : Z := X (Max r) - X (Min r).
Definition Dy (r : Rectangle) : Z := Y (Max r) - Y (Min r).

(** [Point.In] *)
Definition In (x y : Z) (r : Rectangle) : bool :=
  (X (Min r) <=? x) && (x <? X (Max r)) && (Y (Min r) <=? y) && (y <? Y (Max r)).

(** [image.RGBA].  The pixel buffer [Pix] is kept as a finite map from
    coordinates to the colour stored there; a coordinate without an entry
    holds the zero bytes the freshly made buffer is filled with. *)
Record RGBA : Type := mkImage { Pix : gmap (Z * Z) color.RGBA; Bounds : Rectangle }.

(** The largest buffer the runtime's [make] hands out on linux/amd64
    (48 address bits); beyond it [make] panics, and so does [NewRGBA]'s
    own overflow test, which only fires above [2^63].  Running out of
    memory below this bound is outside the model. *)
Definition maxAlloc : Z := 2 ^ 48.

(** [image.NewRGBA]: four bytes per pixel. *)
Definition NewRGBA (r : Rectangle) : outcome RGBA :=
  let n := 4 * Dx r * Dy r in
  if maxAlloc <? n then Panic (AllocationTooLarge n)
  else Ok (mkImage ∅ r).

(** Method [SetRGBA] of [RGBA]: a point outside the bounds is ignored. *)
Definition SetRGBA (p : RGBA) (x y : Z) (c : color.RGBA) : RGBA :=
  if In x y (Bounds p) then mkImage (<[(x, y) := c]> (Pix p)) (Bounds p)
  else p.

(** Method [RGBAAt] of [RGBA] *)
Definition RGBAAt (p : RGBA) (x y : Z) : color.RGBA :=
  if In x y (Bounds p) then default color.zero (Pix p !! (x, y))
  else color.zero.

End image.

(** ** ICO container structures *)

(** [icoHeader], 6 bytes *)
Record icoHeader : Type := mkHeader {
  Reserved : Z;   (* uint16, must be 0 *)
  Type_ : Z;      (* uint16, 1 = ICO, 2 = CUR *)
  Count : Z       (* uint16 *)
}.

(** [icoEntry], 16 bytes *)
Record icoEntry : Type := mkEntry {
  Width : Z;         (* uint8, 0 means 256 *)
  Height : Z;        (* uint8, 0 means 256 *)
  ColorCount : Z;    (* uint8 *)
  EntryReserved : Z; (* uint8, field Reserved of icoEntry *)
  Planes : Z;        (* uint16 *)
  BitCount : Z;      (* uint16 *)
  Size : Z;          (* uint32 *)
  Offset : Z         (* uint32 *)
}.

Definition getActualWidth (e : icoEntry) : Z :=
  if Width e =? 0 then 256 else Width e.

Definition getActualHeight (e : icoEntry) : Z :=
  if Height e =? 0 then 256 else Height e.

Definition resolution (e : icoEntry) : Z :=
  getActualWidth e * getActualHeight e.

(** [parseICOEntry], on a 16-byte slice *)
Definition parseICOEntry (data : list byte) : outcome icoEntry :=
  w ← index data 0;
  h ← index data 1;
  cc ← index data 2;
  rs ← index data 3;
  planes ← slice data 4 6 ≫= Uint16;
  bitCount ← slice data 6 8 ≫= Uint16;
  size ← slice data 8 12 ≫= Uint32;
  offset ← slice data 12 16 ≫= Uint32;
  Ok (mkEntry (u8 w) (u8 h) (u8 cc) (u8 rs) planes bitCount size offset).

(** ** BMP bit planes *)

(** The block the three palette-indexed decoders share: look the pixel value
    up in the BGRA palette and store it opaque, or leave the pixel alone when
    the palette has no such entry. *)
Definition setIndexed (img : image.RGBA) (x y : Z) (palette : list byte)
    (pixelValue : Z) : outcome image.RGBA :=
  let paletteIdx := pixelValue * 4 in
  if paletteIdx + 3 <? len palette then
    r ← index palette (paletteIdx + 2);
    g ← index palette (paletteIdx + 1);
    b ← index palette paletteIdx;
    Ok (image.SetRGBA img x y (color.mkRGBA r g b xff))
  else Ok img.

(** [decodeICOBMP1]: 1 bit per pixel, most significant bit first *)
Definition decodeICOBMP1 (img : image.RGBA) (data : list byte)
    (width height : Z) (palette : list byte) : outcome image.RGBA :=
  let rowSize := Z.quot (width + 31) 32 * 4 in
  forRange height (fun y img =>
    let srcY := height - 1 - y in
    let rowOffset := srcY * rowSize in
    if len data <? rowOffset + rowSize then Ok Break
    else Next <$> forRange width (fun x img =>
      let byteIdx := Z.quot x 8 in
      let bitIdx := 7 - Z.rem x 8 in
      b ← index data (rowOffset + byteIdx);
      let pixelValue := Z.land (Z.shiftr (u8 b) bitIdx) 1 in
      Next <$> setIndexed img x y palette pixelValue) img) img.

(** [decodeICOBMP4]: two pixels per byte, high nibble first *)
Definition decodeICOBMP4 (img : image.RGBA) (data : list byte)
    (width height : Z) (palette : list byte) : outcome image.RGBA :=
  let rowSize := Z.quot (width * 4 + 31) 32 * 4 in
  forRange height (fun y img =>
    let srcY := height - 1 - y in
    let rowOffset := srcY * rowSize in
    if len data <? rowOffset + rowSize then Ok Break
    else Next <$> forRange width (fun x img =>
      let byteIdx := Z.quot x 2 in
      pixelValue ←
        (if Z.rem x 2 =? 0
         then b ← index data (rowOffset + byteIdx);
              Ok (Z.land (Z.shiftr (u8 b) 4) 15)
         else b ← index data (rowOffset + byteIdx);
              Ok (Z.land (u8 b) 15));
      Next <$> setIndexed img x y palette pixelValue) img) img.

(** [decodeICOBMP8]: one byte per pixel *)
Definition decodeICOBMP8 (img : image.RGBA) (data : list byte)
    (width height : Z) (palette : list byte) : outcome image.RGBA :=
  let rowSize := Z.quot (width + 3) 4 * 4 in
  forRange height (fun y img =>
    let srcY := height - 1 - y in
    let rowOffset := srcY * rowSize in
    if len data <? rowOffset + width then Ok Break
    else Next <$> forRange width (fun x img =>
      b ← index data (rowOffset + x);
      let pixelValue := u8 b in
      Next <$> setIndexed img x y palette pixelValue) img) img.

(** [decodeICOBMP24]: B, G, R per pixel, alpha forced to 255 *)
Definition decodeICOBMP24 (img : image.RGBA) (data : list byte)
    (width height : Z) : outcome image.RGBA :=
  let rowSize := Z.quot (width * 3 + 3) 4 * 4 in
  forRange height (fun y img =>
    let srcY := height - 1 - y in
    let rowOffset := srcY * rowSize in
    if len data <? rowOffset + width * 3 then Ok Break
    else Next <$> forRange width (fun x img =>
      let pixelOffset := rowOffset + x * 3 in
      b ← index data pixelOffset;
      g ← index data (pixelOffset + 1);
      r ← index data (pixelOffset + 2);
      Ok (Next (image.SetRGBA img x y (color.mkRGBA r g b xff)))) img) img.

(** [decodeICOBMP32]: B, G, R, A per pixel *)
Definition decodeICOBMP32 (img : image.RGBA) (data : list byte)
    (width height : Z) : outcome image.RGBA :=
  let rowSize := width * 4 in
  forRange height (fun y img =>
    let srcY := height - 1 - y in
    let rowOffset := srcY * rowSize in
    if len data <? rowOffset + width * 4 then Ok Break
    else Next <$> forRange width (fun x img =>
      let pixelOffset := rowOffset + x * 4 in
      b ← index data pixelOffset;
      g ← index data (pixelOffset + 1);
      r ← index data (pixelOffset + 2);
      a ← index data (pixelOffset + 3);
      Ok (Next (image.SetRGBA img x y (color.mkRGBA r g b a)))) img) img.

(** ** The ICO decoder *)

Section Decoder.

(** The standard library's image decoder ([image.Decode] over the
    registered formats) is an external collaborator: [ExtImage] is what it
    yields, [None] stands for its error. *)
Context {ExtImage : Type}.
Variable image_Decode : list byte -> option ExtImage.

(** [image.Image] as returned by the decoder: what [image.Decode] made of
    a PNG stream, or the [*image.RGBA] built from a bitmap. *)
Inductive Image : Type :=
  | Decoded (i : ExtImage)
  | Bitmap (r : image.RGBA).

(** The palette block of [decodeICOBMP] ([bitCount <= 8]): the palette
    slice and the pixel offset behind it. *)
Definition readPalette (data : list byte) (entry : icoEntry)
    (bitCount pixelOffset : Z) : outcome (list byte * Z) :=
  if bitCount <=? 8 then
    let paletteSize := Z.shiftl 1 bitCount in
    let paletteSize :=
      if (0 <? ColorCount entry) && (ColorCount entry <? paletteSize)
      then ColorCount entry else paletteSize in
    let paletteBytes := paletteSize * 4 in
    if len data <? pixelOffset + paletteBytes then Err ErrBMPTooShortForPalette
    else
      palette ← slice data pixelOffset (pixelOffset + paletteBytes);
      Ok (palette, pixelOffset + paletteBytes)
  else Ok ([], pixelOffset).

(** The [switch bitCount] of [decodeICOBMP]. *)
Definition decodePlane (img : image.RGBA) (data : list byte)
    (bitCount pixelOffset width height : Z) (palette : list byte)
    : outcome image.RGBA :=
  if bitCount =? 1 then
    d ← sliceFrom data pixelOffset; decodeICOBMP1 img d width height palette
  else if bitCount =? 4 then
    d ← sliceFrom data pixelOffset; decodeICOBMP4 img d width height palette
  else if bitCount =? 8 then
    d ← sliceFrom data pixelOffset; decodeICOBMP8 img d width height palette
  else if bitCount =? 24 then
    d ← sliceFrom data pixelOffset; decodeICOBMP24 img d width height
  else if bitCount =? 32 then
    d ← sliceFrom data pixelOffset; decodeICOBMP32 img d width height
  else Err (ErrBMPBitDepth bitCount).

(** [decodeICOBMP]: a BITMAPINFOHEADER and what follows it *)
Definition decodeICOBMP (data : list byte) (entry : icoEntry) : outcome Image :=
  if len data <? 40 then Err ErrBMPTooShortForHeader
  else
    headerSize ← slice data 0 4 ≫= Uint32;
    if headerSize <? 40 then Err (ErrBMPHeaderSize headerSize)
    else
      width ← int32 <$> (slice data 4 8 ≫= Uint32);
      height ← int32 <$> (slice data 8 12 ≫= Uint32);
      bitCount ← slice data 14 16 ≫= Uint16;
      compression ← slice data 16 20 ≫= Uint32;
      let height := Z.quot height 2 in
      let width := if width =? 0 then getActualWidth entry else width in
      let height := if height =? 0 then getActualHeight entry else height in
      if negb (compression =? 0) then Err (ErrBMPCompressed compression)
      else
        let pixelOffset := headerSize in
        '(palette, pixelOffset) ← readPalette data entry bitCount pixelOffset;
        img ← image.NewRGBA (image.Rect 0 0 width height);
        img ← decodePlane img data bitCount pixelOffset width height palette;
        Ok (Bitmap img).

(** [decodeICOImage]: PNG stream or headerless bitmap *)
Definition decodeICOImage (data : list byte) (entry : icoEntry) : outcome Image :=
  if len data <? 4 then Err ErrImageTooShort
  else if HasPrefix data magicPNG then
    match image_Decode data with
    | Some img => Ok (Decoded img)
    | None => Err ErrPNGInICO
    end
  else decodeICOBMP data entry.

(** The loop state of [decodeICO]: [bestEntry] ([nil] at first) and
    [bestResolution]. *)
Record best : Type := mkBest { bestEntry : option icoEntry; bestResolution : Z }.

(** The body of the directory loop of [decodeICO]. *)
Definition scanEntry (data : list byte) (i : Z) (b : best) : outcome (step best) :=
  let offset := 6 + i * 16 in
  entry ← slice data offset (offset + 16) ≫= parseICOEntry;
  if (Offset entry =? 0) || (Size entry =? 0) then Ok (Next b)
  else if len data <? Offset entry + Size entry then Ok (Next b)
  else
    let resolution := resolution entry in
    if (if bestEntry b is None then true else false) || (bestResolution b <? resolution)
    then Ok (Next (mkBest (Some entry) resolution))
    else Ok (Next b).

(** The last two statements of [decodeICO]: cut the entry's bytes out of
    the file and decode them.  The upper bound is a [uint32] sum. *)
Definition extractAndDecode (data : list byte) (entry : icoEntry) : outcome Image :=
  imageData ← slice data (Offset entry) (uint32 (Offset entry + Size entry));
  decodeICOImage imageData entry.

(** [decodeICO] *)
Definition decodeICO (data : list byte) : outcome Image :=
  if len data <? 6 then Err ErrICOTooShortForHeader
  else
    reserved ← slice data 0 2 ≫= Uint16;
    type ← slice data 2 4 ≫= Uint16;
    count ← slice data 4 6 ≫= Uint16;
    let header := mkHeader reserved type count in
    if negb (Reserved header =? 0) then Err (ErrICOReserved (Reserved header))
    else if negb (Type_ header =? 1) then Err (ErrICOType (Type_ header))
    else if Count header =? 0 then Err ErrICONoImages
    else
      let directorySize := 6 + Count header * 16 in
      if len data <? directorySize then Err ErrICOTooShortForDirectory
      else
        b ← forRange (Count header) (scanEntry data) (mkBest None 0);
        match bestEntry b with
        | None => Err ErrICONoValidEntries
        | Some entry => extractAndDecode data entry
        end.

End Decoder.

Arguments Image : clear implicits.

(** ** Asset path resolution *)

(** The resolver's only error. *)
Inductive resolveError : Type :=
  | BasePathRequired.

(** Modelled from the spec: the text of the [BasePathRequired] error.  The
    resolver's source file is not among the sources; its test requires the
    message to contain this phrase. *)
Definition resolveErrorMessage (e : resolveError) : string :=
  match e with
  | BasePathRequired => "relative path requires base path"
  end.

(** [strings.Contains] *)
Fixpoint Contains (s substr : string) : bool :=
  String.prefix substr s ||
  match s with
  | EmptyString => false
  | String _ s' => Contains s' substr
  end.

(** [strings.TrimPrefix] *)
Definition TrimPrefix (s pre : string) : string :=
  if String.prefix pre s
  then String.substring (String.length pre) (String.length s - String.length pre) s
  else s.

Section Resolver.

(** The platform's path join ([filepath.Join]) is an external
    collaborator. *)
Variable Join : string -> string -> string.

(** Modelled from the spec: [resolveFilePath], whose source file is not
    among the sources (only its test is).  Section 4.5: strip the
    [file://] scheme; a path that begins with [/] is returned unchanged;
    a relative path needs a base path and is handed to the platform join
    as it stands. *)
Definition resolveFilePath (reference basePath : string) : string + resolveError :=
  let path := TrimPrefix reference "file://" in
  if String.prefix "/" path then inl path
  else if String.eqb basePath "" then inr BasePathRequired
  else inl (Join basePath path).

End Resolver.

(** ** Vocabulary of the statements *)

(** The fields of a buffer, read without effects: the byte at an offset
    ([x00] outside the buffer) and the little-endian integers built from
    it.  The lemmas [read16] and [read32] below tie them to what the
    decoders read through [slice], [Uint16] and [Uint32]. *)
Definition byteAt (data : list byte) (i : Z) : byte :=
  default x00 (data !! Z.to_nat i).

Definition le16 (data : list byte) (off : Z) : Z :=
  Z.lor (u8 (byteAt data off)) (Z.shiftl (u8 (byteAt data (off + 1))) 8).

Definition le32 (data : list byte) (off : Z) : Z :=
  Z.lor (Z.lor (Z.lor (u8 (byteAt data off))
                      (Z.shiftl (u8 (byteAt data (off + 1))) 8))
               (Z.shiftl (u8 (byteAt data (off + 2))) 16))
        (Z.shiftl (u8 (byteAt data (off + 3))) 24).

(** Directory slot [i] of an ICO buffer. *)
Definition entryAt (data : list byte) (i : Z) : icoEntry :=
  let off := 6 + i * 16 in
  mkEntry (u8 (byteAt data off)) (u8 (byteAt data (off + 1)))
          (u8 (byteAt data (off + 2))) (u8 (byteAt data (off + 3)))
          (le16 data (off + 4)) (le16 data (off + 6))
          (le32 data (off + 8)) (le32 data (off + 12)).

(** The skip checks of the directory loop: an entry survives when its offset
    and size are nonzero and [offset + size] lies within the buffer. *)
Definition survives (data : list byte) (e : icoEntry) : bool :=
  negb ((Offset e =? 0) || (Size e =? 0)) && (Offset e + Size e <=? len data).

(** A buffer passes the header checks of [decodeICO] up to and including the
    directory length test. *)
Definition validICOHeader (data : list byte) : Prop :=
  6 <= len data /\ le16 data 0 = 0 /\ le16 data 2 = 1 /\ le16 data 4 <> 0 /\
  6 + le16 data 4 * 16 <= len data.

(** Row geometry of the bit-plane decoders, per bit depth: the padded row
    size, and the byte span the decoder requires of a row before it reads
    it. *)
Definition rowSize (bitCount width : Z) : Z :=
  if bitCount =? 1 then Z.quot (width + 31) 32 * 4
  else if bitCount =? 4 then Z.quot (width * 4 + 31) 32 * 4
  else if bitCount =? 8 then Z.quot (width + 3) 4 * 4
  else if bitCount =? 24 then Z.quot (width * 3 + 3) 4 * 4
  else width * 4.

Definition rowSpan (bitCount width : Z) : Z :=
  if bitCount =? 1 then rowSize 1 width
  else if bitCount =? 4 then rowSize 4 width
  else if bitCount =? 8 then width
  else if bitCount =? 24 then width * 3
  else width * 4.

(** Output row [y] is stored bottom-up. *)
Definition rowOffset (bitCount width height y : Z) : Z :=
  (height - 1 - y) * rowSize bitCount width.

(** The row's span exceeds the buffer. *)
Definition rowTruncated (bitCount : Z) (data : list byte) (width height y : Z) : Prop :=
  len data < rowOffset bitCount width height y + rowSpan bitCount width.

(** The pixel value (palette index) of column [x], from the byte [b] that
    holds it. *)
Definition pixelValue (bitCount : Z) (b : byte) (x : Z) : Z :=
  if bitCount =? 1 then Z.land (Z.shiftr (u8 b) (7 - Z.rem x 8)) 1
  else if bitCount =? 4 then
    if Z.rem x 2 =? 0 then Z.land (Z.shiftr (u8 b) 4) 15 else Z.land (u8 b) 15
  else u8 b.

(** The offset of that byte within its row. *)
Definition pixelByte (bitCount x : Z) : Z :=
  if bitCount =? 1 then Z.quot x 8
  else if bitCount =? 4 then Z.quot x 2
  else x.

(** A freshly allocated image. *)
Definition blank (r : image.Rectangle) : image.RGBA := image.mkImage ∅ r.

(** [touchedOnly T a b]: image [b] has the bounds of [a] and differs from it
    at most at the points [T] holds of. *)
Definition touchedOnly (T : Z -> Z -> Prop) (a b : image.RGBA) : Prop :=
  image.Bounds b = image.Bounds a /\
  forall x y, image.RGBAAt b x y = image.RGBAAt a x y \/ T x y.

(** What each indexed decoder may touch: pixel [(x, y)] of a row that, like
    all rows before it, fits the buffer, when its palette index is within
    the palette. *)
Definition mapped (bitCount : Z) (data palette : list byte) (width height : Z)
    (x y : Z) : Prop :=
  0 <= y < height /\
  (forall j, 0 <= j <= y -> ~ rowTruncated bitCount data width height j) /\
  0 <= x < width /\
  exists b,
    data !! Z.to_nat (rowOffset bitCount width height y + pixelByte bitCount x)
      = Some b /\
    pixelValue bitCount b x * 4 + 3 < len palette.

(** The true-colour decoders may touch every pixel of a row that, like all
    rows before it, fits the buffer. *)
Definition covered (bitCount : Z) (data : list byte) (width height : Z)
    (x y : Z) : Prop :=
  0 <= y < height /\
  (forall j, 0 <= j <= y -> ~ rowTruncated bitCount data width height j) /\
  0 <= x < width.

(** What C4 says of one run [run] of a row decoder at depth [bitCount] on
    the image [img]: the run returns no error (and does not panic), and from
    the first output row whose span exceeds the buffer on, the rows are as
    they were, zero in a fresh image. *)
Definition truncatedRowsKept (bitCount : Z) (run : outcome image.RGBA)
    (img : image.RGBA) (data : list byte) (width height : Z) : Prop :=
  exists img', run = Ok img' /\
    forall y0, 0 <= y0 < height -> rowTruncated bitCount data width height y0 ->
    forall x y, y0 <= y ->
      image.RGBAAt img' x y = image.RGBAAt img x y /\
      (image.Pix img = ∅ -> image.RGBAAt img' x y = color.zero).

(** What C10 says of one run of a palette-indexed decoder: the run returns
    no error (and does not panic on a palette read), and a pixel whose
    palette index reaches the end of the palette is as it was, zero in a
    fresh image. *)
Definition unmappedPixelsKept (bitCount : Z) (run : outcome image.RGBA)
    (img : image.RGBA) (data : list byte) (width height : Z)
    (palette : list byte) : Prop :=
  exists img', run = Ok img' /\
    forall x y b, 0 <= x < width -> 0 <= y < height ->
      data !! Z.to_nat (rowOffset bitCount width height y + pixelByte bitCount x)
        = Some b ->
      len palette <= pixelValue bitCount b x * 4 + 3 ->
      image.RGBAAt img' x y = image.RGBAAt img x y /\
      (image.Pix img = ∅ -> image.RGBAAt img' x y = color.zero).

(** The dimensions [decodeICOBMP] settles on: the header's width and halved
    height, or the directory entry's where the header's is zero. *)
Definition bmpWidth (data : list byte) (entry : icoEntry) : Z :=
  if int32 (le32 data 4) =? 0 then getActualWidth entry else int32 (le32 data 4).

Definition bmpHeight (data : list byte) (entry : icoEntry) : Z :=
  if Z.quot (int32 (le32 data 8)) 2 =? 0 then getActualHeight entry
  else Z.quot (int32 (le32 data 8)) 2.

(** The number of palette entries [decodeICOBMP] expects. *)
Definition paletteEntries (bitCount colorCount : Z) : Z :=
  if (0 <? colorCount) && (colorCount <? Z.shiftl 1 bitCount)
  then colorCount else Z.shiftl 1 bitCount.

(** The bit depths the decoder has a plane decoder for. *)
Definition supportedDepth (bitCount : Z) : bool :=
  (bitCount =? 1) || (bitCount =? 4) || (bitCount =? 8) ||
  (bitCount =? 24) || (bitCount =? 32).

(** The bytes the image of an entry takes. *)
Definition allocation (data : list byte) (entry : icoEntry) : Z :=
  4 * image.Dx (image.Rect 0 0 (bmpWidth data entry) (bmpHeight data entry))
    * image.Dy (image.Rect 0 0 (bmpWidth data entry) (bmpHeight data entry)).

(** A decoder that accepts nothing, to run the ICO decoder on bitmap
    entries. *)
Definition rejectAll : list byte -> option unit := fun _ => None.

(** The directory loop's update of its state by one entry. *)
Definition pick (data : list byte) (e : icoEntry) (b : best) : best :=
  if survives data e then
    if (if bestEntry b is None then true else false) || (bestResolution b <? resolution e)
    then mkBest (Some e) (resolution e) else b
  else b.

(** Slot [m] holds the first entry of largest resolution among the surviving
    entries of slots [0 .. count - 1]. *)
Definition firstLargest (data : list byte) (count m : Z) : Prop :=
  0 <= m < count /\
  survives data (entryAt data m) = true /\
  (forall j, 0 <= j < count -> survives data (entryAt data j) = true ->
     resolution (entryAt data j) <= resolution (entryAt data m)) /\
  (forall j, 0 <= j < m -> survives data (entryAt data j) = true ->
     resolution (entryAt data j) < resolution (entryAt data m)).

(** The loop state after slots [0 .. k - 1]. *)
Definition scanned (data : list byte) (k : Z) (b : best) : Prop :=
  match bestEntry b with
  | None => forall j, 0 <= j < k -> survives data (entryAt data j) = false
  | Some e => exists m, e = entryAt data m /\ firstLargest data k m
  end.

(** Test vectors are written as integers. *)
Definition byteOf (z : Z) : byte := default x00 (Byte.of_N (Z.to_N z)).

Definition bytesOf (l : list Z) : list byte := map byteOf l.

(** A one-entry icon whose 32-bit bitmap declares a header of 41 bytes in an
    entry of 40: 6 header bytes, one 16-byte directory slot, 40 entry
    bytes. *)
Definition icoHeaderSizeBeyondEntry : list byte := bytesOf
  [0; 0; 1; 0; 1; 0;
   1; 1; 0; 0; 1; 0; 32; 0; 40; 0; 0; 0; 22; 0; 0; 0;
   41; 0; 0; 0; 1; 0; 0; 0; 2; 0; 0; 0; 1; 0; 32; 0; 0; 0; 0; 0;
   0; 0; 0; 0; 0; 0; 0; 0; 0; 0; 0; 0; 0; 0; 0; 0; 0; 0; 0; 0].

(** A 40-byte bitmap header of the given bit depth, 1 by 1 pixel (height
    field 2), uncompressed, followed by nothing. *)
Definition dibOfDepth (bitCount : Z) : list byte := bytesOf
  [40; 0; 0; 0; 1; 0; 0; 0; 2; 0; 0; 0; 1; 0; bitCount; 0; 0; 0; 0; 0;
   0; 0; 0; 0; 0; 0; 0; 0; 0; 0; 0; 0; 0; 0; 0; 0; 0; 0; 0; 0].

(** A directory entry of the given declared size over a 40-byte payload. *)
Definition entryOfSize (w h : Z) : icoEntry := mkEntry w h 0 0 1 32 40 22.

(** A three-entry icon: slots of 1 by 1, 2 by 1 and 1 by 2 pixels, all over
    one 40-byte 32-bit bitmap at offset 54 whose header leaves width and
    height 0 and which holds no pixel rows. *)
Definition icoThreeEntries : list byte := bytesOf
  [0; 0; 1; 0; 3; 0;
   1; 1; 0; 0; 1; 0; 32; 0; 40; 0; 0; 0; 54; 0; 0; 0;
   2; 1; 0; 0; 1; 0; 32; 0; 40; 0; 0; 0; 54; 0; 0; 0;
   1; 2; 0; 0; 1; 0; 32; 0; 40; 0; 0; 0; 54; 0; 0; 0;
   40; 0; 0; 0; 0; 0; 0; 0; 0; 0; 0; 0; 1; 0; 32; 0; 0; 0; 0; 0;
   0; 0; 0; 0; 0; 0; 0; 0; 0; 0; 0; 0; 0; 0; 0; 0; 0; 0; 0; 0].

(** A 40-byte 32-bit bitmap header that leaves width and height 0. *)
Definition dibZeroDims : list byte := bytesOf
  [40; 0; 0; 0; 0; 0; 0; 0; 0; 0; 0; 0; 1; 0; 32; 0; 0; 0; 0; 0;
   0; 0; 0; 0; 0; 0; 0; 0; 0; 0; 0; 0; 0; 0; 0; 0; 0; 0; 0; 0].

(** A 2 by 1 bitmap plane at 1 bit per pixel: pixel 0 has index 0, pixel 1
    has index 1; and a palette of one entry. *)
Definition planeTwoPixels : list byte := bytesOf [64; 0; 0; 0].

Definition paletteOneEntry : list byte := bytesOf [10; 20; 30; 0].

(** The separator join, which leaves its operands as they are: one
    instance of the platform join. *)
Definition sepJoin (b p : string) : string := (b ++ "/" ++ p)%string.

(** ** Vocabulary of the further properties *)

(** What a buffer of each format starts with. *)
Definition hasMagic (f : ImageFormat) (data : list byte) : Prop :=
  match f with
  | FormatUnknown => False
  | FormatPNG => exists rest, data = magicPNG ++ rest
  | FormatJPEG => exists rest, data = magicJPEG ++ rest
  | FormatWebP =>
      exists size rest, length size = 4%nat /\
        data = magicRIFF ++ size ++ magicWEBP ++ rest
  | FormatBMP => exists rest, data = magicBMP ++ rest
  | FormatICO => exists rest, data = magicICO ++ rest
  end.

(** The colour a plane decoder stores at pixel [(x, y)], read off the plane
    and the palette; [None] where the palette has no entry for the pixel's
    index. *)
Definition planeColor (bitCount : Z) (data palette : list byte)
    (width height x y : Z) : option color.RGBA :=
  let off := rowOffset bitCount width height y in
  if bitCount =? 32 then
    Some (color.mkRGBA (byteAt data (off + x * 4 + 2)) (byteAt data (off + x * 4 + 1))
            (byteAt data (off + x * 4)) (byteAt data (off + x * 4 + 3)))
  else if bitCount =? 24 then
    Some (color.mkRGBA (byteAt data (off + x * 3 + 2)) (byteAt data (off + x * 3 + 1))
            (byteAt data (off + x * 3)) xff)
  else
    let v := pixelValue bitCount (byteAt data (off + pixelByte bitCount x)) x in
    if v * 4 + 3 <? len palette then
      Some (color.mkRGBA (byteAt palette (v * 4 + 2)) (byteAt palette (v * 4 + 1))
              (byteAt palette (v * 4)) xff)
    else None.

(** Storing an optional colour at a pixel, and the pixel read back. *)
Definition paint (c : option color.RGBA) (t : image.RGBA) (x y : Z) : image.RGBA :=
  match c with
  | Some col => image.SetRGBA t x y col
  | None => t
  end.

Definition painted (c : option color.RGBA) (a : image.RGBA) (x y : Z) : color.RGBA :=
  match c with
  | Some col => if image.In x y (image.Bounds a) then col else color.zero
  | None => image.RGBAAt a x y
  end.

(** [decodedRegion R c a b]: image [b] is image [a] with the pixels of
    region [R] painted with the colours [c], and nothing else changed. *)
Definition decodedRegion (R : Z -> Z -> Prop) (c : Z -> Z -> option color.RGBA)
    (a b : image.RGBA) : Prop :=
  image.Bounds b = image.Bounds a /\
  forall x y,
    (R x y -> image.RGBAAt b x y = painted (c x y) a x y) /\
    (~ R x y -> image.RGBAAt b x y = image.RGBAAt a x y).

(** What one run of a plane decoder at depth [bitCount] does to [img]: with
    the whole plane in the buffer (output row 0, stored last, fits) every
    pixel of the [width] by [height] rectangle is painted with its colour
    and no other pixel changes; with a shorter buffer the image is returned
    as it was. *)
Definition planeDecoded (bitCount : Z) (run : outcome image.RGBA)
    (img : image.RGBA) (data palette : list byte) (width height : Z) : Prop :=
  (~ rowTruncated bitCount data width height 0 ->
     exists img', run = Ok img' /\
       decodedRegion (fun x y => 0 <= y < height /\ 0 <= x < width)
         (planeColor bitCount data palette width height) img img') /\
  (0 < height -> rowTruncated bitCount data width height 0 -> run = Ok img).

(** The dimensions [decodeICOBMP] hands to a plane decoder: each from an
    [int32] or a [uint8] field, and of an image that [image.NewRGBA] has
    made.  Within them the decoders' [int] arithmetic does not wrap. *)
Definition planeDimensions (width height : Z) : Prop :=
  Z.abs width < 2 ^ 31 /\ Z.abs height < 2 ^ 31 /\
  4 * Z.abs width * Z.abs height <= image.maxAlloc.

(** Where the pixel plane of a bitmap entry starts, behind the header and
    the palette, and the palette itself. *)
Definition planeOffset (data : list byte) (entry : icoEntry) : Z :=
  le32 data 0 +
  (if le16 data 14 <=? 8
   then paletteEntries (le16 data 14) (ColorCount entry) * 4 else 0).

Definition bmpPalette (data : list byte) (entry : icoEntry) : list byte :=
  if le16 data 14 <=? 8
  then take (Z.to_nat (paletteEntries (le16 data 14) (ColorCount entry) * 4))
         (drop (Z.to_nat (le32 data 0)) data)
  else [].

(** ** Package fpkgen: environment filter and template escaping

    A Go [string] is a sequence of bytes: a [string] of [ascii] characters,
    [len(s)] its [String.length], [s[i:j]] a [String.substring]. *)

(** The inner loop of [filterEnvironment]: does the entry start with one of
    the prefixes ([skip] set, then [break])? *)
Fixpoint skipEntry (e : string) (blacklist : list string) : bool :=
  match blacklist with
  | [] => false
  | b :: blacklist' => if String.prefix b e then true else skipEntry e blacklist'
  end.

Definition envBlacklist : list string :=
  ["PATH="; "HOME="; "USER="; "HOSTNAME="; "PWD="; "SHLVL="]%string.

(** [filterEnvironment]: the entries are appended to [filtered] one by
    one. *)
Definition filterEnvironment (env : list string) : list string :=
  fold_left (fun filtered e =>
               if skipEntry e envBlacklist then filtered else filtered ++ [e])
            env [].

(** [indexOf] of template.go: the loop
    [for i := 0; i <= len(s)-len(substr); i++], with [n] iterations left. *)
Fixpoint indexOfFrom (n : nat) (i : nat) (s substr : string) : Z :=
  match n with
  | O => -1
  | Datatypes.S n' =>
      if String.eqb (String.substring i (String.length substr) s) substr
      then Z.of_nat i
      else indexOfFrom n' (Datatypes.S i) s substr
  end.

Definition indexOf (s substr : string) : Z :=
  indexOfFrom
    (Z.to_nat (Z.of_nat (String.length s) - Z.of_nat (String.length substr) + 1))
    0 s substr.

(** [replaceAll] of template.go.  Its loop has no bound of its own; [fuel]
    counts the iterations allowed, and [None] says they did not suffice. *)
Fixpoint replaceAll (fuel : nat) (s old new : string) : option string :=
  match fuel with
  | O => None
  | Datatypes.S fuel' =>
      let idx := indexOf s old in
      if idx <? 0 then Some s
      else
        let before := String.substring 0 (Z.to_nat idx) s in
        let from := (Z.to_nat idx + String.length old)%nat in
        let after := String.substring from (String.length s - from) s in
        replaceAll fuel' (before ++ new ++ after)%string old new
  end.

Definition newline : string := String (Ascii.ascii_of_nat 10) EmptyString.

(** [escapeForTemplate] *)
Definition escapeForTemplate (fuel : nat) (s : string) : option string :=
  replaceAll fuel s newline " ".

(** Every newline turned into a space. *)
Fixpoint spaced (s : string) : string :=
  match s with
  | EmptyString => EmptyString
  | String c s' =>
      String (if Ascii.eqb c (Ascii.ascii_of_nat 10) then " "%char else c) (spaced s')
  end.

(** The number of newlines of a string. *)
Fixpoint newlines (s : string) : nat :=
  match s with
  | EmptyString => O
  | String c s' =>
      ((if Ascii.eqb c (Ascii.ascii_of_nat 10) then 1 else 0) + newlines s')%nat
  end.

(** ** Writing an ICO file: [saveICO] of the test-data generator

    [png.Encode] and [os.WriteFile] are external: an image comes with its
    encoding, and the model of [saveICO] returns the buffer the code hands
    to [os.WriteFile].  The allocation by [make] is taken to succeed. *)

(** [uint8(z)], [uint16(z)] *)
Definition uint8 (z : Z) : Z := z mod 2 ^ 8.

Definition uint16 (z : Z) : Z := z mod 2 ^ 16.

(** [data[i] = b] *)
Definition setByte (data : list byte) (i : Z) (b : byte) : outcome (list byte) :=
  if (0 <=? i) && (i <? len data) then Ok (<[Z.to_nat i := b]> data)
  else Panic (IndexOutOfRange i (len data)).

(** [binary.LittleEndian.PutUint16(data[lo:hi], v)]: the slice shares the
    array of [data], so the bytes land in [data]. *)
Definition PutUint16 (data : list byte) (lo hi : Z) (v : Z) : outcome (list byte) :=
  b ← slice data lo hi;
  _ ← index b 1;
  data ← setByte data lo (byteOf (uint8 v));
  setByte data (lo + 1) (byteOf (uint8 (Z.shiftr v 8))).

(** [binary.LittleEndian.PutUint32(data[lo:hi], v)] *)
Definition PutUint32 (data : list byte) (lo hi : Z) (v : Z) : outcome (list byte) :=
  b ← slice data lo hi;
  _ ← index b 3;
  data ← setByte data lo (byteOf (uint8 v));
  data ← setByte data (lo + 1) (byteOf (uint8 (Z.shiftr v 8)));
  data ← setByte data (lo + 2) (byteOf (uint8 (Z.shiftr v 16)));
  setByte data (lo + 3) (byteOf (uint8 (Z.shiftr v 24))).

(** [copy(data[off:], src)]: as many bytes as fit. *)
Definition copyAt (data : list byte) (off : Z) (src : list byte) : outcome (list byte) :=
  _ ← sliceFrom data off;
  Ok (list_inserts (Z.to_nat off) src data).

(** An image as [saveICO] uses it: the width and height of its bounds and
    its PNG encoding ([png.Encode] is an external collaborator). *)
Record pngImage : Type := mkPng { pngWidth : Z; pngHeight : Z; pngData : list byte }.

(** The body of the second loop of [saveICO]: directory slot [i] and the
    image bytes at [offset]; the new buffer and the next offset. *)
Definition writeEntry (icoData : list byte) (i : Z) (img : pngImage) (offset : Z)
    : outcome (list byte * Z) :=
  let entryOffset := 6 + i * 16 in
  let width := pngWidth img in
  let height := pngHeight img in
  let w := if width =? 256 then 0 else uint8 width in
  let h := if height =? 256 then 0 else uint8 height in
  icoData ← setByte icoData entryOffset (byteOf w);
  icoData ← setByte icoData (entryOffset + 1) (byteOf h);
  icoData ← setByte icoData (entryOffset + 2) x00;
  icoData ← setByte icoData (entryOffset + 3) x00;
  icoData ← PutUint16 icoData (entryOffset + 4) (entryOffset + 6) 1;
  icoData ← PutUint16 icoData (entryOffset + 6) (entryOffset + 8) 32;
  icoData ← PutUint32 icoData (entryOffset + 8) (entryOffset + 12)
              (uint32 (len (pngData img)));
  icoData ← PutUint32 icoData (entryOffset + 12) (entryOffset + 16) offset;
  icoData ← copyAt icoData offset (pngData img);
  Ok (icoData, uint32 (offset + uint32 (len (pngData img)))).

(** [for i, img := range images], from index [i] on. *)
Fixpoint writeEntries (images : list pngImage) (i : Z) (icoData : list byte)
    (offset : Z) : outcome (list byte) :=
  match images with
  | [] => Ok icoData
  | img :: rest =>
      '(icoData, offset) ← writeEntry icoData i img offset;
      writeEntries rest (i + 1) icoData offset
  end.

(** [saveICO], up to the bytes it hands to [os.WriteFile]. *)
Definition saveICO (images : list pngImage) : outcome (list byte) :=
  let headerSize := 6 in
  let directorySize := 16 * len images in
  let totalImageSize := fold_left (fun t img => t + len (pngData img)) images 0 in
  let icoData :=
    replicate (Z.to_nat (headerSize + directorySize + totalImageSize)) x00 in
  icoData ← PutUint16 icoData 0 2 0;
  icoData ← PutUint16 icoData 2 4 1;
  icoData ← PutUint16 icoData 4 6 (uint16 (len images));
  let offset := uint32 (headerSize + directorySize) in
  writeEntries images 0 icoData offset.

(** The total size of the encodings. *)
Fixpoint pngTotal (images : list pngImage) : Z :=
  match images with
  | [] => 0
  | img :: rest => len (pngData img) + pngTotal rest
  end.

(** An image [saveICO] can describe in a directory slot: 1 to 256 pixels
    each way, with an encoding that starts with the PNG signature. *)
Definition icoImage (img : pngImage) : Prop :=
  1 <= pngWidth img <= 256 /\ 1 <= pngHeight img <= 256 /\
  HasPrefix (pngData img) magicPNG = true.

(** Image [m] is the first of largest area. *)
Definition firstLargestImage (images : list pngImage) (m : nat) (img : pngImage) : Prop :=
  images !! m = Some img /\
  (forall j img', images !! j = Some img' ->
     pngWidth img' * pngHeight img' <= pngWidth img * pngHeight img) /\
  (forall j img', (j < m)%nat -> images !! j = Some img' ->
     pngWidth img' * pngHeight img' < pngWidth img * pngHeight img).

(** Slot [i] of the buffer describes [img] at [off], and the buffer holds
    the encoding there. *)
Definition slotWritten (data : list byte) (i : Z) (img : pngImage) (off : Z) : Prop :=
  entryAt data i =
    mkEntry (if pngWidth img =? 256 then 0 else uint8 (pngWidth img))
            (if pngHeight img =? 256 then 0 else uint8 (pngHeight img))
            0 0 1 32 (len (pngData img)) off /\
  forall k, (k < length (pngData img))%nat ->
    data !! (Z.to_nat off + k)%nat = pngData img !! k.

(** ** Application configuration and template data (types.go, template.go) *)

(** [VolumeMapping] *)
Record VolumeMapping : Type := mkVolume {
  Source : string;
  Destination : string;
  ReadOnly : bool;
  VolumeType : string
}.

Module AppConfig.

Record t : Type := mk {
  AppName : string;
  Version : string;
  DisplayName : string;
  Description : string;
  Maintainer : string;
  ContainerID : string;
  ContainerName : string;
  Image : string;
  Protocol : string;
  Port : string;
  Path : string;
  UIType : string;
  AllUsers : bool;
  Volumes : list VolumeMapping;
  Environment : list string;
  Icon : string;
  RestartPolicy : string;
  Labels : gmap string string
}.

End AppConfig.

Module TemplateData.

Record t : Type := mk {
  AppName : string;
  Version : string;
  DisplayName : string;
  Description : string;
  Maintainer : string;
  ContainerID : string;
  ContainerName : string;
  Image : string;
  Protocol : string;
  Port : string;
  Path : string;
  UIType : string;
  AllUsers : bool;
  Ports : list string;
  Volumes : list VolumeMapping;
  Environment : list string;
  RestartPolicy : string;
  Icon : string
}.

(** Assignments to single fields. *)
Definition setUIType (v : string) (d : t) : t :=
  mk (AppName d) (Version d) (DisplayName d) (Description d) (Maintainer d)
     (ContainerID d) (ContainerName d) (Image d) (Protocol d) (Port d) (Path d)
     v (AllUsers d) (Ports d) (Volumes d) (Environment d) (RestartPolicy d) (Icon d).

Definition setProtocol (v : string) (d : t) : t :=
  mk (AppName d) (Version d) (DisplayName d) (Description d) (Maintainer d)
     (ContainerID d) (ContainerName d) (Image d) v (Port d) (Path d)
     (UIType d) (AllUsers d) (Ports d) (Volumes d) (Environment d) (RestartPolicy d)
     (Icon d).

Definition setPath (v : string) (d : t) : t :=
  mk (AppName d) (Version d) (DisplayName d) (Description d) (Maintainer d)
     (ContainerID d) (ContainerName d) (Image d) (Protocol d) (Port d) v
     (UIType d) (AllUsers d) (Ports d) (Volumes d) (Environment d) (RestartPolicy d)
     (Icon d).

Definition setRestartPolicy (v : string) (d : t) : t :=
  mk (AppName d) (Version d) (DisplayName d) (Description d) (Maintainer d)
     (ContainerID d) (ContainerName d) (Image d) (Protocol d) (Port d) (Path d)
     (UIType d) (AllUsers d) (Ports d) (Volumes d) (Environment d) v (Icon d).

Definition setPorts (v : list string) (d : t) : t :=
  mk (AppName d) (Version d) (DisplayName d) (Description d) (Maintainer d)
     (ContainerID d) (ContainerName d) (Image d) (Protocol d) (Port d) (Path d)
     (UIType d) (AllUsers d) v (Volumes d) (Environment d) (RestartPolicy d) (Icon d).

End TemplateData.

(** [NewTemplateData], on a [config] that is not [nil]; [fuel] bounds the
    loop of [replaceAll] behind [escapeForTemplate]. *)
Definition NewTemplateData (fuel : nat) (config : AppConfig.t) : option TemplateData.t :=
  description ← escapeForTemplate fuel (AppConfig.Description config);
  let data :=
    TemplateData.mk
      (AppConfig.AppName config) (AppConfig.Version config)
      (AppConfig.DisplayName config) description (AppConfig.Maintainer config)
      (AppConfig.ContainerID config) (AppConfig.ContainerName config)
      (AppConfig.Image config) (AppConfig.Protocol config) (AppConfig.Port config)
      (AppConfig.Path config) (AppConfig.UIType config) (AppConfig.AllUsers config)
      [] (AppConfig.Volumes config) (AppConfig.Environment config)
      (AppConfig.RestartPolicy config) (AppConfig.Icon config) in
  let data :=
    if String.eqb (TemplateData.UIType data) "" then TemplateData.setUIType "url" data
    else data in
  let data :=
    if String.eqb (TemplateData.Protocol data) "" then TemplateData.setProtocol "http" data
    else data in
  let data :=
    if String.eqb (TemplateData.Path data) "" then TemplateData.setPath "/" data
    else data in
  let data :=
    if String.eqb (TemplateData.RestartPolicy data) ""
    then TemplateData.setRestartPolicy "unless-stopped" data
    else data in
  let data :=
    if negb (String.eqb (AppConfig.Port config) "")
    then TemplateData.setPorts
           [(AppConfig.Port config ++ ":" ++ AppConfig.Port config)%string] data
    else data in
  Some data.

(** ** The registry of installed applications

    Field [installed] of [Generator], a [map[string]*AppConfig], and the
    methods on it.  Every method holds the generator's lock for its whole
    body, so the methods are atomic and the registry is a state handed from
    one call to the next.  A [*AppConfig] is a pointer and may be [nil]:
    [None] here. *)

(** The map [NewGenerator] makes. *)
Definition newInstalled : gmap string (option AppConfig.t) := ∅.

Definition IsInstalled (installed : gmap string (option AppConfig.t)) (containerID : string) : bool :=
  if installed !! containerID is Some _ then true else false.

Definition GetInstalledApp (installed : gmap string (option AppConfig.t)) (containerID : string)
    : option AppConfig.t :=
  if installed !! containerID is Some config then config else None.

Definition MarkInstalled (installed : gmap string (option AppConfig.t)) (containerID : string)
    (config : option AppConfig.t) : gmap string (option AppConfig.t) :=
  <[containerID := config]> installed.

Definition MarkUninstalled (installed : gmap string (option AppConfig.t)) (containerID : string)
    : gmap string (option AppConfig.t) :=
  delete containerID installed.

(** [GetAllInstalled]: the loop [for k, v := range g.installed] fills a
    fresh map, visiting the entries in an order the runtime chooses;
    [order] is that order. *)
Definition GetAllInstalled (order : list (string * option AppConfig.t)) : gmap string (option AppConfig.t) :=
  fold_left (fun result kv => <[kv.1 := kv.2]> result) order ∅.

(** The calls that change the registry, and a sequence of them run from
    left to right. *)
Inductive call : Type :=
  | Mark (containerID : string) (config : option AppConfig.t)
  | Unmark (containerID : string).

Definition perform (installed : gmap string (option AppConfig.t)) (c : call) : gmap string (option AppConfig.t) :=
  match c with
  | Mark containerID config => MarkInstalled installed containerID config
  | Unmark containerID => MarkUninstalled installed containerID
  end.

Definition performAll (calls : list call) (installed : gmap string (option AppConfig.t)) : gmap string (option AppConfig.t) :=
  fold_left perform calls installed.

(** ** Application names: [sanitizeAppName]

    [strings.ToLower] is the library's, a parameter here.  The rest works
    on bytes: [strings.ReplaceAll(name, "_", "-")] replaces each byte [_],
    which in UTF-8 occurs only as the character itself; and the loop over
    the runes of [name] keeps the runes [a]-[z], [0]-[9] and [-], which are
    single bytes, while every byte of a longer or broken sequence decodes to
    a rune outside these ranges and is dropped. *)

Definition between (lo hi c : ascii) : bool :=
  (nat_of_ascii lo <=? nat_of_ascii c)%nat && (nat_of_ascii c <=? nat_of_ascii hi)%nat.

(** The test of the loop of [sanitizeAppName]. *)
Definition nameChar (c : ascii) : bool :=
  between "a" "z" c || between "0" "9" c || Ascii.eqb c "-".

(** [strings.ReplaceAll(name, "_", "-")] *)
Fixpoint dashed (name : string) : string :=
  match name with
  | EmptyString => EmptyString
  | String c rest => String (if Ascii.eqb c "_" then "-"%char else c) (dashed rest)
  end.

(** The loop [for _, c := range name] with its [result.WriteRune(c)]. *)
Fixpoint keepNameChars (name : string) : string :=
  match name with
  | EmptyString => EmptyString
  | String c rest =>
      if nameChar c then String c (keepNameChars rest) else keepNameChars rest
  end.

Section AppName.

Variable ToLower : string -> string.

Definition sanitizeAppName (name : string) : string :=
  let name := ToLower name in
  let name := dashed name in
  keepNameChars name.

End AppName.

(** A name made of [a]-[z], [0]-[9] and [-] only. *)
Fixpoint conforming (name : string) : bool :=
  match name with
  | EmptyString => true
  | String c rest => nameChar c && conforming rest
  end.

(** [strings.ToLower] on the bytes of ASCII: [A]-[Z] to [a]-[z], every
    other byte as it is. *)
Fixpoint asciiLower (s : string) : string :=
  match s with
  | EmptyString => EmptyString
  | String c rest =>
      String (if between "A" "Z" c then ascii_of_nat (nat_of_ascii c + 32) else c)
             (asciiLower rest)
  end.

(** A field as it is, or its default when it is empty. *)
Definition orDefault (s d : string) : string := if String.eqb s "" then d else s.

(** ** Further test vectors *)

(** A 2 by 2 bitmap at 8 bits per pixel: the 40-byte header (height field
    4), a palette of two entries and two rows of four bytes, the bottom row
    first. *)
Definition dibIndexed : list byte := bytesOf
  [40; 0; 0; 0; 2; 0; 0; 0; 4; 0; 0; 0; 1; 0; 8; 0; 0; 0; 0; 0;
   0; 0; 0; 0; 0; 0; 0; 0; 0; 0; 0; 0; 0; 0; 0; 0; 0; 0; 0; 0;
   10; 20; 30; 0; 40; 50; 60; 0;
   0; 1; 0; 0;
   1; 0; 0; 0].

Definition entryIndexed : icoEntry := mkEntry 2 2 2 0 1 8 56 22.

(** Stand-ins for PNG encodings: the signature and one byte. *)
Definition pngStub (k : Z) : list byte := magicPNG ++ bytesOf [k].

(** Three images of 16 by 16, 32 by 32 and 32 by 32 pixels. *)
Definition threeImages : list pngImage :=
  [mkPng 16 16 (pngStub 1); mkPng 32 32 (pngStub 2); mkPng 32 32 (pngStub 3)].

(** A decoder that accepts everything and returns the bytes it was
    given. *)
Definition acceptAll : list byte -> option (list byte) := Some.

Definition twoLines : string := ("name: app" ++ newline ++ "port: 80" ++ newline)%string.

(** A configuration with a two-line description and no UI settings. *)
Definition bareConfig : AppConfig.t :=
  AppConfig.mk "watchcow.web" "1.0.0" "Web" twoLines "WatchCow" "0123456789ab" "web"
    "nginx:latest" "" "8080" "" "" false [] [] "" "" ∅.

(** A registry of two containers, one of them registered with a [nil]
    configuration. *)
Definition twoApps : gmap string (option AppConfig.t) :=
  <["web"%string := Some bareConfig]> (<["db"%string := None]> ∅).

(** * Properties *)

(** ** Buffers, slices and little-endian reads *)

Lemma len_nonneg {A : Type} (l : list A) : 0 <= len l.
Proof. unfold len. lia. Qed.

Lemma len_app {A : Type} (l1 l2 : list A) : len (l1 ++ l2) = len l1 + len l2.
Proof. unfold len. rewrite length_app. lia. Qed.

Lemma index_ok (data : list byte) (i : Z) :
  0 <= i < len data -> index data i = Ok (byteAt data i).
Proof.
  intros [H0 H1]. unfold index, byteAt.
  destruct (Z.leb_spec 0 i) as [_|]; [|lia].
  destruct (data !! Z.to_nat i) eqn:E; [reflexivity|].
  apply lookup_ge_None in E. unfold len in H1. lia.
Qed.

Lemma index_lookup (data : list byte) (i : Z) (b : byte) :
  index data i = Ok b -> 0 <= i /\ data !! Z.to_nat i = Some b.
Proof.
  unfold index. destruct (Z.leb_spec 0 i); [|discriminate].
  destruct (data !! Z.to_nat i); [|discriminate].
  intros [= ->]. auto.
Qed.

Lemma slice_ok (data : list byte) (lo hi : Z) :
  0 <= lo -> lo <= hi -> hi <= len data ->
  slice data lo hi = Ok (take (Z.to_nat (hi - lo)) (drop (Z.to_nat lo) data)).
Proof.
  intros. unfold slice.
  destruct (Z.leb_spec 0 lo); [|lia].
  destruct (Z.leb_spec lo hi); [|lia].
  destruct (Z.leb_spec hi (len data)); [|lia].
  reflexivity.
Qed.

Lemma slice_panics (data : list byte) (lo hi : Z) :
  hi < lo \/ len data < hi \/ lo < 0 ->
  slice data lo hi = Panic (SliceBoundsOutOfRange lo hi (len data)).
Proof.
  intros. unfold slice.
  destruct (Z.leb_spec 0 lo); destruct (Z.leb_spec lo hi);
    destruct (Z.leb_spec hi (len data)); simpl; try reflexivity; lia.
Qed.

Lemma len_window (data : list byte) (lo n : Z) :
  0 <= lo -> 0 <= n -> lo + n <= len data ->
  len (take (Z.to_nat n) (drop (Z.to_nat lo) data)) = n.
Proof.
  unfold len. intros. rewrite length_take, length_drop. lia.
Qed.

Lemma byteAt_window (data : list byte) (lo n j : Z) :
  0 <= lo -> 0 <= j < n ->
  byteAt (take (Z.to_nat n) (drop (Z.to_nat lo) data)) j = byteAt data (lo + j).
Proof.
  intros. unfold byteAt.
  rewrite lookup_take_lt by lia. rewrite lookup_drop.
  replace (Z.to_nat lo + Z.to_nat j)%nat with (Z.to_nat (lo + j)) by lia.
  reflexivity.
Qed.

Lemma Uint16_ok (b : list byte) :
  2 <= len b -> Uint16 b = Ok (le16 b 0).
Proof.
  intros. unfold Uint16, le16.
  rewrite !index_ok by lia. reflexivity.
Qed.

Lemma Uint32_ok (b : list byte) :
  4 <= len b -> Uint32 b = Ok (le32 b 0).
Proof.
  intros. unfold Uint32, le32.
  rewrite !index_ok by lia. reflexivity.
Qed.

Lemma read16 (data : list byte) (lo hi : Z) :
  0 <= lo -> hi = lo + 2 -> hi <= len data ->
  slice data lo hi ≫= Uint16 = Ok (le16 data lo).
Proof.
  intros ? -> ?. rewrite slice_ok by lia. cbn [mbind outcome_bind].
  replace (lo + 2 - lo) with 2 by lia.
  rewrite Uint16_ok by (rewrite len_window; lia).
  unfold le16. rewrite !byteAt_window by lia.
  rewrite Z.add_0_r. reflexivity.
Qed.

Lemma read32 (data : list byte) (lo hi : Z) :
  0 <= lo -> hi = lo + 4 -> hi <= len data ->
  slice data lo hi ≫= Uint32 = Ok (le32 data lo).
Proof.
  intros ? -> ?. rewrite slice_ok by lia. cbn [mbind outcome_bind].
  replace (lo + 4 - lo) with 4 by lia.
  rewrite Uint32_ok by (rewrite len_window; lia).
  unfold le32. rewrite !byteAt_window by lia.
  rewrite Z.add_0_r. reflexivity.
Qed.

Lemma u8_nonneg (b : byte) : 0 <= u8 b.
Proof. unfold u8. lia. Qed.

Lemma le16_nonneg (data : list byte) (off : Z) : 0 <= le16 data off.
Proof.
  unfold le16. rewrite Z.lor_nonneg, Z.shiftl_nonneg.
  split; apply u8_nonneg.
Qed.

Lemma le32_nonneg (data : list byte) (off : Z) : 0 <= le32 data off.
Proof.
  unfold le32. rewrite !Z.lor_nonneg, !Z.shiftl_nonneg.
  repeat split; apply u8_nonneg.
Qed.

(** ** Format detection *)

Lemma HasPrefix_app (p rest : list byte) : HasPrefix (p ++ rest) p = true.
Proof.
  induction p as [|b p IH]; [reflexivity|].
  cbn [app HasPrefix]. rewrite IH, andb_true_r.
  apply Byte.byte_dec_lb. reflexivity.
Qed.

Lemma len_ge_app (p rest : list byte) : len p <= len (p ++ rest).
Proof. rewrite len_app. pose proof (len_nonneg rest). lia. Qed.

(** C5.  A buffer that starts with a format's magic bytes is classified as
    that format, whatever follows: the PNG signature, the JPEG SOI marker,
    "BM", the ICO magic, and "RIFF" + any four size bytes + "WEBP". *)
Theorem detectFormat_magic_prefix (rest : list byte) (s0 s1 s2 s3 : byte) :
  detectFormat (magicPNG ++ rest) = FormatPNG /\
  detectFormat (magicJPEG ++ rest) = FormatJPEG /\
  detectFormat (magicBMP ++ rest) = FormatBMP /\
  detectFormat (magicICO ++ rest) = FormatICO /\
  detectFormat (magicRIFF ++ [s0; s1; s2; s3] ++ magicWEBP ++ rest) = FormatWebP.
Proof.
  pose proof (len_nonneg rest) as Hrest.
  repeat split; unfold detectFormat.
  - rewrite HasPrefix_app.
    pose proof (len_ge_app magicPNG rest) as H. change (len magicPNG) with 8 in H.
    destruct (Z.ltb_spec (len (magicPNG ++ rest)) 2); [lia|].
    destruct (Z.leb_spec 8 (len (magicPNG ++ rest))); [reflexivity|lia].
  - rewrite HasPrefix_app.
    pose proof (len_ge_app magicJPEG rest) as H. change (len magicJPEG) with 3 in H.
    destruct (Z.ltb_spec (len (magicJPEG ++ rest)) 2); [lia|].
    destruct (Z.leb_spec 3 (len (magicJPEG ++ rest))); [|lia].
    rewrite andb_false_r. reflexivity.
  - pose proof (len_ge_app magicBMP rest) as H. change (len magicBMP) with 2 in H.
    destruct (Z.ltb_spec (len (magicBMP ++ rest)) 2); [lia|].
    rewrite !andb_false_r. reflexivity.
  - rewrite HasPrefix_app.
    pose proof (len_ge_app magicICO rest) as H. change (len magicICO) with 4 in H.
    destruct (Z.ltb_spec (len (magicICO ++ rest)) 2); [lia|].
    destruct (Z.leb_spec 4 (len (magicICO ++ rest))); [|lia].
    rewrite !andb_false_r. reflexivity.
  - set (data := magicRIFF ++ [s0; s1; s2; s3] ++ magicWEBP ++ rest).
    assert (H : 12 <= len data).
    { unfold data. rewrite !len_app.
      change (len magicRIFF) with 4. change (len magicWEBP) with 4.
      change (len [s0; s1; s2; s3]) with 4. lia. }
    destruct (Z.ltb_spec (len data) 2); [lia|].
    destruct (Z.leb_spec 12 (len data)); [|lia].
    unfold data. rewrite HasPrefix_app.
    fold data. rewrite !andb_false_r.
    change (take 4 (drop 8 data)) with (take 4 (magicWEBP ++ rest)).
    reflexivity.
Qed.

(** ** Loops *)

(** An invariant [I] indexed by the loop counter survives a loop whose body
    either breaks or re-establishes it; the loop then returns, at some
    counter value [k] it stopped at. *)
Lemma forLoop_inv {S : Type} (I : Z -> S -> Prop)
    (body : Z -> S -> outcome (step S)) (n : nat) :
  forall (i : Z) (s : S),
  I i s ->
  (forall j t, i <= j < i + Z.of_nat n -> I j t ->
     body j t = Ok Break \/ exists t', body j t = Ok (Next t') /\ I (j + 1) t') ->
  exists t k, forLoop n i body s = Ok t /\ i <= k <= i + Z.of_nat n /\ I k t.
Proof.
  induction n as [|n IH]; intros i s Hi Hbody.
  - exists s, i. cbn. split; [reflexivity|]. split; [lia|assumption].
  - cbn [forLoop].
    destruct (Hbody i s ltac:(lia) Hi) as [E | (t' & E & Hi')]; rewrite E;
      cbn [mbind outcome_bind].
    + exists s, i. split; [reflexivity|]. split; [lia|assumption].
    + destruct (IH (i + 1) t' Hi') as (t & k & Hrun & Hk & HI).
      { intros j u Hj. apply Hbody. lia. }
      exists t, k. split; [assumption|]. split; [lia|assumption].
Qed.

(** A loop without [break] runs to its bound. *)
Lemma forLoop_total {S : Type} (I : Z -> S -> Prop)
    (body : Z -> S -> outcome (step S)) (n : nat) :
  forall (i : Z) (s : S),
  I i s ->
  (forall j t, i <= j < i + Z.of_nat n -> I j t ->
     exists t', body j t = Ok (Next t') /\ I (j + 1) t') ->
  exists t, forLoop n i body s = Ok t /\ I (i + Z.of_nat n) t.
Proof.
  induction n as [|n IH]; intros i s Hi Hbody.
  - exists s. cbn. rewrite Z.add_0_r. auto.
  - cbn [forLoop].
    destruct (Hbody i s ltac:(lia) Hi) as (t' & E & Hi'). rewrite E.
    cbn [mbind outcome_bind].
    destruct (IH (i + 1) t' Hi') as (t & Hrun & HI).
    { intros j u Hj. apply Hbody. lia. }
    exists t. split; [assumption|].
    replace (i + Z.of_nat (Datatypes.S n)) with (i + 1 + Z.of_nat n) by lia.
    assumption.
Qed.

(** ** Images *)

Lemma RGBAAt_blank (r : image.Rectangle) (x y : Z) :
  image.RGBAAt (blank r) x y = color.zero.
Proof.
  unfold image.RGBAAt, blank. cbn.
  destruct (image.In x y r); [|reflexivity].
  rewrite lookup_empty. reflexivity.
Qed.

Lemma RGBAAt_empty (img : image.RGBA) (x y : Z) :
  image.Pix img = ∅ -> image.RGBAAt img x y = color.zero.
Proof.
  destruct img as [pix r]. cbn. intros ->. apply (RGBAAt_blank r).
Qed.

Lemma touchedOnly_refl (T : Z -> Z -> Prop) (a : image.RGBA) : touchedOnly T a a.
Proof. split; [reflexivity|]. intros; left; reflexivity. Qed.

Lemma touchedOnly_weaken (T T' : Z -> Z -> Prop) (a b : image.RGBA) :
  (forall x y, T x y -> T' x y) -> touchedOnly T a b -> touchedOnly T' a b.
Proof.
  intros HT [Hb H]. split; [assumption|].
  intros x y. destruct (H x y); [left|right]; auto.
Qed.

Lemma touchedOnly_trans (T1 T2 T : Z -> Z -> Prop) (a b c : image.RGBA) :
  (forall x y, T1 x y -> T x y) -> (forall x y, T2 x y -> T x y) ->
  touchedOnly T1 a b -> touchedOnly T2 b c -> touchedOnly T a c.
Proof.
  intros H1 H2 [Hb1 Ha] [Hb2 Hc]. split; [congruence|].
  intros x y. destruct (Hc x y) as [E2|]; [|right; auto].
  destruct (Ha x y) as [E1|]; [left; congruence|right; auto].
Qed.

Lemma touchedOnly_SetRGBA (a : image.RGBA) (x y : Z) (c : color.RGBA) :
  touchedOnly (fun x' y' => x' = x /\ y' = y) a (image.SetRGBA a x y c).
Proof.
  unfold image.SetRGBA. destruct (image.In x y (image.Bounds a)) eqn:Hin;
    [|apply touchedOnly_refl].
  split; [reflexivity|]. intros x' y'.
  destruct (decide ((x, y) = (x', y'))) as [[= -> ->]|Hne]; [right; auto|].
  left. unfold image.RGBAAt. cbn.
  rewrite lookup_insert_ne by assumption. reflexivity.
Qed.

(** A column loop whose body touches at most pixel [(x, y)], and only when
    [P x], touches at most row [y]. *)
Lemma columns_touched (P : Z -> Prop) (y width : Z)
    (body : Z -> image.RGBA -> outcome (step image.RGBA)) (img : image.RGBA) :
  (forall x s, 0 <= x < width ->
     exists s', body x s = Ok (Next s') /\
       touchedOnly (fun x' y' => x' = x /\ y' = y /\ P x') s s') ->
  exists s', forRange width body img = Ok s' /\
    touchedOnly (fun x' y' => y' = y /\ 0 <= x' < width /\ P x') img s'.
Proof.
  intros Hbody. unfold forRange.
  destruct (forLoop_total
    (fun j t => touchedOnly (fun x' y' => y' = y /\ 0 <= x' < j /\ P x') img t)
    body (Z.to_nat width) 0 img) as (t & Hrun & Ht).
  - apply touchedOnly_refl.
  - intros j t Hj Ht.
    destruct (Hbody j t ltac:(lia)) as (t' & E & Ht').
    exists t'. split; [assumption|].
    eapply touchedOnly_trans; [| |exact Ht|exact Ht']; cbn; intros; lia || intuition (subst; lia || auto).
  - exists t. split; [assumption|].
    eapply touchedOnly_weaken; [|exact Ht]. cbn. intros. intuition lia.
Qed.

(** A row loop that breaks at a row that does not fit, and otherwise touches
    at most the pixels [P] of its row, touches only rows before the first
    one that does not fit. *)
Lemma rows_touched (fits : Z -> Prop) (P : Z -> Z -> Prop) (height : Z)
    (body : Z -> image.RGBA -> outcome (step image.RGBA)) (img : image.RGBA) :
  (forall y s, 0 <= y < height ->
     body y s = Ok Break \/
     (fits y /\ exists s', body y s = Ok (Next s') /\
        touchedOnly (fun x' y' => y' = y /\ P x' y) s s')) ->
  exists s', forRange height body img = Ok s' /\
    touchedOnly (fun x' y' =>
      0 <= y' < height /\ (forall j, 0 <= j <= y' -> fits j) /\ P x' y') img s'.
Proof.
  intros Hbody. unfold forRange.
  destruct (forLoop_inv
    (fun j t => (forall j', 0 <= j' < j -> fits j') /\
                touchedOnly (fun x' y' => 0 <= y' < j /\ P x' y') img t)
    body (Z.to_nat height) 0 img) as (t & k & Hrun & Hk & Hfit & Ht).
  - split; [intros; lia|apply touchedOnly_refl].
  - intros j t Hj [Hfit Ht].
    destruct (Hbody j t ltac:(lia)) as [E|(Hf & t' & E & Ht')]; [left; exact E|].
    right. exists t'. split; [assumption|]. split.
    + intros j' Hj'. destruct (Z.eq_dec j' j) as [->|]; [assumption|apply Hfit; lia].
    + eapply touchedOnly_trans; [| |exact Ht|exact Ht']; cbn; intros; intuition (subst; lia || auto).
  - exists t. split; [assumption|].
    eapply touchedOnly_weaken; [|exact Ht]. cbn. intros x' y' [Hy HP].
    split; [lia|]. split; [|assumption]. intros j Hj. apply Hfit. lia.
Qed.

(** ** Bit-plane decoders *)

Lemma setIndexed_touched (img : image.RGBA) (x y : Z) (palette : list byte) (v : Z) :
  0 <= v ->
  exists s', setIndexed img x y palette v = Ok s' /\
    touchedOnly (fun x' y' => x' = x /\ y' = y /\ v * 4 + 3 < len palette) img s'.
Proof.
  intros Hv. unfold setIndexed.
  destruct (Z.ltb_spec (v * 4 + 3) (len palette)).
  - rewrite !index_ok by lia. cbn [mbind outcome_bind].
    eexists. split; [reflexivity|].
    eapply touchedOnly_weaken; [|apply touchedOnly_SetRGBA].
    cbn. intros. intuition.
  - exists img. split; [reflexivity|apply touchedOnly_refl].
Qed.

(** One pass of a row body that did not break: the column loop, wrapped. *)
Lemma row_pass (P : Z -> Prop) (y width : Z)
    (body : Z -> image.RGBA -> outcome (step image.RGBA)) (s : image.RGBA) :
  (forall x t, 0 <= x < width ->
     exists t', body x t = Ok (Next t') /\
       touchedOnly (fun x' y' => x' = x /\ y' = y /\ P x') t t') ->
  exists s', Next <$> forRange width body s = Ok (Next s') /\
    touchedOnly (fun x' y' => y' = y /\ 0 <= x' < width /\ P x') s s'.
Proof.
  intros Hbody.
  destruct (columns_touched P y width body s Hbody) as (s' & -> & Hs').
  exists s'. split; [reflexivity|assumption].
Qed.

(** A palette-indexed pixel, once its byte is known to be in the buffer. *)
Lemma indexed_pixel (bitCount : Z) (data palette : list byte) (off x y v : Z)
    (t : image.RGBA) (Q : Z -> Prop) :
  0 <= off < len data ->
  v = pixelValue bitCount (byteAt data off) x -> 0 <= v ->
  ((exists b, data !! Z.to_nat off = Some b /\
      pixelValue bitCount b x * 4 + 3 < len palette) -> Q x) ->
  exists t', Next <$> setIndexed t x y palette v = Ok (Next t') /\
    touchedOnly (fun x' y' => x' = x /\ y' = y /\ Q x') t t'.
Proof.
  intros Hoff -> Hv HQ.
  destruct (setIndexed_touched t x y palette _ Hv) as (t' & -> & Ht').
  exists t'. split; [reflexivity|].
  eapply touchedOnly_weaken; [|exact Ht']. cbn.
  intros x' y' (-> & -> & Hp). repeat split. apply HQ.
  exists (byteAt data off). split; [|assumption].
  pose proof (index_ok data off Hoff) as E. apply index_lookup in E. tauto.
Qed.

Lemma run_weaken (T T' : Z -> Z -> Prop) (run : outcome image.RGBA)
    (img : image.RGBA) :
  (forall x y, T x y -> T' x y) ->
  (exists img', run = Ok img' /\ touchedOnly T img img') ->
  exists img', run = Ok img' /\ touchedOnly T' img img'.
Proof.
  intros HT (img' & Hrun & Ht). exists img'. split; [assumption|].
  eapply touchedOnly_weaken; eassumption.
Qed.

Lemma land_nonneg_r (a m : Z) : 0 <= m -> 0 <= Z.land a m.
Proof. intros. apply Z.land_nonneg. auto. Qed.

Lemma decodeICOBMP1_touched (img : image.RGBA) (data : list byte)
    (width height : Z) (palette : list byte) :
  exists img', decodeICOBMP1 img data width height palette = Ok img' /\
    touchedOnly (mapped 1 data palette width height) img img'.
Proof.
  unfold decodeICOBMP1, mapped.
  apply (rows_touched (fun j => ~ rowTruncated 1 data width height j)
    (fun x y => 0 <= x < width /\ exists b,
       data !! Z.to_nat (rowOffset 1 width height y + pixelByte 1 x) = Some b /\
       pixelValue 1 b x * 4 + 3 < len palette)).
  intros y s Hy.
  match goal with |- context [Z.ltb ?a ?b] => destruct (Z.ltb_spec a b) as [Ht|Hf] end;
    [left; reflexivity|right].
  split.
  { unfold rowTruncated, rowOffset, rowSpan, rowSize. cbn. lia. }
  apply row_pass. intros x t Hx.
  assert (0 <= (height - 1 - y) * (Z.quot (width + 31) 32 * 4)).
  { apply Z.mul_nonneg_nonneg; [lia|]. Z.quot_rem_to_equations. lia. }
  assert (0 <= Z.quot x 8 < Z.quot (width + 31) 32 * 4)
    by (Z.quot_rem_to_equations; lia).
  rewrite index_ok by lia. cbn [mbind outcome_bind].
  match goal with |- context [byteAt data ?o] =>
    apply (indexed_pixel 1 data palette o) end;
    [lia|reflexivity| |intros HQ; exact HQ].
  apply land_nonneg_r. lia.
Qed.

Lemma decodeICOBMP4_touched (img : image.RGBA) (data : list byte)
    (width height : Z) (palette : list byte) :
  exists img', decodeICOBMP4 img data width height palette = Ok img' /\
    touchedOnly (mapped 4 data palette width height) img img'.
Proof.
  unfold decodeICOBMP4, mapped.
  apply (rows_touched (fun j => ~ rowTruncated 4 data width height j)
    (fun x y => 0 <= x < width /\ exists b,
       data !! Z.to_nat (rowOffset 4 width height y + pixelByte 4 x) = Some b /\
       pixelValue 4 b x * 4 + 3 < len palette)).
  intros y s Hy.
  match goal with |- context [Z.ltb ?a ?b] => destruct (Z.ltb_spec a b) as [Ht|Hf] end;
    [left; reflexivity|right].
  split.
  { unfold rowTruncated, rowOffset, rowSpan, rowSize. cbn. lia. }
  apply row_pass. intros x t Hx.
  assert (0 <= (height - 1 - y) * (Z.quot (width * 4 + 31) 32 * 4)).
  { apply Z.mul_nonneg_nonneg; [lia|]. Z.quot_rem_to_equations. lia. }
  assert (0 <= Z.quot x 2 < Z.quot (width * 4 + 31) 32 * 4)
    by (Z.quot_rem_to_equations; lia).
  rewrite index_ok by lia. cbn [mbind outcome_bind].
  destruct (Z.rem x 2 =? 0) eqn:Epar; cbn [mbind outcome_bind];
    (match goal with |- context [byteAt data ?o] =>
       apply (indexed_pixel 4 data palette o) end;
     [lia
     |unfold pixelValue; cbn; rewrite Epar; reflexivity
     |apply land_nonneg_r; lia
     |intros HQ; exact HQ]).
Qed.

Lemma decodeICOBMP8_touched (img : image.RGBA) (data : list byte)
    (width height : Z) (palette : list byte) :
  exists img', decodeICOBMP8 img data width height palette = Ok img' /\
    touchedOnly (mapped 8 data palette width height) img img'.
Proof.
  unfold decodeICOBMP8, mapped.
  apply (rows_touched (fun j => ~ rowTruncated 8 data width height j)
    (fun x y => 0 <= x < width /\ exists b,
       data !! Z.to_nat (rowOffset 8 width height y + pixelByte 8 x) = Some b /\
       pixelValue 8 b x * 4 + 3 < len palette)).
  intros y s Hy.
  match goal with |- context [Z.ltb ?a ?b] => destruct (Z.ltb_spec a b) as [Ht|Hf] end;
    [left; reflexivity|right].
  split.
  { unfold rowTruncated, rowOffset, rowSpan, rowSize. cbn. lia. }
  apply row_pass. intros x t Hx.
  assert (0 <= (height - 1 - y) * (Z.quot (width + 3) 4 * 4)).
  { apply Z.mul_nonneg_nonneg; [lia|]. Z.quot_rem_to_equations. lia. }
  rewrite index_ok by lia. cbn [mbind outcome_bind].
  match goal with |- context [byteAt data ?o] =>
    apply (indexed_pixel 8 data palette o) end;
    [lia|reflexivity|apply u8_nonneg|intros HQ; exact HQ].
Qed.

Lemma decodeICOBMP24_touched (img : image.RGBA) (data : list byte) (width height : Z) :
  exists img', decodeICOBMP24 img data width height = Ok img' /\
    touchedOnly (covered 24 data width height) img img'.
Proof.
  unfold decodeICOBMP24.
  apply (run_weaken (fun x y => 0 <= y < height /\
           (forall j, 0 <= j <= y -> ~ rowTruncated 24 data width height j) /\
           0 <= x < width /\ True)); [unfold covered; tauto|].
  apply (rows_touched (fun j => ~ rowTruncated 24 data width height j)
           (fun x _ => 0 <= x < width /\ True)).
  intros y s Hy.
  match goal with |- context [Z.ltb ?a ?b] => destruct (Z.ltb_spec a b) as [Ht|Hf] end;
    [left; reflexivity|right].
  split.
  { unfold rowTruncated, rowOffset, rowSpan, rowSize. cbn. lia. }
  apply (row_pass (fun _ => True)). intros x t Hx.
  assert (0 <= (height - 1 - y) * (Z.quot (width * 3 + 3) 4 * 4)).
  { apply Z.mul_nonneg_nonneg; [lia|]. Z.quot_rem_to_equations. lia. }
  rewrite !index_ok by lia. cbn [mbind outcome_bind].
  eexists. split; [reflexivity|].
  eapply touchedOnly_weaken; [|apply touchedOnly_SetRGBA]. cbn. intuition.
Qed.

Lemma decodeICOBMP32_touched (img : image.RGBA) (data : list byte) (width height : Z) :
  exists img', decodeICOBMP32 img data width height = Ok img' /\
    touchedOnly (covered 32 data width height) img img'.
Proof.
  unfold decodeICOBMP32.
  apply (run_weaken (fun x y => 0 <= y < height /\
           (forall j, 0 <= j <= y -> ~ rowTruncated 32 data width height j) /\
           0 <= x < width /\ True)); [unfold covered; tauto|].
  apply (rows_touched (fun j => ~ rowTruncated 32 data width height j)
           (fun x _ => 0 <= x < width /\ True)).
  intros y s Hy.
  match goal with |- context [Z.ltb ?a ?b] => destruct (Z.ltb_spec a b) as [Ht|Hf] end;
    [left; reflexivity|right].
  split.
  { unfold rowTruncated, rowOffset, rowSpan, rowSize. cbn. lia. }
  apply (row_pass (fun _ => True)). intros x t Hx.
  assert (0 <= (height - 1 - y) * (width * 4)) by nia.
  rewrite !index_ok by lia. cbn [mbind outcome_bind].
  eexists. split; [reflexivity|].
  eapply touchedOnly_weaken; [|apply touchedOnly_SetRGBA]. cbn. intuition.
Qed.

(** Rows are visited from output row 0 on, and output row 0 is stored last:
    it has the largest offset.  So whenever any row is truncated, row 0 is. *)
Lemma rowTruncated_first (bitCount : Z) (data : list byte) (width height y : Z) :
  0 <= width -> 0 <= y < height ->
  rowTruncated bitCount data width height y ->
  rowTruncated bitCount data width height 0.
Proof.
  unfold rowTruncated, rowOffset. intros Hw Hy H.
  assert (0 <= rowSize bitCount width).
  { unfold rowSize. repeat destruct (_ =? _); Z.quot_rem_to_equations; lia. }
  nia.
Qed.

Lemma kept_of_touched (bitCount : Z) (T : Z -> Z -> Prop)
    (run : outcome image.RGBA) (img : image.RGBA) (data : list byte)
    (width height : Z) :
  (forall x y, T x y ->
     forall j, 0 <= j <= y -> ~ rowTruncated bitCount data width height j) ->
  (exists img', run = Ok img' /\ touchedOnly T img img') ->
  truncatedRowsKept bitCount run img data width height.
Proof.
  intros HT (img' & Hrun & _ & Ht). exists img'. split; [assumption|].
  intros y0 Hy0 Htr x y Hy.
  destruct (Ht x y) as [E|HTxy].
  - split; [assumption|]. intros Hpix. rewrite E. apply RGBAAt_empty, Hpix.
  - exfalso. apply (HT x y HTxy y0); [lia|assumption].
Qed.

(** C4.  At each supported depth the row decoder returns without error,
    also when the buffer is too short for a row: from the first output row
    whose span exceeds the buffer on, every row is left as it was, which in
    the freshly made image is the zero (transparent black) pixel. *)
Theorem row_decoders_tolerate_truncation
    (img : image.RGBA) (data : list byte) (width height : Z) (palette : list byte) :
  truncatedRowsKept 1 (decodeICOBMP1 img data width height palette)
    img data width height /\
  truncatedRowsKept 4 (decodeICOBMP4 img data width height palette)
    img data width height /\
  truncatedRowsKept 8 (decodeICOBMP8 img data width height palette)
    img data width height /\
  truncatedRowsKept 24 (decodeICOBMP24 img data width height)
    img data width height /\
  truncatedRowsKept 32 (decodeICOBMP32 img data width height)
    img data width height.
Proof.
  repeat split.
  - eapply kept_of_touched; [|apply decodeICOBMP1_touched].
    unfold mapped. intros x y H. apply H.
  - eapply kept_of_touched; [|apply decodeICOBMP4_touched].
    unfold mapped. intros x y H. apply H.
  - eapply kept_of_touched; [|apply decodeICOBMP8_touched].
    unfold mapped. intros x y H. apply H.
  - eapply kept_of_touched; [|apply decodeICOBMP24_touched].
    unfold covered. intros x y H. apply H.
  - eapply kept_of_touched; [|apply decodeICOBMP32_touched].
    unfold covered. intros x y H. apply H.
Qed.

Lemma unmapped_of_touched (bitCount : Z) (run : outcome image.RGBA)
    (img : image.RGBA) (data : list byte) (width height : Z) (palette : list byte) :
  (exists img', run = Ok img' /\
     touchedOnly (mapped bitCount data palette width height) img img') ->
  unmappedPixelsKept bitCount run img data width height palette.
Proof.
  intros (img' & Hrun & _ & Ht). exists img'. split; [assumption|].
  intros x y b Hx Hy Hb Hidx.
  destruct (Ht x y) as [E|(_ & _ & _ & b' & Hb' & Hlt)].
  - split; [assumption|]. intros Hpix. rewrite E. apply RGBAAt_empty, Hpix.
  - exfalso. rewrite Hb in Hb'. injection Hb' as <-. lia.
Qed.

(** C10.  In the palette-indexed decoders (1, 4 and 8 bits) a pixel whose
    palette index reaches the end of the palette handed in is skipped: the
    decoder returns without error and without reading outside the palette,
    and the pixel is left as it was, zero in the freshly made image.  This
    holds for every palette, also one shorter than the depth can index. *)
Theorem palette_index_beyond_palette_skipped
    (img : image.RGBA) (data : list byte) (width height : Z) (palette : list byte) :
  unmappedPixelsKept 1 (decodeICOBMP1 img data width height palette)
    img data width height palette /\
  unmappedPixelsKept 4 (decodeICOBMP4 img data width height palette)
    img data width height palette /\
  unmappedPixelsKept 8 (decodeICOBMP8 img data width height palette)
    img data width height palette.
Proof.
  repeat split; apply unmapped_of_touched.
  - apply decodeICOBMP1_touched.
  - apply decodeICOBMP4_touched.
  - apply decodeICOBMP8_touched.
Qed.

(** ** The bitmap decoder *)

Section BitmapFacts.

Context {ExtImage : Type}.

Lemma decodePlane_unsupported (img : image.RGBA) (data : list byte)
    (bitCount pixelOffset width height : Z) (palette : list byte) :
  supportedDepth bitCount = false ->
  decodePlane img data bitCount pixelOffset width height palette
    = Err (ErrBMPBitDepth bitCount).
Proof.
  unfold supportedDepth, decodePlane. intros H.
  repeat (apply orb_false_elim in H; destruct H as [H ?]).
  repeat match goal with E : (_ =? _) = false |- _ => rewrite E; clear E end.
  reflexivity.
Qed.

Lemma decodePlane_supported (img : image.RGBA) (data : list byte)
    (bitCount pixelOffset width height : Z) (palette : list byte) :
  supportedDepth bitCount = true ->
  (0 <= pixelOffset <= len data /\
     exists img', decodePlane img data bitCount pixelOffset width height palette
                    = Ok img' /\
                  image.Bounds img' = image.Bounds img) \/
  (len data < pixelOffset /\
     decodePlane img data bitCount pixelOffset width height palette
       = Panic (SliceBoundsOutOfRange pixelOffset (len data) (len data))) \/
  (pixelOffset < 0 /\
     decodePlane img data bitCount pixelOffset width height palette
       = Panic (SliceBoundsOutOfRange pixelOffset (len data) (len data))).
Proof.
  intros Hs.
  destruct (Z.lt_ge_cases pixelOffset 0) as [Hneg|Hpos];
    [right; right|destruct (Z.lt_ge_cases (len data) pixelOffset) as [Hgt|Hle];
       [right; left|left]]; (split; [lia|]).
  - unfold supportedDepth, decodePlane, sliceFrom in *.
    rewrite slice_panics by lia.
    repeat destruct (_ =? _); try reflexivity; discriminate.
  - unfold supportedDepth, decodePlane, sliceFrom in *.
    rewrite slice_panics by lia.
    repeat destruct (_ =? _); try reflexivity; discriminate.
  - unfold supportedDepth, decodePlane, sliceFrom in *.
    rewrite slice_ok by lia. cbn [mbind outcome_bind].
    set (d := take _ _).
    destruct (bitCount =? 1);
      [destruct (decodeICOBMP1_touched img d width height palette)
         as (img' & -> & Hb & _); eauto|].
    destruct (bitCount =? 4);
      [destruct (decodeICOBMP4_touched img d width height palette)
         as (img' & -> & Hb & _); eauto|].
    destruct (bitCount =? 8);
      [destruct (decodeICOBMP8_touched img d width height palette)
         as (img' & -> & Hb & _); eauto|].
    destruct (bitCount =? 24);
      [destruct (decodeICOBMP24_touched img d width height)
         as (img' & -> & Hb & _); eauto|].
    destruct (bitCount =? 32);
      [destruct (decodeICOBMP32_touched img d width height)
         as (img' & -> & Hb & _); eauto|].
    discriminate.
Qed.

Lemma readPalette_cases (data : list byte) (entry : icoEntry)
    (bitCount pixelOffset : Z) :
  0 <= pixelOffset -> 0 <= bitCount ->
  readPalette data entry bitCount pixelOffset =
    if bitCount <=? 8 then
      if len data <? pixelOffset + paletteEntries bitCount (ColorCount entry) * 4
      then Err ErrBMPTooShortForPalette
      else Ok (take (Z.to_nat (paletteEntries bitCount (ColorCount entry) * 4))
                 (drop (Z.to_nat pixelOffset) data),
               pixelOffset + paletteEntries bitCount (ColorCount entry) * 4)
    else Ok ([], pixelOffset).
Proof.
  intros Hp Hb. unfold readPalette. fold (paletteEntries bitCount (ColorCount entry)).
  destruct (bitCount <=? 8); [|reflexivity].
  destruct (Z.ltb_spec (len data)
    (pixelOffset + paletteEntries bitCount (ColorCount entry) * 4)); [reflexivity|].
  assert (0 <= paletteEntries bitCount (ColorCount entry)).
  { unfold paletteEntries.
    destruct (Z.ltb_spec 0 (ColorCount entry)); cbn [andb];
      [destruct (_ <? _); [lia|]|]; apply Z.shiftl_nonneg; lia. }
  rewrite slice_ok by lia. cbn [mbind outcome_bind].
  do 3 f_equal. lia.
Qed.

(** [decodeICOBMP] on a buffer that holds the 40 header bytes, with the
    header reads carried out. *)
Lemma decodeICOBMP_eq (data : list byte) (entry : icoEntry) :
  40 <= len data ->
  decodeICOBMP (ExtImage := ExtImage) data entry =
    if le32 data 0 <? 40 then Err (ErrBMPHeaderSize (le32 data 0))
    else if negb (le32 data 16 =? 0) then Err (ErrBMPCompressed (le32 data 16))
    else
      '(palette, pixelOffset) ← readPalette data entry (le16 data 14) (le32 data 0);
      img ← image.NewRGBA
              (image.Rect 0 0 (bmpWidth data entry) (bmpHeight data entry));
      img ← decodePlane img data (le16 data 14) pixelOffset
              (bmpWidth data entry) (bmpHeight data entry) palette;
      Ok (Bitmap img).
Proof.
  intros H. unfold decodeICOBMP.
  destruct (Z.ltb_spec (len data) 40); [lia|].
  rewrite (read32 data 0 4) by lia. cbn [mbind outcome_bind].
  destruct (le32 data 0 <? 40); [reflexivity|].
  rewrite (read32 data 4 8), (read32 data 8 12), (read16 data 14 16),
    (read32 data 16 20) by lia.
  cbn [mbind outcome_bind fmap outcome_fmap].
  reflexivity.
Qed.

Lemma decodeICOBMP_short (data : list byte) (entry : icoEntry) :
  len data < 40 ->
  decodeICOBMP (ExtImage := ExtImage) data entry = Err ErrBMPTooShortForHeader.
Proof.
  intros H. unfold decodeICOBMP.
  destruct (Z.ltb_spec (len data) 40); [reflexivity|lia].
Qed.

(** The errors [decodeICOBMP] returns. *)
Lemma decodeICOBMP_errors (data : list byte) (entry : icoEntry) (e : error) :
  decodeICOBMP (ExtImage := ExtImage) data entry = Err e ->
  e = ErrBMPTooShortForHeader \/ e = ErrBMPHeaderSize (le32 data 0) \/
  e = ErrBMPCompressed (le32 data 16) \/ e = ErrBMPTooShortForPalette \/
  e = ErrBMPBitDepth (le16 data 14).
Proof.
  destruct (Z.lt_ge_cases (len data) 40) as [Hs|Hl].
  { rewrite decodeICOBMP_short by assumption. intros [= <-]. auto. }
  rewrite decodeICOBMP_eq by assumption.
  destruct (le32 data 0 <? 40); [intros [= <-]; auto|].
  destruct (negb (le32 data 16 =? 0)); [intros [= <-]; auto|].
  rewrite readPalette_cases by (apply le32_nonneg || apply le16_nonneg).
  destruct (le16 data 14 <=? 8); [destruct (len data <? _);
    [intros [= <-]; auto 6|]|]; cbn [mbind outcome_bind];
    unfold image.NewRGBA; (destruct (image.maxAlloc <? _); [discriminate|]);
    cbn [mbind outcome_bind];
    (destruct (supportedDepth (le16 data 14)) eqn:Hd;
     [match goal with |- context [decodePlane ?i ?d ?b ?o ?w ?h ?p] =>
        destruct (decodePlane_supported i d b o w h p Hd)
          as [(_ & img' & -> & _)|[(_ & ->)|(_ & ->)]] end; discriminate
     |rewrite decodePlane_unsupported by assumption; intros [= <-]; auto 6]).
Qed.

(** The slice [data[pixelOffset:]] of the true-colour branches has no
    length test before it, unlike the palette branch: a header size beyond
    the entry's bytes panics. *)
Lemma decodeICOBMP_header_size_unchecked (data : list byte) (entry : icoEntry) :
  40 <= len data -> len data < le32 data 0 -> le32 data 16 = 0 ->
  le16 data 14 = 24 \/ le16 data 14 = 32 ->
  allocation data entry <= image.maxAlloc ->
  decodeICOBMP (ExtImage := ExtImage) data entry =
    Panic (SliceBoundsOutOfRange (le32 data 0) (len data) (len data)).
Proof.
  intros Hl Hh Hc Hd Ha. rewrite decodeICOBMP_eq by assumption.
  destruct (Z.ltb_spec (le32 data 0) 40); [lia|].
  rewrite Hc. cbn [Z.eqb negb].
  rewrite readPalette_cases by (apply le32_nonneg || apply le16_nonneg).
  destruct (Z.leb_spec (le16 data 14) 8); [lia|]. cbn [mbind outcome_bind].
  unfold image.NewRGBA. fold (allocation data entry).
  destruct (Z.ltb_spec image.maxAlloc (allocation data entry)); [lia|].
  cbn [mbind outcome_bind].
  match goal with |- context [decodePlane ?i ?d ?b ?o ?w ?h ?p] =>
    destruct (decodePlane_supported i d b o w h p)
      as [(? & _)|[(_ & ->)|(? & _)]] end; try lia; [|reflexivity].
  unfold supportedDepth. destruct Hd as [-> | ->]; reflexivity.
Qed.

(** C3, as the code has it.  A bitmap entry with a full header
    ([headerSize >= 40], no compression) and a bit depth outside
    {1, 4, 8, 24, 32} is never decoded.  The palette test comes first: at
    a depth of 8 or less a buffer shorter than header plus palette fails
    with the palette error.  Otherwise the image is allocated, which
    panics on dimensions too large to allocate, and only then is the depth
    refused with the bit-depth error. *)
Theorem unsupported_depth_outcome (data : list byte) (entry : icoEntry) :
  40 <= len data -> 40 <= le32 data 0 -> le32 data 16 = 0 ->
  supportedDepth (le16 data 14) = false ->
  (forall im, decodeICOBMP (ExtImage := ExtImage) data entry <> Ok im) /\
  decodeICOBMP (ExtImage := ExtImage) data entry =
    if (le16 data 14 <=? 8) &&
       (len data <? le32 data 0
                    + paletteEntries (le16 data 14) (ColorCount entry) * 4)
    then Err ErrBMPTooShortForPalette
    else if image.maxAlloc <? allocation data entry
    then Panic (AllocationTooLarge (allocation data entry))
    else Err (ErrBMPBitDepth (le16 data 14)).
Proof.
  intros Hl Hh Hc Hd.
  assert (E : decodeICOBMP (ExtImage := ExtImage) data entry =
    if (le16 data 14 <=? 8) &&
       (len data <? le32 data 0
                    + paletteEntries (le16 data 14) (ColorCount entry) * 4)
    then Err ErrBMPTooShortForPalette
    else if image.maxAlloc <? allocation data entry
    then Panic (AllocationTooLarge (allocation data entry))
    else Err (ErrBMPBitDepth (le16 data 14))).
  { rewrite decodeICOBMP_eq by assumption.
    destruct (Z.ltb_spec (le32 data 0) 40); [lia|].
    rewrite Hc. cbn [Z.eqb negb].
    rewrite readPalette_cases by (apply le32_nonneg || apply le16_nonneg).
    destruct (le16 data 14 <=? 8); cbn [andb];
      [destruct (len data <? _); [reflexivity|]|];
      cbn [mbind outcome_bind]; unfold image.NewRGBA;
      fold (allocation data entry);
      (destruct (image.maxAlloc <? allocation data entry); [reflexivity|]);
      cbn [mbind outcome_bind];
      rewrite decodePlane_unsupported by assumption; reflexivity. }
  split; [|exact E].
  intros im. rewrite E.
  destruct (_ && _); [discriminate|].
  destruct (_ <? _); discriminate.
Qed.

End BitmapFacts.

(** ** The container parser *)

Section ContainerFacts.

Context {ExtImage : Type}.
Variable image_Decode : list byte -> option ExtImage.

Lemma le16_window (data : list byte) (lo n j : Z) :
  0 <= lo -> 0 <= j -> j + 2 <= n ->
  le16 (take (Z.to_nat n) (drop (Z.to_nat lo) data)) j = le16 data (lo + j).
Proof.
  intros. unfold le16. rewrite !byteAt_window by lia.
  rewrite Z.add_assoc. reflexivity.
Qed.

Lemma le32_window (data : list byte) (lo n j : Z) :
  0 <= lo -> 0 <= j -> j + 4 <= n ->
  le32 (take (Z.to_nat n) (drop (Z.to_nat lo) data)) j = le32 data (lo + j).
Proof.
  intros. unfold le32. rewrite !byteAt_window by lia.
  rewrite !Z.add_assoc. reflexivity.
Qed.

Lemma parse_entry (data : list byte) (i : Z) :
  0 <= i -> 6 + i * 16 + 16 <= len data ->
  slice data (6 + i * 16) (6 + i * 16 + 16) ≫= parseICOEntry
    = Ok (entryAt data i).
Proof.
  intros Hi Hl. rewrite slice_ok by lia. cbn [mbind outcome_bind].
  replace (6 + i * 16 + 16 - (6 + i * 16)) with 16 by lia.
  assert (Hw : len (take (Z.to_nat 16) (drop (Z.to_nat (6 + i * 16)) data)) = 16)
    by (apply len_window; lia).
  unfold parseICOEntry.
  rewrite !index_ok by lia. cbn [mbind outcome_bind].
  rewrite (read16 _ 4 6), (read16 _ 6 8), (read32 _ 8 12), (read32 _ 12 16) by lia.
  cbn [mbind outcome_bind].
  rewrite !le16_window, !le32_window, !byteAt_window by lia.
  unfold entryAt. rewrite Z.add_0_r. reflexivity.
Qed.

Lemma scanEntry_eq (data : list byte) (i : Z) (b : best) :
  0 <= i -> 6 + i * 16 + 16 <= len data ->
  scanEntry data i b = Ok (Next (pick data (entryAt data i) b)).
Proof.
  intros Hi Hl. unfold scanEntry. rewrite parse_entry by assumption.
  cbn [mbind outcome_bind]. unfold pick, survives.
  destruct ((Offset (entryAt data i) =? 0) || (Size (entryAt data i) =? 0));
    cbn [negb andb]; [reflexivity|].
  destruct (Z.ltb_spec (len data) (Offset (entryAt data i) + Size (entryAt data i)));
    destruct (Z.leb_spec (Offset (entryAt data i) + Size (entryAt data i)) (len data));
    try lia; [reflexivity|].
  destruct (_ || _); reflexivity.
Qed.

Lemma scanned_pick (data : list byte) (k : Z) (b : best) :
  0 <= k -> scanned data k b ->
  (if bestEntry b is Some e then bestResolution b = resolution e else True) ->
  scanned data (k + 1) (pick data (entryAt data k) b) /\
  (if bestEntry (pick data (entryAt data k) b) is Some e
   then bestResolution (pick data (entryAt data k) b) = resolution e else True).
Proof.
  intros Hk Hs Hr. unfold pick.
  destruct (survives data (entryAt data k)) eqn:Hsv.
  - destruct (bestEntry b) as [e|] eqn:Hb; cbn [orb].
    + destruct (bestResolution b <? resolution (entryAt data k)) eqn:Hs'.
      * split; [|reflexivity]. unfold scanned in *. cbn. rewrite Hb in Hs.
        destruct Hs as (m & -> & Hm & Hsm & Hmax & Hfirst).
        apply Z.ltb_lt in Hs'. rewrite Hr in Hs'.
        exists k. split; [reflexivity|]. repeat split; try lia; try assumption.
        -- intros j Hj Hsj. destruct (Z.eq_dec j k) as [->|]; [lia|].
           specialize (Hmax j ltac:(lia) Hsj). lia.
        -- intros j Hj Hsj. specialize (Hmax j ltac:(lia) Hsj). lia.
      * split; [|rewrite Hb; exact Hr]. unfold scanned in *. rewrite Hb in *.
        destruct Hs as (m & -> & Hm & Hsm & Hmax & Hfirst).
        apply Z.ltb_ge in Hs'. rewrite Hr in Hs'.
        exists m. split; [reflexivity|]. repeat split; try lia; try assumption.
        intros j Hj Hsj. destruct (Z.eq_dec j k) as [->|]; [lia|].
        apply Hmax; [lia|assumption].
    + split; [|reflexivity]. unfold scanned in *. cbn. rewrite Hb in Hs.
      exists k. split; [reflexivity|]. repeat split; try lia; try assumption.
      * intros j Hj Hsj. destruct (Z.eq_dec j k) as [->|]; [lia|].
        rewrite Hs in Hsj by lia. discriminate.
      * intros j Hj Hsj. rewrite Hs in Hsj by lia. discriminate.
  - split; [|exact Hr]. unfold scanned in *.
    destruct (bestEntry b) as [e|].
    + destruct Hs as (m & -> & Hm & Hsm & Hmax & Hfirst).
      exists m. split; [reflexivity|]. repeat split; try lia; try assumption.
      intros j Hj Hsj. destruct (Z.eq_dec j k) as [->|]; [congruence|].
      apply Hmax; [lia|assumption].
    + intros j Hj. destruct (Z.eq_dec j k) as [->|]; [assumption|].
      apply Hs. lia.
Qed.

(** The directory loop runs through all its slots and leaves the first
    largest survivor, or nothing when no slot survives. *)
Lemma scan_loop (data : list byte) (count : Z) :
  0 <= count -> 6 + count * 16 <= len data ->
  exists b, forRange count (scanEntry data) (mkBest None 0) = Ok b /\
    scanned data count b.
Proof.
  intros Hc Hl. unfold forRange.
  destruct (forLoop_total
    (fun k b => scanned data k b /\
       (if bestEntry b is Some e then bestResolution b = resolution e else True))
    (scanEntry data) (Z.to_nat count) 0 (mkBest None 0)) as (b & Hrun & Hb & _).
  - split; [|exact I]. unfold scanned. cbn. intros; lia.
  - intros j t Hj [Hs Hr]. exists (pick data (entryAt data j) t).
    split; [apply scanEntry_eq; lia|].
    apply scanned_pick; [lia|assumption|assumption].
  - exists b. split; [assumption|].
    replace (0 + Z.of_nat (Z.to_nat count)) with count in Hb by lia.
    assumption.
Qed.

(** [decodeICO] on a buffer that holds the six header bytes, with the
    header reads carried out. *)
Lemma decodeICO_eq (data : list byte) :
  6 <= len data ->
  decodeICO image_Decode data =
    if negb (le16 data 0 =? 0) then Err (ErrICOReserved (le16 data 0))
    else if negb (le16 data 2 =? 1) then Err (ErrICOType (le16 data 2))
    else if le16 data 4 =? 0 then Err ErrICONoImages
    else if len data <? 6 + le16 data 4 * 16 then Err ErrICOTooShortForDirectory
    else
      b ← forRange (le16 data 4) (scanEntry data) (mkBest None 0);
      match bestEntry b with
      | None => Err ErrICONoValidEntries
      | Some entry => extractAndDecode image_Decode data entry
      end.
Proof.
  intros H. unfold decodeICO.
  destruct (Z.ltb_spec (len data) 6); [lia|].
  rewrite (read16 data 0 2), (read16 data 2 4), (read16 data 4 6) by lia.
  reflexivity.
Qed.

(** Below 4 GiB the [uint32] sum does not wrap, and the bytes cut out are
    the entry's. *)
Lemma extractAndDecode_entry_bytes (data : list byte) (e : icoEntry) :
  survives data e = true -> 0 <= Offset e -> 0 <= Size e -> len data < 2 ^ 32 ->
  extractAndDecode image_Decode data e =
    decodeICOImage image_Decode
      (take (Z.to_nat (Size e)) (drop (Z.to_nat (Offset e)) data)) e.
Proof.
  unfold survives, extractAndDecode, uint32. intros Hs Ho Hz Hl.
  apply andb_prop in Hs. destruct Hs as [_ Hs]. apply Z.leb_le in Hs.
  rewrite Z.mod_small by lia.
  rewrite slice_ok by lia. cbn [mbind outcome_bind].
  replace (Offset e + Size e - Offset e) with (Size e) by lia. reflexivity.
Qed.

(** From 4 GiB on it can wrap: the entry passes the [int] bounds test of
    the loop and the slice expression panics. *)
Lemma extractAndDecode_wraps (data : list byte) (e : icoEntry) :
  0 <= Offset e < 2 ^ 32 -> 0 <= Size e < 2 ^ 32 ->
  2 ^ 32 <= Offset e + Size e ->
  exists p, extractAndDecode image_Decode data e = Panic p.
Proof.
  unfold extractAndDecode, uint32. intros Ho Hz Hw.
  replace ((Offset e + Size e) mod 2 ^ 32) with (Offset e + Size e - 2 ^ 32).
  - rewrite slice_panics by lia. eexists. reflexivity.
  - apply Z.mod_unique with (q := 1); lia.
Qed.

Lemma decodeICOImage_not_malformed (data : list byte) (entry : icoEntry) (e : error) :
  decodeICOImage image_Decode data entry = Err e ->
  errorKind e <> Some MalformedHeader.
Proof.
  unfold decodeICOImage.
  destruct (len data <? 4); [intros [= <-]; discriminate|].
  destruct (HasPrefix data magicPNG).
  - destruct (image_Decode data); [discriminate|intros [= <-]; discriminate].
  - intros H. apply decodeICOBMP_errors in H.
    destruct H as [-> | [-> | [-> | [-> | ->]]]]; discriminate.
Qed.

Lemma extractAndDecode_not_malformed (data : list byte) (entry : icoEntry) (e : error) :
  extractAndDecode image_Decode data entry = Err e ->
  errorKind e <> Some MalformedHeader.
Proof.
  unfold extractAndDecode, slice.
  destruct (_ && _); cbn [mbind outcome_bind]; [|discriminate].
  apply decodeICOImage_not_malformed.
Qed.

(** C6.  [decodeICO] fails with a malformed-header error exactly when the
    buffer is shorter than 6 bytes, or the reserved field is not 0, or the
    type field is not 1 (a CUR file has 2), or the count is 0; and such a
    failure returns no image. *)
Theorem malformed_header_iff (data : list byte) :
  (failsWith (decodeICO image_Decode data) MalformedHeader <->
     len data < 6 \/ le16 data 0 <> 0 \/ le16 data 2 <> 1 \/ le16 data 4 = 0) /\
  (failsWith (decodeICO image_Decode data) MalformedHeader ->
     forall im, decodeICO image_Decode data <> Ok im).
Proof.
  split; [|intros (e & -> & _) im; discriminate].
  destruct (Z.lt_ge_cases (len data) 6) as [Hs|Hl].
  { split; [auto|]. intros _. exists ErrICOTooShortForHeader.
    unfold decodeICO. destruct (Z.ltb_spec (len data) 6); [auto|lia]. }
  rewrite decodeICO_eq by assumption.
  destruct (Z.eqb_spec (le16 data 0) 0) as [Hr|Hr]; cbn [negb];
    [|split; [auto|]; intros _; eexists; split; reflexivity].
  destruct (Z.eqb_spec (le16 data 2) 1) as [Ht|Ht]; cbn [negb];
    [|split; [auto|]; intros _; eexists; split; reflexivity].
  destruct (Z.eqb_spec (le16 data 4) 0) as [Hc|Hc];
    [split; [auto|]; intros _; eexists; split; reflexivity|].
  split; [|intros [?|[?|[?|?]]]; lia || contradiction].
  intros (e & He & Hk). exfalso.
  destruct (Z.ltb_spec (len data) (6 + le16 data 4 * 16)) as [Hd|Hd].
  { injection He as <-. discriminate. }
  pose proof (le16_nonneg data 4) as Hn.
  destruct (scan_loop data (le16 data 4) Hn Hd) as (b & Hrun & _).
  rewrite Hrun in He. cbn [mbind outcome_bind] in He.
  destruct (bestEntry b) as [entry|].
  - apply extractAndDecode_not_malformed in He. contradiction.
  - injection He as <-. discriminate.
Qed.

(** C2.  On a buffer with a valid header and directory, [decodeICO] fails
    with the no-valid-entries error when no slot survives the skip checks;
    otherwise it cuts out and decodes the surviving entry of largest
    resolution, the earliest such slot where several tie.  In a buffer
    below 4 GiB the bytes decoded are the entry's
    [Offset .. Offset + Size). *)
Theorem decodeICO_selects_first_largest (data : list byte) :
  validICOHeader data ->
  ((forall i, 0 <= i < le16 data 4 -> survives data (entryAt data i) = false) ->
     decodeICO image_Decode data = Err ErrICONoValidEntries) /\
  ((exists i, 0 <= i < le16 data 4 /\ survives data (entryAt data i) = true) ->
     exists m, firstLargest data (le16 data 4) m /\
       decodeICO image_Decode data
         = extractAndDecode image_Decode data (entryAt data m) /\
       (len data < 2 ^ 32 ->
          extractAndDecode image_Decode data (entryAt data m)
            = decodeICOImage image_Decode
                (take (Z.to_nat (Size (entryAt data m)))
                   (drop (Z.to_nat (Offset (entryAt data m))) data))
                (entryAt data m))).
Proof.
  intros (Hl & Hr & Ht & Hc & Hd).
  pose proof (le16_nonneg data 4) as Hn.
  destruct (scan_loop data (le16 data 4) Hn Hd) as (b & Hrun & Hb).
  assert (E : decodeICO image_Decode data =
    match bestEntry b with
    | None => Err ErrICONoValidEntries
    | Some entry => extractAndDecode image_Decode data entry
    end).
  { rewrite decodeICO_eq by assumption. rewrite Hr, Ht. cbn [Z.eqb negb].
    destruct (Z.eqb_spec (le16 data 4) 0); [contradiction|].
    destruct (Z.ltb_spec (len data) (6 + le16 data 4 * 16)); [lia|].
    rewrite Hrun. reflexivity. }
  unfold scanned in Hb. destruct (bestEntry b) as [e|].
  - destruct Hb as (m & -> & Hm).
    split.
    + intros Hnone. destruct Hm as (Hm & Hs & _).
      rewrite Hnone in Hs by assumption. discriminate.
    + intros _. exists m. split; [assumption|]. split; [assumption|].
      intros Hlen. destruct Hm as (_ & Hs & _).
      apply extractAndDecode_entry_bytes; try assumption;
        cbn; apply le32_nonneg.
  - split; [intros _; assumption|].
    intros (i & Hi & Hs). rewrite Hb in Hs by assumption. discriminate.
Qed.

(** C7.  A declared width or height byte of 0 stands for 256: in the
    resolution by which the directory loop ranks the entries ([pick] is the
    loop's update), and as the dimension the bitmap decoder falls back to
    when the header's own width or height is 0. *)
Theorem zero_means_256 (ico : list byte) (i : Z) (b : best)
    (data : list byte) (entry : icoEntry) (im : Image ExtImage) :
  (Width entry = 0 -> getActualWidth entry = 256) /\
  (Height entry = 0 -> getActualHeight entry = 256) /\
  (Width entry <> 0 -> getActualWidth entry = Width entry) /\
  (Height entry <> 0 -> getActualHeight entry = Height entry) /\
  resolution entry = getActualWidth entry * getActualHeight entry /\
  (0 <= i -> 6 + i * 16 + 16 <= len ico ->
     scanEntry ico i b = Ok (Next (pick ico (entryAt ico i) b))) /\
  (decodeICOBMP data entry = Ok im ->
     exists img, im = Bitmap img /\
       image.Bounds img
         = image.Rect 0 0 (bmpWidth data entry) (bmpHeight data entry) /\
       (le32 data 4 = 0 -> bmpWidth data entry = getActualWidth entry) /\
       (le32 data 8 = 0 -> bmpHeight data entry = getActualHeight entry)).
Proof.
  unfold getActualWidth, getActualHeight.
  split; [intros ->; reflexivity|].
  split; [intros ->; reflexivity|].
  split; [intros H; destruct (Z.eqb_spec (Width entry) 0); [lia|reflexivity]|].
  split; [intros H; destruct (Z.eqb_spec (Height entry) 0); [lia|reflexivity]|].
  split; [reflexivity|].
  split; [apply scanEntry_eq|].
  destruct (Z.lt_ge_cases (len data) 40) as [Hs|Hl].
  { rewrite decodeICOBMP_short by assumption. discriminate. }
  rewrite decodeICOBMP_eq by assumption.
  destruct (le32 data 0 <? 40); [discriminate|].
  destruct (negb (le32 data 16 =? 0)); [discriminate|].
  destruct (readPalette _ _ _ _) as [[palette pixelOffset]| |];
    cbn [mbind outcome_bind]; try discriminate.
  unfold image.NewRGBA. destruct (image.maxAlloc <? _); [discriminate|].
  cbn [mbind outcome_bind].
  destruct (supportedDepth (le16 data 14)) eqn:Hd;
    [|rewrite decodePlane_unsupported by assumption; discriminate].
  match goal with |- context [decodePlane ?i ?d ?b ?o ?w ?h ?p] =>
    destruct (decodePlane_supported i d b o w h p Hd)
      as [(_ & img' & -> & Hb)|[(_ & ->)|(_ & ->)]] end; try discriminate.
  cbn [mbind outcome_bind]. intros [= <-].
  exists img'. split; [reflexivity|]. split; [exact Hb|].
  unfold bmpWidth, bmpHeight, getActualWidth, getActualHeight.
  split; intros ->; reflexivity.
Qed.

(** C1, at an input for which it fails.  The one-entry icon
    [icoHeaderSizeBeyondEntry] passes every check of [decodeICO],
    [decodeICOImage] and [decodeICOBMP]; the slice [data[pixelOffset:]] of
    the 32-bit branch then runs with [pixelOffset = 41] on 40 bytes, and
    the decoder panics instead of returning an error. *)
Theorem decodeICO_panics_on_header_size :
  decodeICO image_Decode icoHeaderSizeBeyondEntry
    = Panic (SliceBoundsOutOfRange 41 40 40).
Proof. vm_compute. reflexivity. Qed.

End ContainerFacts.

(** ** Asset path resolution *)

Section ResolverFacts.

Variable Join : string -> string -> string.

Lemma substring_all (s : string) : String.substring 0 (String.length s) s = s.
Proof. induction s as [|c s IH]; cbn; [reflexivity|]. rewrite IH. reflexivity. Qed.

Lemma TrimPrefix_scheme (p : string) :
  TrimPrefix (String.append "file://" p) "file://" = p.
Proof.
  unfold TrimPrefix.
  change (String.prefix "file://" (String.append "file://" p))
    with (String.prefix "" p).
  replace (String.prefix "" p) with true by (destruct p; reflexivity).
  unfold String.append. cbn [String.length Nat.sub String.substring].
  rewrite Nat.sub_0_r. apply substring_all.
Qed.

(** C8.  A reference [file://p] with [p] relative and a non-empty base
    resolves to the platform join of the base and [p], to which [p] is
    handed as it stands, [./] and [../] included; with [p] absolute it
    resolves to [p] itself whatever the base, the empty one included. *)
Theorem resolveFilePath_relative_and_absolute (p b : string) :
  (String.prefix "/" p = false -> b <> ""%string ->
     resolveFilePath Join (String.append "file://" p) b = inl (Join b p)) /\
  (String.prefix "/" p = true ->
     resolveFilePath Join (String.append "file://" p) b = inl p).
Proof.
  unfold resolveFilePath. rewrite TrimPrefix_scheme. split.
  - intros -> Hb. apply String.eqb_neq in Hb. rewrite Hb. reflexivity.
  - intros ->. reflexivity.
Qed.

(** C9.  A reference [file://p] with [p] relative and not empty, resolved
    against the empty base, fails with the base-path-required error,
    whose message says that a relative path requires a base path. *)
Theorem resolveFilePath_requires_base (p : string) :
  p <> ""%string -> String.prefix "/" p = false ->
  resolveFilePath Join (String.append "file://" p) "" = inr BasePathRequired /\
  Contains (resolveErrorMessage BasePathRequired)
    "relative path requires base path" = true.
Proof.
  intros _ Hrel. unfold resolveFilePath. rewrite TrimPrefix_scheme, Hrel.
  split; reflexivity.
Qed.

End ResolverFacts.

(** ** Concrete runs *)

Ltac evaluated := vm_compute; repeat split; (reflexivity || discriminate).

(** Slot 1 (2 by 1) and slot 2 (1 by 2) tie at resolution 2 and beat slot 0;
    the image decoded is slot 1's, 2 wide and 1 high, blank because the
    bitmap holds no rows. *)
Example decodeICO_three_entries :
  decodeICO rejectAll icoThreeEntries
    = Ok (Bitmap (blank (image.Rect 0 0 2 1))).
Proof. vm_compute. reflexivity. Qed.

Lemma decodeICO_selects_first_largest_witness :
  validICOHeader icoThreeEntries /\
  exists m, firstLargest icoThreeEntries (le16 icoThreeEntries 4) m /\
    decodeICO rejectAll icoThreeEntries
      = extractAndDecode rejectAll icoThreeEntries (entryAt icoThreeEntries m).
Proof.
  assert (Hv : validICOHeader icoThreeEntries) by evaluated.
  split; [exact Hv|].
  destruct (proj2 (decodeICO_selects_first_largest rejectAll icoThreeEntries Hv))
    as (m & Hm & E & _).
  - exists 0. evaluated.
  - exists m. split; assumption.
Defined.

(** A 1 by 1 entry whose 32-bit header declares 2147483647 by 1073741823
    pixels: the image is allocated from the header's dimensions before any
    pixel is read, and the allocation panics. *)
Example decodeICOBMP_huge_dimensions :
  decodeICOBMP (ExtImage := unit)
    (bytesOf [40; 0; 0; 0; 255; 255; 255; 127; 254; 255; 255; 127; 1; 0; 32; 0;
              0; 0; 0; 0; 0; 0; 0; 0; 0; 0; 0; 0; 0; 0; 0; 0; 0; 0; 0; 0;
              0; 0; 0; 0])
    (entryOfSize 1 1)
    = Panic (AllocationTooLarge (4 * 2147483647 * 1073741823)).
Proof. vm_compute. reflexivity. Qed.

(** At depth 2 the palette test answers before the depth is looked at. *)
Lemma unsupported_depth_counterexample :
  40 <= len (dibOfDepth 2) /\ 40 <= le32 (dibOfDepth 2) 0 /\
  le32 (dibOfDepth 2) 16 = 0 /\ HasPrefix (dibOfDepth 2) magicPNG = false /\
  supportedDepth (le16 (dibOfDepth 2) 14) = false /\
  decodeICOBMP (ExtImage := unit) (dibOfDepth 2) (entryOfSize 1 1)
    = Err ErrBMPTooShortForPalette /\
  ~ failsWith (decodeICOBMP (ExtImage := unit) (dibOfDepth 2) (entryOfSize 1 1))
      UnsupportedBitDepth.
Proof.
  assert (E : decodeICOBMP (ExtImage := unit) (dibOfDepth 2) (entryOfSize 1 1)
              = Err ErrBMPTooShortForPalette) by (vm_compute; reflexivity).
  repeat split; try evaluated; try exact E.
  intros (e & He & Hk). rewrite E in He. injection He as <-. discriminate.
Qed.

Lemma unsupported_depth_outcome_witness :
  decodeICOBMP (ExtImage := unit) (dibOfDepth 16) (entryOfSize 1 1)
    = Err (ErrBMPBitDepth 16) /\
  decodeICOBMP (ExtImage := unit) (dibOfDepth 2) (entryOfSize 1 1)
    = Err ErrBMPTooShortForPalette.
Proof.
  split.
  - rewrite (proj2 (unsupported_depth_outcome (ExtImage := unit)
      (dibOfDepth 16) (entryOfSize 1 1)
      ltac:(evaluated) ltac:(evaluated) ltac:(evaluated) ltac:(evaluated))).
    vm_compute. reflexivity.
  - rewrite (proj2 (unsupported_depth_outcome (ExtImage := unit)
      (dibOfDepth 2) (entryOfSize 1 1)
      ltac:(evaluated) ltac:(evaluated) ltac:(evaluated) ltac:(evaluated))).
    vm_compute. reflexivity.
Defined.

(** A buffer that holds the first stored row of two: output row 0 is the
    second stored row, it does not fit, and the decoder stops there; output
    row 1, whose bytes are present, stays zero as well. *)
Lemma row_decoders_tolerate_truncation_witness :
  exists img',
    decodeICOBMP32 (blank (image.Rect 0 0 1 2)) (bytesOf [1; 2; 3; 4]) 1 2 = Ok img' /\
    image.RGBAAt img' 0 0 = color.zero /\ image.RGBAAt img' 0 1 = color.zero.
Proof.
  destruct (row_decoders_tolerate_truncation (blank (image.Rect 0 0 1 2))
              (bytesOf [1; 2; 3; 4]) 1 2 [])
    as (_ & _ & _ & _ & img' & Hrun & Hkept).
  exists img'. split; [exact Hrun|].
  assert (Ht : rowTruncated 32 (bytesOf [1; 2; 3; 4]) 1 2 0) by evaluated.
  split.
  - apply (Hkept 0 ltac:(lia) Ht 0 0 ltac:(lia)). reflexivity.
  - apply (Hkept 0 ltac:(lia) Ht 0 1 ltac:(lia)). reflexivity.
Defined.

(** Two pixels at 1 bit with a palette of one entry: pixel 1 has index 1,
    which the palette does not hold, and stays zero. *)
Lemma palette_index_beyond_palette_skipped_witness :
  exists img',
    decodeICOBMP1 (blank (image.Rect 0 0 2 1)) planeTwoPixels 2 1 paletteOneEntry
      = Ok img' /\
    image.RGBAAt img' 1 0 = color.zero.
Proof.
  destruct (palette_index_beyond_palette_skipped (blank (image.Rect 0 0 2 1))
              planeTwoPixels 2 1 paletteOneEntry)
    as ((img' & Hrun & Hkept) & _).
  exists img'. split; [exact Hrun|].
  apply (Hkept 1 0 (byteOf 64)); [lia|lia|reflexivity|evaluated|reflexivity].
Defined.

(** With both rows in the buffer the rows come out top-down: the row stored
    last is output row 0. *)
Example decodeICOBMP32_two_rows :
  decodeICOBMP32 (blank (image.Rect 0 0 1 2)) (bytesOf [1; 2; 3; 4; 5; 6; 7; 8]) 1 2
    = Ok (image.SetRGBA
            (image.SetRGBA (blank (image.Rect 0 0 1 2)) 0 0
               (color.mkRGBA (byteOf 7) (byteOf 6) (byteOf 5) (byteOf 8)))
            0 1 (color.mkRGBA (byteOf 3) (byteOf 2) (byteOf 1) (byteOf 4))).
Proof. vm_compute. reflexivity. Qed.

Example decodeICOBMP1_two_pixels :
  decodeICOBMP1 (blank (image.Rect 0 0 2 1)) planeTwoPixels 2 1 paletteOneEntry
    = Ok (image.SetRGBA (blank (image.Rect 0 0 2 1)) 0 0
            (color.mkRGBA (byteOf 30) (byteOf 20) (byteOf 10) xff)).
Proof. vm_compute. reflexivity. Qed.

Lemma malformed_header_iff_witness :
  failsWith (decodeICO rejectAll (bytesOf [0; 0; 2; 0; 1; 0])) MalformedHeader.
Proof.
  apply (proj1 (malformed_header_iff rejectAll (bytesOf [0; 0; 2; 0; 1; 0]))).
  right. right. left. evaluated.
Defined.

(** An entry of declared size 0 by 0 over a header of width and height 0
    decodes to 256 by 256. *)
Lemma zero_means_256_witness :
  resolution (entryOfSize 0 0) = 65536 /\
  exists img,
    decodeICOBMP (ExtImage := unit) dibZeroDims (entryOfSize 0 0) = Ok (Bitmap img) /\
    image.Bounds img = image.Rect 0 0 256 256.
Proof.
  split; [reflexivity|].
  assert (E : decodeICOBMP (ExtImage := unit) dibZeroDims (entryOfSize 0 0)
              = Ok (Bitmap (blank (image.Rect 0 0 256 256))))
    by (vm_compute; reflexivity).
  destruct (zero_means_256 (ExtImage := unit) icoThreeEntries 0 (mkBest None 0)
              dibZeroDims (entryOfSize 0 0)
              (Bitmap (blank (image.Rect 0 0 256 256))))
    as (Hw & Hh & _ & _ & _ & _ & Hdec).
  destruct (Hdec E) as (img & Himg & Hb & Hbw & Hbh).
  exists img. split; [rewrite E, Himg; reflexivity|].
  rewrite Hb, Hbw, Hbh by reflexivity.
  rewrite Hw, Hh by reflexivity. reflexivity.
Defined.

Lemma resolveFilePath_relative_and_absolute_witness :
  resolveFilePath sepJoin "file://./icons/app.png" "/home/user/project"
    = inl "/home/user/project/./icons/app.png"%string /\
  resolveFilePath sepJoin "file:///absolute/path/icon.png" ""
    = inl "/absolute/path/icon.png"%string.
Proof.
  split.
  - apply (proj1 (resolveFilePath_relative_and_absolute sepJoin
                    "./icons/app.png" "/home/user/project"));
      [reflexivity|discriminate].
  - apply (proj2 (resolveFilePath_relative_and_absolute sepJoin
                    "/absolute/path/icon.png" "")).
    reflexivity.
Defined.

Lemma resolveFilePath_requires_base_witness :
  resolveFilePath sepJoin "file://icon.png" "" = inr BasePathRequired.
Proof.
  apply (proj1 (resolveFilePath_requires_base sepJoin "icon.png"
                  ltac:(discriminate) ltac:(reflexivity))).
Defined.

(** * Further properties of the code *)

(** ** Little-endian fields as sums *)

Lemma lor_shiftl_add (a b n : Z) :
  0 <= n -> 0 <= a < 2 ^ n -> Z.lor a (Z.shiftl b n) = a + b * 2 ^ n.
Proof.
  intros Hn Ha. rewrite Z.shiftl_mul_pow2 by assumption.
  symmetry. apply Z.add_nocarry_lor.
  apply Z.bits_inj'. intros m Hm.
  rewrite Z.land_spec, Z.bits_0.
  destruct (Z.lt_ge_cases m n) as [Hlt|Hge].
  - rewrite Z.mul_pow2_bits_low by assumption. apply andb_false_r.
  - destruct (Z.eq_dec a 0) as [->|Hne]; [rewrite Z.bits_0; reflexivity|].
    rewrite (Z.bits_above_log2 a m); [reflexivity|lia|].
    apply Z.lt_le_trans with n; [|assumption].
    apply Z.log2_lt_pow2; lia.
Qed.

Lemma u8_range (b : byte) : 0 <= u8 b < 256.
Proof. unfold u8. pose proof (Byte.to_N_bounded b). lia. Qed.

Lemma u8_inj (a b : byte) : u8 a = u8 b -> a = b.
Proof.
  unfold u8. intros H. apply N2Z.inj in H.
  pose proof (Byte.of_to_N a) as Ha. rewrite H, Byte.of_to_N in Ha.
  congruence.
Qed.

Lemma le16_sum (data : list byte) (off : Z) :
  le16 data off = u8 (byteAt data off) + u8 (byteAt data (off + 1)) * 256.
Proof.
  unfold le16. pose proof (u8_range (byteAt data off)).
  rewrite lor_shiftl_add by lia. reflexivity.
Qed.

Lemma le32_sum (data : list byte) (off : Z) :
  le32 data off =
    u8 (byteAt data off) + u8 (byteAt data (off + 1)) * 256
    + u8 (byteAt data (off + 2)) * 65536 + u8 (byteAt data (off + 3)) * 16777216.
Proof.
  unfold le32.
  pose proof (u8_range (byteAt data off)).
  pose proof (u8_range (byteAt data (off + 1))).
  pose proof (u8_range (byteAt data (off + 2))).
  rewrite (lor_shiftl_add (u8 (byteAt data off))) by lia.
  rewrite (lor_shiftl_add _ _ 16) by lia.
  rewrite (lor_shiftl_add _ _ 24) by lia.
  reflexivity.
Qed.

Lemma le16_range (data : list byte) (off : Z) : 0 <= le16 data off < 65536.
Proof.
  rewrite le16_sum.
  pose proof (u8_range (byteAt data off)).
  pose proof (u8_range (byteAt data (off + 1))). lia.
Qed.

Lemma le32_range (data : list byte) (off : Z) : 0 <= le32 data off < 2 ^ 32.
Proof.
  rewrite le32_sum.
  pose proof (u8_range (byteAt data off)).
  pose proof (u8_range (byteAt data (off + 1))).
  pose proof (u8_range (byteAt data (off + 2))).
  pose proof (u8_range (byteAt data (off + 3))). lia.
Qed.

(** ** Format detection is exact *)

Lemma HasPrefix_true (s p : list byte) :
  HasPrefix s p = true <-> exists rest, s = p ++ rest.
Proof.
  revert s. induction p as [|b p IH]; intros s; cbn [HasPrefix].
  - split; [intros _; exists s; reflexivity|reflexivity].
  - destruct s as [|c s].
    + split; [discriminate|intros [rest H]; discriminate].
    + rewrite andb_true_iff, IH. split.
      * intros [Hb [rest ->]]. apply Byte.byte_dec_bl in Hb. subst.
        exists rest. reflexivity.
      * intros [rest [= -> ->]]. split; [apply Byte.byte_dec_lb; reflexivity|].
        exists rest. reflexivity.
Qed.

Lemma Equal_true (a b : list byte) : Equal a b = true <-> a = b.
Proof.
  revert b. induction a as [|x a IH]; intros [|y b]; cbn [Equal];
    try (split; [discriminate|intros [=]]; fail); [tauto|].
  rewrite andb_true_iff, IH. split.
  - intros [Hb ->]. apply Byte.byte_dec_bl in Hb. congruence.
  - intros [= -> ->]. split; [apply Byte.byte_dec_lb|]; reflexivity.
Qed.

Lemma webp_shape (data : list byte) :
  12 <= len data -> HasPrefix data magicRIFF = true ->
  Equal (take 4 (drop 8 data)) magicWEBP = true ->
  hasMagic FormatWebP data.
Proof.
  intros Hl Hr He. apply HasPrefix_true in Hr. destruct Hr as [r ->].
  apply Equal_true in He.
  destruct r as [|s0 [|s1 [|s2 [|s3 r]]]];
    try (unfold len in Hl; cbn in Hl; lia).
  exists [s0; s1; s2; s3], (drop 4 r). split; [reflexivity|].
  cbn in He. cbn [app]. do 8 f_equal.
  rewrite <- He. cbn. symmetry. apply take_drop.
Qed.

Lemma hasMagic_len (f : ImageFormat) (data : list byte) :
  hasMagic f data -> 2 <= len data.
Proof.
  destruct f; unfold hasMagic; try contradiction.
  - intros [r ->]. pose proof (len_ge_app magicPNG r).
    change (len magicPNG) with 8 in *. lia.
  - intros [r ->]. pose proof (len_ge_app magicJPEG r).
    change (len magicJPEG) with 3 in *. lia.
  - intros (s & r & _ & ->). pose proof (len_ge_app magicRIFF (s ++ magicWEBP ++ r)).
    change (len magicRIFF) with 4 in *. lia.
  - intros [r ->]. pose proof (len_ge_app magicBMP r).
    change (len magicBMP) with 2 in *. lia.
  - intros [r ->]. pose proof (len_ge_app magicICO r).
    change (len magicICO) with 4 in *. lia.
Qed.

(** X1.  The format returned is the format whose magic bytes the buffer starts
    with, and [FormatUnknown] is returned only when it starts with none. *)
Theorem detectFormat_exact (data : list byte) :
  (detectFormat data <> FormatUnknown -> hasMagic (detectFormat data) data) /\
  (detectFormat data = FormatUnknown -> forall f, ~ hasMagic f data).
Proof.
  unfold detectFormat.
  destruct (Z.ltb_spec (len data) 2) as [Hs|Hl].
  { split; [intros H; contradiction|]. intros _ f Hf.
    apply hasMagic_len in Hf. lia. }
  destruct ((8 <=? len data) && HasPrefix data magicPNG) eqn:Epng.
  { split; [|discriminate]. intros _. apply andb_prop in Epng.
    apply HasPrefix_true, Epng. }
  destruct ((3 <=? len data) && HasPrefix data magicJPEG) eqn:Ejpg.
  { split; [|discriminate]. intros _. apply andb_prop in Ejpg.
    apply HasPrefix_true, Ejpg. }
  destruct ((12 <=? len data) && HasPrefix data magicRIFF
            && Equal (take 4 (drop 8 data)) magicWEBP) eqn:Ewebp.
  { split; [|discriminate]. intros _.
    apply andb_prop in Ewebp. destruct Ewebp as [Ew He].
    apply andb_prop in Ew. destruct Ew as [Hl' Hr]. apply Z.leb_le in Hl'.
    apply webp_shape; assumption. }
  destruct ((4 <=? len data) && HasPrefix data magicICO) eqn:Eico.
  { split; [|discriminate]. intros _. apply andb_prop in Eico.
    apply HasPrefix_true, Eico. }
  destruct (HasPrefix data magicBMP) eqn:Ebmp.
  { split; [|discriminate]. intros _. apply HasPrefix_true, Ebmp. }
  split; [intros H; contradiction|]. intros _ f Hf.
  destruct f; unfold hasMagic in Hf; try contradiction.
  - destruct Hf as [r ->]. rewrite HasPrefix_app, andb_true_r in Epng.
    apply Z.leb_gt in Epng. pose proof (len_ge_app magicPNG r).
    change (len magicPNG) with 8 in *. lia.
  - destruct Hf as [r ->]. rewrite HasPrefix_app, andb_true_r in Ejpg.
    apply Z.leb_gt in Ejpg. pose proof (len_ge_app magicJPEG r).
    change (len magicJPEG) with 3 in *. lia.
  - destruct Hf as (s & r & Hs & ->).
    destruct s as [|s0 [|s1 [|s2 [|s3 [|]]]]]; try discriminate.
    rewrite HasPrefix_app, andb_true_r in Ewebp.
    change (take 4 (drop 8 (magicRIFF ++ [s0; s1; s2; s3] ++ magicWEBP ++ r)))
      with magicWEBP in Ewebp.
    cbn [Equal magicWEBP] in Ewebp.
    rewrite andb_true_r in Ewebp. apply Z.leb_gt in Ewebp.
    rewrite !len_app in Ewebp. pose proof (len_nonneg r).
    change (len magicRIFF) with 4 in *. change (len magicWEBP) with 4 in *.
    change (len [s0; s1; s2; s3]) with 4 in *. lia.
  - destruct Hf as [r ->]. rewrite HasPrefix_app in Ebmp. discriminate.
  - destruct Hf as [r ->]. rewrite HasPrefix_app, andb_true_r in Eico.
    apply Z.leb_gt in Eico. pose proof (len_ge_app magicICO r).
    change (len magicICO) with 4 in *. lia.
Qed.

(** ** What the plane decoders store *)

Lemma forLoop_stop {S : Type} (I : Z -> S -> Prop) (stop : Z -> Prop)
    (body : Z -> S -> outcome (step S)) (n : nat) :
  forall (i : Z) (s : S),
  I i s ->
  (forall j t, i <= j < i + Z.of_nat n -> I j t ->
     (stop j /\ body j t = Ok Break) \/
     exists t', body j t = Ok (Next t') /\ I (j + 1) t') ->
  exists t k, forLoop n i body s = Ok t /\ i <= k <= i + Z.of_nat n /\ I k t /\
    (k < i + Z.of_nat n -> stop k).
Proof.
  induction n as [|n IH]; intros i s Hi Hbody.
  - exists s, i. cbn. split; [reflexivity|]. split; [lia|]. split; [assumption|lia].
  - cbn [forLoop].
    destruct (Hbody i s ltac:(lia) Hi) as [[Hs E] | (t' & E & Hi')]; rewrite E;
      cbn [mbind outcome_bind].
    + exists s, i. split; [reflexivity|]. split; [lia|]. split; [assumption|auto].
    + destruct (IH (i + 1) t' Hi') as (t & k & Hrun & Hk & HI & Hstop).
      { intros j u Hj. apply Hbody. lia. }
      exists t, k. split; [assumption|]. split; [lia|]. split; [assumption|].
      intros Hlt. apply Hstop. lia.
Qed.

Lemma Bounds_paint (c : option color.RGBA) (t : image.RGBA) (x y : Z) :
  image.Bounds (paint c t x y) = image.Bounds t.
Proof.
  destruct c as [col|]; [|reflexivity]. cbn. unfold image.SetRGBA.
  destruct (image.In x y (image.Bounds t)); reflexivity.
Qed.

Lemma RGBAAt_paint_other (c : option color.RGBA) (t : image.RGBA) (x y x' y' : Z) :
  (x', y') <> (x, y) ->
  image.RGBAAt (paint c t x y) x' y' = image.RGBAAt t x' y'.
Proof.
  intros Hne. destruct c as [col|]; [|reflexivity]. cbn.
  unfold image.SetRGBA. destruct (image.In x y (image.Bounds t)); [|reflexivity].
  unfold image.RGBAAt. cbn. rewrite lookup_insert_ne by congruence. reflexivity.
Qed.

Lemma RGBAAt_paint_same (c : option color.RGBA) (t a : image.RGBA) (x y : Z) :
  image.Bounds t = image.Bounds a -> image.RGBAAt t x y = image.RGBAAt a x y ->
  image.RGBAAt (paint c t x y) x y = painted c a x y.
Proof.
  intros Hb Hp. destruct c as [col|]; [|exact Hp]. cbn.
  unfold image.SetRGBA. rewrite <- Hb.
  destruct (image.In x y (image.Bounds t)) eqn:Hin.
  - unfold image.RGBAAt. cbn. rewrite Hin, lookup_insert_eq. reflexivity.
  - unfold image.RGBAAt. rewrite Hin. reflexivity.
Qed.

Lemma decodedRegion_equiv (R R' : Z -> Z -> Prop) (c : Z -> Z -> option color.RGBA)
    (a b : image.RGBA) :
  (forall x y, R x y <-> R' x y) -> decodedRegion R c a b -> decodedRegion R' c a b.
Proof.
  intros HR [Hb H]. split; [assumption|]. intros x y.
  destruct (H x y) as [H1 H2]. split; intros HR'.
  - apply H1, HR, HR'.
  - apply H2. intros HRxy. apply HR', HR, HRxy.
Qed.

(** A column loop that paints pixel [(x, y)] with [c x] paints row [y]. *)
Lemma columns_decoded (c : Z -> option color.RGBA) (y width : Z)
    (body : Z -> image.RGBA -> outcome (step image.RGBA)) (a : image.RGBA) :
  (forall x t, 0 <= x < width -> body x t = Ok (Next (paint (c x) t x y))) ->
  exists s', forRange width body a = Ok s' /\
    decodedRegion (fun x' y' => y' = y /\ 0 <= x' < width) (fun x' _ => c x') a s'.
Proof.
  intros Hbody. unfold forRange.
  destruct (forLoop_total
    (fun j t => decodedRegion (fun x' y' => y' = y /\ 0 <= x' < j)
                  (fun x' _ => c x') a t)
    body (Z.to_nat width) 0 a) as (t & Hrun & Ht).
  - split; [reflexivity|]. intros x' y'. split; [lia|reflexivity].
  - intros j t Hj [Hb Ht]. exists (paint (c j) t j y).
    split; [apply Hbody; lia|].
    split; [rewrite Bounds_paint; exact Hb|].
    intros x' y'. destruct (Ht x' y') as [Hin Hout].
    destruct (decide ((x', y') = (j, y))) as [[= -> ->]|Hne].
    + split; [|lia]. intros _. apply RGBAAt_paint_same; [exact Hb|].
      apply (proj2 (Ht j y)). lia.
    + rewrite RGBAAt_paint_other by assumption. split.
      * intros [-> Hx]. apply Hin. split; [reflexivity|].
        assert (x' <> j) by congruence. lia.
      * intros Hn. apply Hout. lia.
  - exists t. split; [assumption|].
    eapply decodedRegion_equiv; [|exact Ht]. cbn. intros. lia.
Qed.

(** A row loop that breaks at the first row that does not fit, and paints
    the rows before it, paints exactly those rows. *)
Lemma rows_decoded (fits : Z -> Prop) (c : Z -> Z -> option color.RGBA)
    (width height : Z)
    (body : Z -> image.RGBA -> outcome (step image.RGBA)) (a : image.RGBA) :
  (forall y t, 0 <= y < height ->
     (~ fits y /\ body y t = Ok Break) \/
     (fits y /\ exists t', body y t = Ok (Next t') /\
        decodedRegion (fun x' y' => y' = y /\ 0 <= x' < width)
          (fun x' _ => c x' y) t t')) ->
  exists s' k, forRange height body a = Ok s' /\
    0 <= k <= Z.max 0 height /\
    (forall j, 0 <= j < k -> fits j) /\ (k < height -> ~ fits k) /\
    decodedRegion (fun x' y' => 0 <= y' < k /\ 0 <= x' < width) c a s'.
Proof.
  intros Hbody. unfold forRange.
  destruct (forLoop_stop
    (fun k t => (forall j, 0 <= j < k -> fits j) /\
       decodedRegion (fun x' y' => 0 <= y' < k /\ 0 <= x' < width) c a t)
    (fun k => ~ fits k) body (Z.to_nat height) 0 a)
    as (t & k & Hrun & Hk & (Hfit & Ht) & Hstop).
  - split; [intros; lia|]. split; [reflexivity|].
    intros x' y'. split; [lia|reflexivity].
  - intros j t Hj (Hfit & Hb & Ht).
    destruct (Hbody j t ltac:(lia)) as [[Hnf E]|(Hf & t' & E & Hb' & Ht')];
      [left; auto|right].
    exists t'. split; [assumption|]. split.
    { intros j' Hj'. destruct (Z.eq_dec j' j) as [->|]; [assumption|apply Hfit; lia]. }
    split; [congruence|].
    intros x' y'. destruct (Ht x' y') as [Hin Hout].
    destruct (Ht' x' y') as [Hin' Hout']. split.
    + intros [Hy Hx]. destruct (Z.eq_dec y' j) as [->|Hne].
      * rewrite Hin' by lia. unfold painted.
        rewrite Hb, Hout by lia. reflexivity.
      * rewrite Hout' by lia. apply Hin. lia.
    + intros Hn. rewrite Hout' by lia. apply Hout. lia.
  - exists t, k. split; [assumption|]. split; [lia|]. split; [assumption|].
    split; [intros; apply Hstop; lia|assumption].
Qed.

Lemma setIndexed_paint (t : image.RGBA) (x y : Z) (palette : list byte) (v : Z) :
  0 <= v ->
  Next <$> setIndexed t x y palette v =
    Ok (Next (paint
      (if v * 4 + 3 <? len palette then
         Some (color.mkRGBA (byteAt palette (v * 4 + 2)) (byteAt palette (v * 4 + 1))
                 (byteAt palette (v * 4)) xff)
       else None) t x y)).
Proof.
  intros Hv. unfold setIndexed.
  destruct (Z.ltb_spec (v * 4 + 3) (len palette)); [|reflexivity].
  rewrite !index_ok by lia. reflexivity.
Qed.

Lemma rowSize_nonneg (bitCount width : Z) : 0 <= width -> 0 <= rowSize bitCount width.
Proof.
  intros. unfold rowSize. repeat destruct (_ =? _); Z.quot_rem_to_equations; lia.
Qed.

(** From the exact row count to the two cases of [planeDecoded]. *)
Lemma planeDecoded_of_rows (bitCount : Z) (run : outcome image.RGBA)
    (img : image.RGBA) (data palette : list byte) (width height : Z) :
  (exists s' k, run = Ok s' /\ 0 <= k <= Z.max 0 height /\
     (forall j, 0 <= j < k -> ~ rowTruncated bitCount data width height j) /\
     (k < height -> ~ ~ rowTruncated bitCount data width height k) /\
     decodedRegion (fun x' y' => 0 <= y' < k /\ 0 <= x' < width)
       (planeColor bitCount data palette width height) img s') ->
  (0 < height -> rowTruncated bitCount data width height 0 -> run = Ok img) ->
  planeDecoded bitCount run img data palette width height.
Proof.
  intros (s' & k & Hrun & Hk & Hfit & Hstop & Hd) Hfirst. split; [|exact Hfirst].
  intros H0. exists s'. split; [assumption|].
  eapply decodedRegion_equiv; [|exact Hd]. intros x y. split; [|intros [Hy Hx]].
  - intros [Hy Hx]. lia.
  - split; [|assumption]. split; [lia|].
    destruct (Z.lt_ge_cases y k) as [|Hge]; [assumption|exfalso].
    apply (Hstop ltac:(lia)). intros Htr.
    apply H0. apply (rowTruncated_first bitCount data width height k); [lia|lia|assumption].
Qed.

Lemma first_row_breaks (height : Z)
    (body : Z -> image.RGBA -> outcome (step image.RGBA)) (img : image.RGBA) :
  0 < height -> body 0 img = Ok Break -> forRange height body img = Ok img.
Proof.
  intros Hh E. unfold forRange.
  destruct (Z.to_nat height) eqn:En; [lia|].
  cbn [forLoop]. rewrite E. reflexivity.
Qed.

Ltac row_case :=
  match goal with |- context [Z.ltb ?a ?b] =>
    destruct (Z.ltb_spec a b) as [Ht|Hf] end.

Lemma row_decoded_pass (c : Z -> option color.RGBA) (y width : Z)
    (body : Z -> image.RGBA -> outcome (step image.RGBA)) (t : image.RGBA) :
  (forall x u, 0 <= x < width -> body x u = Ok (Next (paint (c x) u x y))) ->
  exists t', Next <$> forRange width body t = Ok (Next t') /\
    decodedRegion (fun x' y' => y' = y /\ 0 <= x' < width) (fun x' _ => c x') t t'.
Proof.
  intros Hbody.
  destruct (columns_decoded c y width body t Hbody) as (t' & -> & Ht').
  exists t'. split; [reflexivity|assumption].
Qed.

Ltac geometry := unfold rowTruncated, rowOffset, rowSpan, rowSize; cbn; lia.

Ltac first_row Htr :=
  apply first_row_breaks; [assumption|];
  unfold rowTruncated, rowOffset, rowSpan, rowSize in Htr; cbn in Htr;
  rewrite Z.sub_0_r; row_case; [reflexivity|lia].

Lemma decodeICOBMP32_decoded (img : image.RGBA) (data palette : list byte)
    (width height : Z) :
  planeDecoded 32 (decodeICOBMP32 img data width height) img data palette width height.
Proof.
  apply planeDecoded_of_rows.
  - unfold decodeICOBMP32.
    apply (rows_decoded (fun j => ~ rowTruncated 32 data width height j)).
    intros y t Hy. row_case; [left|right].
    + split; [|reflexivity]. intros H. apply H. geometry.
    + split; [geometry|].
      apply (row_decoded_pass (fun x => planeColor 32 data palette width height x y)).
      intros x u Hx.
      assert (0 <= (height - 1 - y) * (width * 4)) by nia.
      rewrite !index_ok by lia. reflexivity.
  - intros Hh Htr. unfold decodeICOBMP32. first_row Htr.
Qed.

Lemma decodeICOBMP24_decoded (img : image.RGBA) (data palette : list byte)
    (width height : Z) :
  planeDecoded 24 (decodeICOBMP24 img data width height) img data palette width height.
Proof.
  apply planeDecoded_of_rows.
  - unfold decodeICOBMP24.
    apply (rows_decoded (fun j => ~ rowTruncated 24 data width height j)).
    intros y t Hy. row_case; [left|right].
    + split; [|reflexivity]. intros H. apply H. geometry.
    + split; [geometry|].
      apply (row_decoded_pass (fun x => planeColor 24 data palette width height x y)).
      intros x u Hx.
      assert (0 <= (height - 1 - y) * (Z.quot (width * 3 + 3) 4 * 4)).
      { apply Z.mul_nonneg_nonneg; [lia|]. Z.quot_rem_to_equations. lia. }
      rewrite !index_ok by lia. reflexivity.
  - intros Hh Htr. unfold decodeICOBMP24. first_row Htr.
Qed.

Lemma decodeICOBMP8_decoded (img : image.RGBA) (data palette : list byte)
    (width height : Z) :
  planeDecoded 8 (decodeICOBMP8 img data width height palette) img data palette
    width height.
Proof.
  apply planeDecoded_of_rows.
  - unfold decodeICOBMP8.
    apply (rows_decoded (fun j => ~ rowTruncated 8 data width height j)).
    intros y t Hy. row_case; [left|right].
    + split; [|reflexivity]. intros H. apply H. geometry.
    + split; [geometry|].
      apply (row_decoded_pass (fun x => planeColor 8 data palette width height x y)).
      intros x u Hx.
      assert (0 <= (height - 1 - y) * (Z.quot (width + 3) 4 * 4)).
      { apply Z.mul_nonneg_nonneg; [lia|]. Z.quot_rem_to_equations. lia. }
      rewrite index_ok by lia. cbn [mbind outcome_bind].
      rewrite setIndexed_paint by apply u8_nonneg. reflexivity.
  - intros Hh Htr. unfold decodeICOBMP8. first_row Htr.
Qed.

Lemma decodeICOBMP4_decoded (img : image.RGBA) (data palette : list byte)
    (width height : Z) :
  planeDecoded 4 (decodeICOBMP4 img data width height palette) img data palette
    width height.
Proof.
  apply planeDecoded_of_rows.
  - unfold decodeICOBMP4.
    apply (rows_decoded (fun j => ~ rowTruncated 4 data width height j)).
    intros y t Hy. row_case; [left|right].
    + split; [|reflexivity]. intros H. apply H. geometry.
    + split; [geometry|].
      apply (row_decoded_pass (fun x => planeColor 4 data palette width height x y)).
      intros x u Hx.
      assert (0 <= (height - 1 - y) * (Z.quot (width * 4 + 31) 32 * 4)).
      { apply Z.mul_nonneg_nonneg; [lia|]. Z.quot_rem_to_equations. lia. }
      assert (0 <= Z.quot x 2 < Z.quot (width * 4 + 31) 32 * 4)
        by (Z.quot_rem_to_equations; lia).
      rewrite index_ok by lia. cbn [mbind outcome_bind].
      unfold planeColor, pixelValue, pixelByte, rowOffset, rowSize. cbn [Z.eqb Pos.eqb].
      destruct (Z.rem x 2 =? 0); cbn [mbind outcome_bind];
        (rewrite setIndexed_paint by (apply land_nonneg_r; lia)); reflexivity.
  - intros Hh Htr. unfold decodeICOBMP4. first_row Htr.
Qed.

Lemma decodeICOBMP1_decoded (img : image.RGBA) (data palette : list byte)
    (width height : Z) :
  planeDecoded 1 (decodeICOBMP1 img data width height palette) img data palette
    width height.
Proof.
  apply planeDecoded_of_rows.
  - unfold decodeICOBMP1.
    apply (rows_decoded (fun j => ~ rowTruncated 1 data width height j)).
    intros y t Hy. row_case; [left|right].
    + split; [|reflexivity]. intros H. apply H. geometry.
    + split; [geometry|].
      apply (row_decoded_pass (fun x => planeColor 1 data palette width height x y)).
      intros x u Hx.
      assert (0 <= (height - 1 - y) * (Z.quot (width + 31) 32 * 4)).
      { apply Z.mul_nonneg_nonneg; [lia|]. Z.quot_rem_to_equations. lia. }
      assert (0 <= Z.quot x 8 < Z.quot (width + 31) 32 * 4)
        by (Z.quot_rem_to_equations; lia).
      rewrite index_ok by lia. cbn [mbind outcome_bind].
      rewrite setIndexed_paint by (apply land_nonneg_r; lia). reflexivity.
  - intros Hh Htr. unfold decodeICOBMP1. first_row Htr.
Qed.

(** X2.  The true-colour plane decoders, on the dimensions [decodeICOBMP]
    hands them: with the whole plane in the buffer,
    pixel [(x, y)] of the rectangle gets the bytes at row
    [height - 1 - y], column [x], read as B, G, R (and A at 32 bits; 255 at
    24 bits), and no other pixel changes; with a buffer too short for any
    row, nothing is decoded at all. *)
Theorem true_colour_plane_decoded
    (img : image.RGBA) (data : list byte) (width height : Z) :
  planeDimensions width height ->
  planeDecoded 24 (decodeICOBMP24 img data width height) img data [] width height /\
  planeDecoded 32 (decodeICOBMP32 img data width height) img data [] width height.
Proof.
  intros _. split; [apply decodeICOBMP24_decoded|apply decodeICOBMP32_decoded].
Qed.

(** X3.  The palette-indexed plane decoders, on the dimensions
    [decodeICOBMP] hands them: with the whole plane in the buffer,
    pixel [(x, y)] of the rectangle gets the palette entry its index names,
    read as B, G, R and stored opaque, or stays as it was when the palette
    has no such entry, and no other pixel changes; with a buffer too short
    for any row, nothing is decoded at all. *)
Theorem indexed_plane_decoded
    (img : image.RGBA) (data palette : list byte) (width height : Z) :
  planeDimensions width height ->
  planeDecoded 1 (decodeICOBMP1 img data width height palette)
    img data palette width height /\
  planeDecoded 4 (decodeICOBMP4 img data width height palette)
    img data palette width height /\
  planeDecoded 8 (decodeICOBMP8 img data width height palette)
    img data palette width height.
Proof.
  intros _. split; [apply decodeICOBMP1_decoded|].
  split; [apply decodeICOBMP4_decoded|apply decodeICOBMP8_decoded].
Qed.

(** ** The bitmap decoder, end to end *)

Lemma sliceFrom_ok (data : list byte) (lo : Z) :
  0 <= lo <= len data -> sliceFrom data lo = Ok (drop (Z.to_nat lo) data).
Proof.
  intros H. unfold sliceFrom. rewrite slice_ok by lia. f_equal.
  apply take_ge. rewrite length_drop. unfold len. lia.
Qed.

Lemma supportedDepth_cases (bitCount : Z) :
  supportedDepth bitCount = true ->
  bitCount = 1 \/ bitCount = 4 \/ bitCount = 8 \/ bitCount = 24 \/ bitCount = 32.
Proof.
  unfold supportedDepth. rewrite !orb_true_iff, !Z.eqb_eq. tauto.
Qed.

Lemma decodePlane_decoded (img : image.RGBA) (data : list byte)
    (bitCount pixelOffset width height : Z) (palette : list byte) :
  supportedDepth bitCount = true -> 0 <= pixelOffset <= len data ->
  planeDecoded bitCount
    (decodePlane img data bitCount pixelOffset width height palette)
    img (drop (Z.to_nat pixelOffset) data) palette width height.
Proof.
  intros Hs Hp. unfold decodePlane. rewrite sliceFrom_ok by assumption.
  cbn [mbind outcome_bind].
  destruct (supportedDepth_cases _ Hs) as [-> | [-> | [-> | [-> | ->]]]];
    cbn [Z.eqb Pos.eqb].
  - apply decodeICOBMP1_decoded.
  - apply decodeICOBMP4_decoded.
  - apply decodeICOBMP8_decoded.
  - apply decodeICOBMP24_decoded.
  - apply decodeICOBMP32_decoded.
Qed.

Lemma rowSpan_nonneg (bitCount width : Z) : 0 <= width -> 0 <= rowSpan bitCount width.
Proof.
  intros. unfold rowSpan. repeat destruct (_ =? _);
    try apply rowSize_nonneg; lia.
Qed.

Section BitmapDecoded.

Context {ExtImage : Type}.

(** X4.  A bitmap entry with a full header, no compression, a supported depth,
    positive dimensions that can be allocated and the whole pixel plane in
    the buffer decodes to an image of those dimensions whose pixel [(x, y)]
    holds the colour of plane row [height - 1 - y], column [x] (zero where
    the palette has no entry for the pixel's index). *)
Theorem decodeICOBMP_decodes (data : list byte) (entry : icoEntry) :
  40 <= len data -> 40 <= le32 data 0 -> le32 data 16 = 0 ->
  supportedDepth (le16 data 14) = true ->
  0 < bmpWidth data entry -> 0 < bmpHeight data entry ->
  allocation data entry <= image.maxAlloc ->
  planeOffset data entry
    + rowOffset (le16 data 14) (bmpWidth data entry) (bmpHeight data entry) 0
    + rowSpan (le16 data 14) (bmpWidth data entry) <= len data ->
  exists img,
    decodeICOBMP (ExtImage := ExtImage) data entry = Ok (Bitmap img) /\
    image.Bounds img = image.Rect 0 0 (bmpWidth data entry) (bmpHeight data entry) /\
    forall x y, 0 <= x < bmpWidth data entry -> 0 <= y < bmpHeight data entry ->
      image.RGBAAt img x y =
        default color.zero
          (planeColor (le16 data 14) (drop (Z.to_nat (planeOffset data entry)) data)
             (bmpPalette data entry) (bmpWidth data entry) (bmpHeight data entry)
             x y).
Proof.
  intros Hl Hh Hc Hs Hw Hht Ha Hplane.
  pose proof (le32_nonneg data 0) as Hhs0.
  assert (Hro : 0 <= rowOffset (le16 data 14) (bmpWidth data entry)
                       (bmpHeight data entry) 0).
  { unfold rowOffset. apply Z.mul_nonneg_nonneg; [lia|apply rowSize_nonneg; lia]. }
  pose proof (rowSpan_nonneg (le16 data 14) (bmpWidth data entry) ltac:(lia)) as Hsp.
  rewrite decodeICOBMP_eq by assumption.
  destruct (Z.ltb_spec (le32 data 0) 40); [lia|].
  rewrite Hc. cbn [Z.eqb negb].
  rewrite readPalette_cases by (apply le32_nonneg || apply le16_nonneg).
  unfold planeOffset, bmpPalette in *.
  assert (Hpe : 0 <= paletteEntries (le16 data 14) (ColorCount entry)).
  { unfold paletteEntries.
    destruct (Z.ltb_spec 0 (ColorCount entry)); cbn [andb];
      [destruct (_ <? _); [lia|]|]; apply Z.shiftl_nonneg; lia. }
  destruct (le16 data 14 <=? 8);
    [destruct (Z.ltb_spec (len data) (le32 data 0
       + paletteEntries (le16 data 14) (ColorCount entry) * 4)); [lia|]
    |rewrite Z.add_0_r in *];
    cbn [mbind outcome_bind];
    unfold image.NewRGBA; fold (allocation data entry);
    (destruct (Z.ltb_spec image.maxAlloc (allocation data entry)); [lia|]);
    cbn [mbind outcome_bind];
    match goal with |- context [decodePlane ?i ?d ?b ?o ?w ?h ?p] =>
      destruct (decodePlane_decoded i d b o w h p Hs ltac:(lia)) as [Hfull _]
    end.
  all: destruct Hfull as (img' & Hrun & Hb & Hpix);
    [unfold rowTruncated; unfold len at 1; rewrite length_drop;
     unfold len in Hplane; lia|].
  all: rewrite Hrun; cbn [mbind outcome_bind].
  all: exists img'; split; [reflexivity|]; split; [exact Hb|].
  all: intros x y Hx Hy; rewrite (proj1 (Hpix x y)) by lia.
  all: unfold painted; destruct (planeColor _ _ _ _ _ _ _) as [col|];
    [|apply RGBAAt_empty; reflexivity].
  all: cbn [image.Bounds default]; unfold image.Rect, image.In; cbn.
  all: destruct (Z.ltb_spec (bmpWidth data entry) 0); [lia|].
  all: destruct (Z.ltb_spec (bmpHeight data entry) 0); [lia|]; cbn.
  all: destruct (Z.leb_spec 0 x); [|lia];
    destruct (Z.ltb_spec x (bmpWidth data entry)); [|lia].
  all: destruct (Z.leb_spec 0 y); [|lia];
    destruct (Z.ltb_spec y (bmpHeight data entry)); [|lia].
  all: reflexivity.
Qed.

(** The panics of [decodeICOBMP], with the tests that guard them. *)
Lemma decodeICOBMP_panic_cases (data : list byte) (entry : icoEntry) :
  (exists p, decodeICOBMP (ExtImage := ExtImage) data entry = Panic p) <->
  40 <= len data /\ 40 <= le32 data 0 /\ le32 data 16 = 0 /\
  (8 < le16 data 14 \/
   le32 data 0 + paletteEntries (le16 data 14) (ColorCount entry) * 4 <= len data) /\
  (image.maxAlloc < allocation data entry \/
   ((le16 data 14 = 24 \/ le16 data 14 = 32) /\ len data < le32 data 0)).
Proof.
  destruct (Z.lt_ge_cases (len data) 40) as [Hs|Hl].
  { rewrite decodeICOBMP_short by assumption.
    split; [intros [p Hq]; discriminate|lia]. }
  rewrite decodeICOBMP_eq by assumption.
  destruct (Z.ltb_spec (le32 data 0) 40).
  { split; [intros [p Hq]; discriminate|lia]. }
  destruct (Z.eqb_spec (le32 data 16) 0) as [Hc|Hc]; cbn [negb];
    [|split; [intros [p Hq]; discriminate|tauto]].
  rewrite readPalette_cases by (apply le32_nonneg || apply le16_nonneg).
  assert (Hpe : 0 <= paletteEntries (le16 data 14) (ColorCount entry)).
  { unfold paletteEntries.
    destruct (Z.ltb_spec 0 (ColorCount entry)); cbn [andb];
      [destruct (_ <? _); [lia|]|]; apply Z.shiftl_nonneg; lia. }
  pose proof (le32_nonneg data 0) as Hhs0.
  destruct (Z.leb_spec (le16 data 14) 8) as [H8|H8].
  - destruct (Z.ltb_spec (len data) (le32 data 0
      + paletteEntries (le16 data 14) (ColorCount entry) * 4)) as [Hp|Hp].
    { split; [intros [p Hq]; discriminate|lia]. }
    cbn [mbind outcome_bind]. unfold image.NewRGBA. fold (allocation data entry).
    destruct (Z.ltb_spec image.maxAlloc (allocation data entry)).
    { split; [intros _; repeat split; auto; lia|eexists; reflexivity]. }
    cbn [mbind outcome_bind].
    destruct (supportedDepth (le16 data 14)) eqn:Hd.
    + match goal with |- context [decodePlane ?i ?d ?b ?o ?w ?h ?p] =>
        destruct (decodePlane_supported i d b o w h p Hd)
          as [(_ & img' & -> & _)|[(? & _)|(? & _)]] end; try lia.
      split; [intros [p Hq]; discriminate|lia].
    + rewrite decodePlane_unsupported by assumption.
      split; [intros [p Hq]; discriminate|lia].
  - cbn [mbind outcome_bind]. unfold image.NewRGBA. fold (allocation data entry).
    destruct (Z.ltb_spec image.maxAlloc (allocation data entry)).
    { split; [intros _; repeat split; auto; lia|eexists; reflexivity]. }
    cbn [mbind outcome_bind].
    destruct (supportedDepth (le16 data 14)) eqn:Hd.
    + pose proof (supportedDepth_cases _ Hd) as Hcases.
      match goal with |- context [decodePlane ?i ?d ?b ?o ?w ?h ?p] =>
        destruct (decodePlane_supported i d b o w h p Hd)
          as [(? & img' & -> & _)|[(? & ->)|(? & _)]] end; try lia.
      * split; [intros [p Hq]; discriminate|lia].
      * split; [intros _; repeat split; auto; lia|eexists; reflexivity].
    + rewrite decodePlane_unsupported by assumption.
      split; [intros [p Hq]; discriminate|].
      intros (_ & _ & _ & _ & [?|[[E|E] _]]); [lia| |];
        unfold supportedDepth in Hd; rewrite E in Hd; discriminate.
Qed.

(** X6.  [decodeICOBMP] panics in two situations and no other: the image cannot
    be allocated, or the depth is 24 or 32 and the header size lies beyond
    the entry's bytes.  (Both lie behind the header, compression and palette
    tests.) *)
Theorem decodeICOBMP_panics_iff (data : list byte) (entry : icoEntry) :
  (exists p, decodeICOBMP (ExtImage := ExtImage) data entry = Panic p) <->
  40 <= len data /\ 40 <= le32 data 0 /\ le32 data 16 = 0 /\
  (8 < le16 data 14 \/
   le32 data 0 + paletteEntries (le16 data 14) (ColorCount entry) * 4 <= len data) /\
  (image.maxAlloc < allocation data entry \/
   ((le16 data 14 = 24 \/ le16 data 14 = 32) /\ len data < le32 data 0)).
Proof. exact (decodeICOBMP_panic_cases data entry). Qed.

(** X5.  [decodeICOBMP] returns an image exactly when the header is complete
    and at least 40 bytes by its own size field, the bitmap is
    uncompressed, the depth is one of 1, 4, 8, 24, 32, the image can be
    allocated, and the buffer reaches the end of the palette (depths up to
    8) or the end of the header (24 and 32).  Neither the sign of the
    dimensions nor the presence of the pixel rows is tested. *)
Theorem decodeICOBMP_succeeds_iff (data : list byte) (entry : icoEntry) :
  (exists img, decodeICOBMP (ExtImage := ExtImage) data entry = Ok img) <->
  40 <= len data /\ 40 <= le32 data 0 /\ le32 data 16 = 0 /\
  supportedDepth (le16 data 14) = true /\
  allocation data entry <= image.maxAlloc /\
  (if le16 data 14 <=? 8
   then le32 data 0 + paletteEntries (le16 data 14) (ColorCount entry) * 4 <= len data
   else le32 data 0 <= len data).
Proof.
  destruct (Z.lt_ge_cases (len data) 40) as [Hs|Hl].
  { rewrite decodeICOBMP_short by assumption.
    split; [intros [p Hq]; discriminate|lia]. }
  rewrite decodeICOBMP_eq by assumption.
  destruct (Z.ltb_spec (le32 data 0) 40).
  { split; [intros [p Hq]; discriminate|lia]. }
  destruct (Z.eqb_spec (le32 data 16) 0) as [Hc|Hc]; cbn [negb];
    [|split; [intros [p Hq]; discriminate|tauto]].
  rewrite readPalette_cases by (apply le32_nonneg || apply le16_nonneg).
  assert (Hpe : 0 <= paletteEntries (le16 data 14) (ColorCount entry)).
  { unfold paletteEntries.
    destruct (Z.ltb_spec 0 (ColorCount entry)); cbn [andb];
      [destruct (_ <? _); [lia|]|]; apply Z.shiftl_nonneg; lia. }
  pose proof (le32_nonneg data 0) as Hhs0.
  destruct (Z.leb_spec (le16 data 14) 8) as [H8|H8].
  - destruct (Z.ltb_spec (len data) (le32 data 0
      + paletteEntries (le16 data 14) (ColorCount entry) * 4)) as [Hp|Hp].
    { split; [intros [p Hq]; discriminate|lia]. }
    cbn [mbind outcome_bind]. unfold image.NewRGBA. fold (allocation data entry).
    destruct (Z.ltb_spec image.maxAlloc (allocation data entry)).
    { split; [intros [p Hq]; discriminate|lia]. }
    cbn [mbind outcome_bind].
    destruct (supportedDepth (le16 data 14)) eqn:Hd.
    + match goal with |- context [decodePlane ?i ?d ?b ?o ?w ?h ?p] =>
        destruct (decodePlane_supported i d b o w h p Hd)
          as [(_ & img' & -> & _)|[(? & _)|(? & _)]] end; try lia.
      split; [intros _; repeat split; auto; lia|intros _; eexists; reflexivity].
    + rewrite decodePlane_unsupported by assumption.
      split; [intros [p Hq]; discriminate|intros (_ & _ & _ & ? & _); discriminate].
  - cbn [mbind outcome_bind]. unfold image.NewRGBA. fold (allocation data entry).
    destruct (Z.ltb_spec image.maxAlloc (allocation data entry)).
    { split; [intros [p Hq]; discriminate|lia]. }
    cbn [mbind outcome_bind].
    destruct (supportedDepth (le16 data 14)) eqn:Hd.
    + match goal with |- context [decodePlane ?i ?d ?b ?o ?w ?h ?p] =>
        destruct (decodePlane_supported i d b o w h p Hd)
          as [(? & img' & -> & _)|[(? & ->)|(? & _)]] end; try lia.
      * split; [intros _; repeat split; auto; lia|intros _; eexists; reflexivity].
      * split; [intros [p Hq]; discriminate|lia].
    + rewrite decodePlane_unsupported by assumption.
      split; [intros [p Hq]; discriminate|intros (_ & _ & _ & ? & _); discriminate].
Qed.

End BitmapDecoded.

(** ** The container parser's errors, and its agreement with the detector *)

Section ContainerErrors.

Context {ExtImage : Type}.
Variable image_Decode : list byte -> option ExtImage.

(** The errors that can come out of the selected entry. *)
Lemma extractAndDecode_errors (data : list byte) (entry : icoEntry) (e : error) :
  extractAndDecode image_Decode data entry = Err e ->
  errorKind e <> Some MalformedHeader /\
  errorKind e <> Some TruncatedDirectory /\
  errorKind e <> Some NoValidEntries.
Proof.
  unfold extractAndDecode, slice.
  destruct (_ && _); cbn [mbind outcome_bind]; [|discriminate].
  unfold decodeICOImage.
  destruct (len _ <? 4); [intros [= <-]; repeat split; discriminate|].
  destruct (HasPrefix _ magicPNG).
  - destruct (image_Decode _);
      [discriminate|intros [= <-]; repeat split; discriminate].
  - intros H. apply decodeICOBMP_errors in H.
    destruct H as [-> | [-> | [-> | [-> | ->]]]]; repeat split; discriminate.
Qed.

(** X7.  [decodeICO] fails with the truncated-directory error exactly when the
    six header bytes are valid and the buffer is shorter than the header
    plus 16 bytes per declared entry. *)
Theorem truncated_directory_iff (data : list byte) :
  failsWith (decodeICO image_Decode data) TruncatedDirectory <->
  6 <= len data /\ le16 data 0 = 0 /\ le16 data 2 = 1 /\ le16 data 4 <> 0 /\
  len data < 6 + le16 data 4 * 16.
Proof.
  destruct (Z.lt_ge_cases (len data) 6) as [Hs|Hl].
  { split; [|lia]. intros (e & He & Hk). unfold decodeICO in He.
    destruct (Z.ltb_spec (len data) 6); [|lia]. injection He as <-. discriminate. }
  rewrite decodeICO_eq by assumption.
  destruct (Z.eqb_spec (le16 data 0) 0) as [Hr|Hr]; cbn [negb];
    [|split; [intros (e & [= <-] & Hk); discriminate|tauto]].
  destruct (Z.eqb_spec (le16 data 2) 1) as [Ht|Ht]; cbn [negb];
    [|split; [intros (e & [= <-] & Hk); discriminate|tauto]].
  destruct (Z.eqb_spec (le16 data 4) 0) as [Hc|Hc];
    [split; [intros (e & [= <-] & Hk); discriminate|tauto]|].
  destruct (Z.ltb_spec (len data) (6 + le16 data 4 * 16)) as [Hd|Hd].
  { split; [tauto|]. intros _. eexists. split; reflexivity. }
  split; [|lia]. intros (e & He & Hk). exfalso.
  pose proof (le16_nonneg data 4) as Hn.
  destruct (scan_loop data (le16 data 4) Hn Hd) as (b & Hrun & _).
  rewrite Hrun in He. cbn [mbind outcome_bind] in He.
  destruct (bestEntry b) as [entry|].
  - apply extractAndDecode_errors in He. tauto.
  - injection He as <-. discriminate.
Qed.

(** X8.  [decodeICO] fails with the no-valid-entries error exactly when header
    and directory are valid and every slot is skipped. *)
Theorem no_valid_entries_iff (data : list byte) :
  failsWith (decodeICO image_Decode data) NoValidEntries <->
  validICOHeader data /\
  forall i, 0 <= i < le16 data 4 -> survives data (entryAt data i) = false.
Proof.
  unfold validICOHeader.
  destruct (Z.lt_ge_cases (len data) 6) as [Hs|Hl].
  { split; [|lia]. intros (e & He & Hk). unfold decodeICO in He.
    destruct (Z.ltb_spec (len data) 6); [|lia]. injection He as <-. discriminate. }
  rewrite decodeICO_eq by assumption.
  destruct (Z.eqb_spec (le16 data 0) 0) as [Hr|Hr]; cbn [negb];
    [|split; [intros (e & [= <-] & Hk); discriminate|tauto]].
  destruct (Z.eqb_spec (le16 data 2) 1) as [Ht|Ht]; cbn [negb];
    [|split; [intros (e & [= <-] & Hk); discriminate|tauto]].
  destruct (Z.eqb_spec (le16 data 4) 0) as [Hc|Hc];
    [split; [intros (e & [= <-] & Hk); discriminate|tauto]|].
  destruct (Z.ltb_spec (len data) (6 + le16 data 4 * 16)) as [Hd|Hd].
  { split; [intros (e & [= <-] & Hk); discriminate|lia]. }
  pose proof (le16_nonneg data 4) as Hn.
  destruct (scan_loop data (le16 data 4) Hn Hd) as (b & Hrun & Hb).
  rewrite Hrun. cbn [mbind outcome_bind]. unfold scanned in Hb.
  destruct (bestEntry b) as [entry|].
  - destruct Hb as (m & -> & Hm & Hsm & _). split.
    + intros (e & He & Hk). apply extractAndDecode_errors in He. tauto.
    + intros (_ & Hnone). rewrite Hnone in Hsm by assumption. discriminate.
  - split; [intros _; repeat split; auto|].
    intros _. eexists. split; reflexivity.
Qed.

Lemma detectFormat_ICO (rest : list byte) : detectFormat (magicICO ++ rest) = FormatICO.
Proof.
  unfold detectFormat. rewrite HasPrefix_app.
  pose proof (len_ge_app magicICO rest) as H. change (len magicICO) with 4 in H.
  destruct (Z.ltb_spec (len (magicICO ++ rest)) 2); [lia|].
  destruct (Z.leb_spec 4 (len (magicICO ++ rest))); [|lia].
  rewrite !andb_false_r. reflexivity.
Qed.

Lemma u8_zero (b : byte) : u8 b = 0 -> b = x00.
Proof. intros H. apply u8_inj. exact H. Qed.

Lemma u8_one (b : byte) : u8 b = 1 -> b = x01.
Proof. intros H. apply u8_inj. exact H. Qed.

(** A buffer whose reserved field is 0 and whose type field is 1 starts with
    the ICO magic. *)
Lemma detectFormat_of_header (data : list byte) :
  4 <= len data -> le16 data 0 = 0 -> le16 data 2 = 1 ->
  detectFormat data = FormatICO.
Proof.
  intros Hl Hr Ht.
  destruct data as [|b0 [|b1 [|b2 [|b3 rest]]]];
    try (unfold len in Hl; cbn in Hl; lia).
  rewrite le16_sum in Hr, Ht.
  change (byteAt (b0 :: b1 :: b2 :: b3 :: rest) 0) with b0 in Hr.
  change (byteAt (b0 :: b1 :: b2 :: b3 :: rest) (0 + 1)) with b1 in Hr.
  change (byteAt (b0 :: b1 :: b2 :: b3 :: rest) 2) with b2 in Ht.
  change (byteAt (b0 :: b1 :: b2 :: b3 :: rest) (2 + 1)) with b3 in Ht.
  pose proof (u8_range b0). pose proof (u8_range b1).
  pose proof (u8_range b2). pose proof (u8_range b3).
  rewrite (u8_zero b0), (u8_zero b1), (u8_one b2), (u8_zero b3) by lia.
  apply (detectFormat_ICO rest).
Qed.

(** X9.  Detector and parser agree on the header: whatever [detectFormat] does
    not classify as ICO, [decodeICO] rejects with a malformed-header
    error. *)
Theorem decodeICO_rejects_what_is_not_ICO (data : list byte) :
  detectFormat data <> FormatICO ->
  failsWith (decodeICO image_Decode data) MalformedHeader.
Proof.
  intros Hnot.
  destruct (Z.lt_ge_cases (len data) 6) as [Hs|Hl].
  { exists ErrICOTooShortForHeader. unfold decodeICO.
    destruct (Z.ltb_spec (len data) 6); [auto|lia]. }
  rewrite decodeICO_eq by assumption.
  destruct (Z.eqb_spec (le16 data 0) 0) as [Hr|Hr]; cbn [negb];
    [|eexists; split; reflexivity].
  destruct (Z.eqb_spec (le16 data 2) 1) as [Ht|Ht]; cbn [negb];
    [|eexists; split; reflexivity].
  exfalso. apply Hnot. apply detectFormat_of_header; [lia|assumption|assumption].
Qed.

(** X10.  Below 4 GiB, the two panics of [decodeICOBMP] are the only panics of
    [decodeICO]: when it panics, the entry it selected is a bitmap whose
    image cannot be allocated, or whose depth is 24 or 32 and whose header
    size lies beyond the entry's bytes. *)
Theorem decodeICO_panic_sources (data : list byte) (p : panic) :
  len data < 2 ^ 32 ->
  decodeICO image_Decode data = Panic p ->
  exists m,
    firstLargest data (le16 data 4) m /\
    let entry := entryAt data m in
    let payload := take (Z.to_nat (Size entry)) (drop (Z.to_nat (Offset entry)) data) in
    HasPrefix payload magicPNG = false /\ 40 <= len payload /\
    (image.maxAlloc < allocation payload entry \/
     ((le16 payload 14 = 24 \/ le16 payload 14 = 32) /\ len payload < le32 payload 0)).
Proof.
  intros Hlen Hp.
  destruct (Z.lt_ge_cases (len data) 6) as [Hs|Hl].
  { unfold decodeICO in Hp. destruct (Z.ltb_spec (len data) 6); [discriminate|lia]. }
  rewrite decodeICO_eq in Hp by assumption.
  destruct (negb (le16 data 0 =? 0)); [discriminate|].
  destruct (negb (le16 data 2 =? 1)); [discriminate|].
  destruct (le16 data 4 =? 0); [discriminate|].
  destruct (Z.ltb_spec (len data) (6 + le16 data 4 * 16)) as [Hd|Hd]; [discriminate|].
  pose proof (le16_nonneg data 4) as Hn.
  destruct (scan_loop data (le16 data 4) Hn Hd) as (b & Hrun & Hb).
  rewrite Hrun in Hp. cbn [mbind outcome_bind] in Hp. unfold scanned in Hb.
  destruct (bestEntry b) as [entry|]; [|discriminate].
  destruct Hb as (m & -> & Hm). exists m. split; [assumption|].
  destruct Hm as (_ & Hs & _). cbn zeta.
  rewrite extractAndDecode_entry_bytes in Hp
    by (assumption || (cbn; apply le32_nonneg)).
  unfold decodeICOImage in Hp.
  destruct (len _ <? 4); [discriminate|].
  destruct (HasPrefix _ magicPNG); [destruct (image_Decode _); discriminate|].
  split; [reflexivity|].
  assert (Hex : exists q, decodeICOBMP (ExtImage := ExtImage)
            (take (Z.to_nat (Size (entryAt data m)))
               (drop (Z.to_nat (Offset (entryAt data m))) data)) (entryAt data m)
          = Panic q) by (exists p; exact Hp).
  apply decodeICOBMP_panic_cases in Hex. tauto.
Qed.

End ContainerErrors.

(** ** Environment filter *)

Lemma skipEntry_existsb (e : string) (bl : list string) :
  skipEntry e bl = existsb (fun b => String.prefix b e) bl.
Proof.
  induction bl as [|b bl IH]; cbn; [reflexivity|].
  rewrite IH. destruct (String.prefix b e); reflexivity.
Qed.

Lemma filter_loop (bl env acc : list string) :
  fold_left (fun filtered e =>
               if skipEntry e bl then filtered else filtered ++ [e]) env acc
    = acc ++ List.filter (fun e => negb (existsb (fun b => String.prefix b e) bl)) env.
Proof.
  revert acc. induction env as [|e env IH]; intros acc; cbn [fold_left List.filter].
  - rewrite app_nil_r. reflexivity.
  - rewrite IH, skipEntry_existsb.
    destruct (existsb _ bl); cbn [negb]; [reflexivity|].
    rewrite <- app_assoc. reflexivity.
Qed.

(** X12.  [filterEnvironment] returns, in their order, exactly the entries that
    start with none of [PATH=], [HOME=], [USER=], [HOSTNAME=], [PWD=],
    [SHLVL=]; filtering again changes nothing. *)
Theorem filterEnvironment_keeps_the_rest (env : list string) :
  filterEnvironment env
    = List.filter
        (fun e => negb (existsb (fun b => String.prefix b e) envBlacklist)) env /\
  (forall e, In e (filterEnvironment env) <->
     In e env /\ forall b, In b envBlacklist -> String.prefix b e = false) /\
  filterEnvironment (filterEnvironment env) = filterEnvironment env.
Proof.
  assert (E : forall l, filterEnvironment l
    = List.filter
        (fun e => negb (existsb (fun b => String.prefix b e) envBlacklist)) l)
    by (intros l; apply (filter_loop envBlacklist l [])).
  split; [apply E|]. split.
  - intros e. rewrite E, filter_In. split; intros [Hin Hk]; (split; [assumption|]).
    + intros b Hb. apply negb_true_iff in Hk.
      destruct (String.prefix b e) eqn:Hp; [|reflexivity].
      rewrite <- Hk. symmetry. apply existsb_exists. exists b. auto.
    + apply negb_true_iff. destruct (existsb _ envBlacklist) eqn:Hex; [|reflexivity].
      apply existsb_exists in Hex. destruct Hex as (b & Hb & Hp).
      rewrite (Hk b Hb) in Hp. discriminate.
  - rewrite !E. induction env as [|e env IH]; [reflexivity|].
    cbn [List.filter].
    destruct (negb (existsb (fun b => String.prefix b e) envBlacklist)) eqn:Hk;
      [cbn [List.filter]; rewrite Hk, IH; reflexivity|exact IH].
Qed.

(** ** Template escaping *)

Lemma indexOfFrom_spec (s substr : string) (n : nat) :
  forall i : nat,
  (indexOfFrom n i s substr = -1 /\
   forall j, (i <= j < i + n)%nat ->
     String.substring j (String.length substr) s <> substr) \/
  (exists k, (i <= k < i + n)%nat /\ indexOfFrom n i s substr = Z.of_nat k /\
     String.substring k (String.length substr) s = substr /\
     forall j, (i <= j < k)%nat ->
       String.substring j (String.length substr) s <> substr).
Proof.
  induction n as [|n IH]; intros i; cbn [indexOfFrom].
  - left. split; [reflexivity|]. intros j Hj. lia.
  - destruct (String.eqb_spec (String.substring i (String.length substr) s) substr)
      as [E|E].
    + right. exists i. split; [lia|]. split; [reflexivity|]. split; [assumption|].
      intros j Hj. lia.
    + destruct (IH (Datatypes.S i)) as [[Hr Hno]|(k & Hk & Hr & Hs & Hno)].
      * left. split; [assumption|]. intros j Hj.
        destruct (Nat.eq_dec j i) as [->|]; [assumption|apply Hno; lia].
      * right. exists k. split; [lia|]. split; [assumption|]. split; [assumption|].
        intros j Hj.
        destruct (Nat.eq_dec j i) as [->|]; [assumption|apply Hno; lia].
Qed.

(** X13.  [indexOf] returns the position of the first occurrence of [substr] in
    [s], and [-1] exactly when there is none (in particular when [substr]
    is longer than [s]); it never looks outside [s]. *)
Theorem indexOf_first_occurrence (s substr : string) :
  (indexOf s substr = -1 /\
   forall i, (i + String.length substr <= String.length s)%nat ->
     String.substring i (String.length substr) s <> substr) \/
  (exists k, indexOf s substr = Z.of_nat k /\
     (k + String.length substr <= String.length s)%nat /\
     String.substring k (String.length substr) s = substr /\
     forall j, (j < k)%nat ->
       String.substring j (String.length substr) s <> substr).
Proof.
  unfold indexOf.
  destruct (indexOfFrom_spec s substr
    (Z.to_nat (Z.of_nat (String.length s) - Z.of_nat (String.length substr) + 1)) 0)
    as [[Hr Hno]|(k & Hk & Hr & Hs & Hno)].
  - left. split; [assumption|]. intros i Hi. apply Hno. lia.
  - right. exists k. split; [assumption|]. split; [lia|]. split; [assumption|].
    intros j Hj. apply Hno. lia.
Qed.

Lemma indexOfFrom_cons (c : ascii) (s substr : string) (n : nat) :
  forall i : nat,
  indexOfFrom n (Datatypes.S i) (String c s) substr =
    (if indexOfFrom n i s substr <? 0 then -1 else indexOfFrom n i s substr + 1).
Proof.
  induction n as [|n IH]; intros i; cbn [indexOfFrom]; [reflexivity|].
  cbn [String.substring].
  destruct (String.eqb _ substr).
  - destruct (Z.ltb_spec (Z.of_nat i) 0); lia.
  - apply IH.
Qed.

Lemma indexOf_newline_cons (c : ascii) (s : string) :
  indexOf (String c s) newline =
    if Ascii.eqb c (Ascii.ascii_of_nat 10) then 0
    else if indexOf s newline <? 0 then -1 else indexOf s newline + 1.
Proof.
  unfold indexOf. change (String.length newline) with 1%nat.
  cbn [String.length].
  replace (Z.to_nat (Z.of_nat (Datatypes.S (String.length s)) - Z.of_nat 1 + 1))
    with (Datatypes.S (String.length s)) by lia.
  replace (Z.to_nat (Z.of_nat (String.length s) - Z.of_nat 1 + 1))
    with (String.length s) by lia.
  cbn [indexOfFrom]. change (String.length newline) with 1%nat.
  cbn [String.substring].
  replace (String.substring 0 0 s) with EmptyString by (destruct s; reflexivity).
  unfold newline at 1. cbn [String.eqb]. rewrite indexOfFrom_cons.
  destruct (Ascii.eqb c (Ascii.ascii_of_nat 10)); reflexivity.
Qed.

Lemma indexOf_newline_range (s : string) :
  indexOf s newline = -1 \/ 0 <= indexOf s newline < Z.of_nat (String.length s).
Proof.
  induction s as [|c s IH].
  - left. reflexivity.
  - rewrite indexOf_newline_cons. cbn [String.length].
    destruct (Ascii.eqb c _); [right; lia|].
    destruct IH as [-> | IH]; [left; reflexivity|].
    destruct (Z.ltb_spec (indexOf s newline) 0); [lia|right; lia].
Qed.

(** One round of the loop of [replaceAll] on a newline. *)
Lemma replace_one_newline (s : string) :
  (indexOf s newline = -1 /\ newlines s = 0%nat /\ spaced s = s) \/
  (0 <= indexOf s newline /\
   let k := Z.to_nat (indexOf s newline) in
   let s' := (String.substring 0 k s ++ " "
              ++ String.substring (k + 1) (String.length s - (k + 1)) s)%string in
   Datatypes.S (newlines s') = newlines s /\ spaced s' = spaced s).
Proof.
  induction s as [|c s IH].
  - left. repeat split.
  - rewrite indexOf_newline_cons. cbn [newlines spaced String.length].
    destruct (Ascii.eqb c (Ascii.ascii_of_nat 10)) eqn:Ec.
    + right. split; [lia|]. cbv zeta. change (Z.to_nat 0) with 0%nat.
      cbn [String.substring Nat.sub Nat.add]. rewrite Nat.sub_0_r, substring_all.
      change (("" ++ " " ++ s)%string) with (String " " s).
      cbn [newlines spaced Ascii.eqb]. split; reflexivity.
    + destruct IH as [(Hi & Hn & Hs)|(Hi & Hrest)].
      * left. rewrite Hi. cbn. rewrite Hn, Hs. repeat split.
      * right. destruct (Z.ltb_spec (indexOf s newline) 0); [lia|].
        split; [lia|]. cbn zeta in *.
        replace (Z.to_nat (indexOf s newline + 1))
          with (Datatypes.S (Z.to_nat (indexOf s newline))) by lia.
        cbn [String.substring Nat.sub Nat.add].
        change ((String c ?a ++ ?b)%string) with (String c (a ++ b)%string).
        cbn [String.append newlines spaced]. rewrite Ec.
        destruct Hrest as [Hn Hs]. rewrite <- Hn, Hs. split; reflexivity.
Qed.

(** The loop of [replaceAll] on newlines: one round per newline and one
    more. *)
Lemma replaceAll_newlines (s : string) (fuel : nat) :
  (newlines s < fuel)%nat -> replaceAll fuel s newline " " = Some (spaced s).
Proof.
  revert s.
  induction fuel as [|fuel IH]; intros s Hf; [lia|].
  cbn [replaceAll].
  destruct (replace_one_newline s) as [(Hi & Hn & Hs)|(Hi & Hrest)].
  - rewrite Hi. cbn. rewrite Hs. reflexivity.
  - destruct (Z.ltb_spec (indexOf s newline) 0); [lia|].
    cbn zeta in Hrest. destruct Hrest as [Hn Hs].
    cbn [String.length newline]. rewrite <- Hs. apply IH. lia.
Qed.

Lemma newlines_spaced (s : string) : newlines (spaced s) = 0%nat.
Proof.
  induction s as [|c s IH]; [reflexivity|]. cbn [spaced newlines]. rewrite IH.
  destruct (Ascii.eqb_spec c (ascii_of_nat 10)) as [->|Hc]; [reflexivity|].
  destruct (Ascii.eqb_spec c (ascii_of_nat 10)); [contradiction|reflexivity].
Qed.

Lemma length_spaced (s : string) : String.length (spaced s) = String.length s.
Proof.
  induction s as [|c s IH]; [reflexivity|]. cbn [spaced String.length].
  rewrite IH. reflexivity.
Qed.

(** X14.  [escapeForTemplate] returns: one round per newline and one more
    suffice, and the result is the string with every newline replaced by a
    space, character for character; it has the length of the input and no
    newline. *)
Theorem escapeForTemplate_spaces_newlines (s : string) (fuel : nat) :
  (newlines s < fuel)%nat ->
  exists r, escapeForTemplate fuel s = Some r /\ r = spaced s /\
    String.length r = String.length s /\ newlines r = 0%nat.
Proof.
  intros Hf. exists (spaced s). unfold escapeForTemplate.
  split; [apply replaceAll_newlines, Hf|]. split; [reflexivity|].
  split; [apply length_spaced|apply newlines_spaced].
Qed.

(** X15.  With an empty [old], [replaceAll] finds it at position 0 in every round
    and never leaves its loop: no number of rounds gives a result. *)
Theorem replaceAll_empty_old_never_returns (fuel : nat) (s new : string) :
  replaceAll fuel s "" new = None.
Proof.
  revert s. induction fuel as [|fuel IH]; intros s; [reflexivity|].
  cbn [replaceAll].
  assert (E : indexOf s "" = 0).
  { unfold indexOf. change (String.length "") with 0%nat.
    replace (Z.to_nat (Z.of_nat (String.length s) - Z.of_nat 0 + 1))
      with (Datatypes.S (String.length s)) by lia.
    cbn [indexOfFrom]. change (String.length "") with 0%nat.
    replace (String.substring 0 0 s) with EmptyString by (destruct s; reflexivity).
    reflexivity. }
  rewrite E. cbn [Z.ltb Z.compare]. apply IH.
Qed.

(** ** Writing and reading back an ICO file *)

Lemma len_insert (data : list byte) (n : nat) (b : byte) :
  len (<[n := b]> data) = len data.
Proof. unfold len. rewrite length_insert. reflexivity. Qed.

Lemma setByte_ok (data : list byte) (i : Z) (b : byte) :
  0 <= i < len data -> setByte data i b = Ok (<[Z.to_nat i := b]> data).
Proof.
  intros H. unfold setByte.
  destruct (Z.leb_spec 0 i); [|lia]. destruct (Z.ltb_spec i (len data)); [|lia].
  reflexivity.
Qed.

Lemma PutUint16_ok (data : list byte) (lo hi v : Z) :
  0 <= lo -> hi = lo + 2 -> hi <= len data ->
  PutUint16 data lo hi v =
    Ok (<[Z.to_nat (lo + 1) := byteOf (uint8 (Z.shiftr v 8))]>
          (<[Z.to_nat lo := byteOf (uint8 v)]> data)).
Proof.
  intros Hlo -> Hhi. unfold PutUint16.
  rewrite slice_ok by lia. cbn [mbind outcome_bind].
  rewrite index_ok by (rewrite len_window; lia). cbn [mbind outcome_bind].
  rewrite setByte_ok by lia. cbn [mbind outcome_bind].
  rewrite setByte_ok by (rewrite len_insert; lia). reflexivity.
Qed.

Lemma PutUint32_ok (data : list byte) (lo hi v : Z) :
  0 <= lo -> hi = lo + 4 -> hi <= len data ->
  PutUint32 data lo hi v =
    Ok (<[Z.to_nat (lo + 3) := byteOf (uint8 (Z.shiftr v 24))]>
          (<[Z.to_nat (lo + 2) := byteOf (uint8 (Z.shiftr v 16))]>
             (<[Z.to_nat (lo + 1) := byteOf (uint8 (Z.shiftr v 8))]>
                (<[Z.to_nat lo := byteOf (uint8 v)]> data)))).
Proof.
  intros Hlo -> Hhi. unfold PutUint32.
  rewrite slice_ok by lia. cbn [mbind outcome_bind].
  rewrite index_ok by (rewrite len_window; lia). cbn [mbind outcome_bind].
  rewrite setByte_ok by lia. cbn [mbind outcome_bind].
  rewrite setByte_ok by (rewrite !len_insert; lia). cbn [mbind outcome_bind].
  rewrite setByte_ok by (rewrite !len_insert; lia). cbn [mbind outcome_bind].
  rewrite setByte_ok by (rewrite !len_insert; lia). reflexivity.
Qed.

Lemma copyAt_ok (data : list byte) (off : Z) (src : list byte) :
  0 <= off <= len data ->
  copyAt data off src = Ok (list_inserts (Z.to_nat off) src data).
Proof.
  intros H. unfold copyAt. rewrite sliceFrom_ok by assumption. reflexivity.
Qed.

Lemma u8_byteOf (z : Z) : 0 <= z < 256 -> u8 (byteOf z) = z.
Proof.
  intros H. unfold u8, byteOf.
  destruct (Byte.of_N (Z.to_N z)) as [b|] eqn:E.
  - apply Byte.to_of_N in E. cbn. rewrite E. lia.
  - apply Byte.of_N_None_iff in E. lia.
Qed.

Lemma uint8_range (z : Z) : 0 <= uint8 z < 256.
Proof. unfold uint8. apply Z.mod_pos_bound. reflexivity. Qed.

Lemma bytes16 (v : Z) :
  0 <= v < 65536 -> uint8 v + uint8 (Z.shiftr v 8) * 256 = v.
Proof.
  intros H. unfold uint8. rewrite Z.shiftr_div_pow2 by lia.
  change (2 ^ 8) with 256. Z.div_mod_to_equations. lia.
Qed.

Lemma bytes32 (v : Z) :
  0 <= v < 2 ^ 32 ->
  uint8 v + uint8 (Z.shiftr v 8) * 256 + uint8 (Z.shiftr v 16) * 65536
    + uint8 (Z.shiftr v 24) * 16777216 = v.
Proof.
  intros H. unfold uint8. rewrite !Z.shiftr_div_pow2 by lia.
  change (2 ^ 8) with 256. change (2 ^ 16) with 65536.
  change (2 ^ 24) with 16777216. change (2 ^ 32) with 4294967296 in H.
  Z.div_mod_to_equations. lia.
Qed.

Lemma byteAt_lookup (data : list byte) (i : Z) (b : byte) :
  data !! Z.to_nat i = Some b -> byteAt data i = b.
Proof. unfold byteAt. intros ->. reflexivity. Qed.

(** A lookup in a buffer after single-byte writes. *)
Ltac through_writes :=
  repeat first
    [ rewrite list_lookup_insert_ne by lia
    | rewrite list_lookup_insert_eq by (rewrite ?length_insert; lia) ].

Lemma uint32_small (z : Z) : 0 <= z < 2 ^ 32 -> uint32 z = z.
Proof. intros H. unfold uint32. apply Z.mod_small. exact H. Qed.

Lemma writeEntry_spec (data : list byte) (i : Z) (img : pngImage) (off n : Z) :
  0 <= i < n -> 6 + 16 * n <= off -> off + len (pngData img) <= len data ->
  len data < 2 ^ 32 ->
  exists data',
    writeEntry data i img off = Ok (data', off + len (pngData img)) /\
    length data' = length data /\
    (forall j : nat,
       (j < Z.to_nat (6 + i * 16) \/
        Z.to_nat (6 + i * 16 + 16) <= j < Z.to_nat off \/
        Z.to_nat off + length (pngData img) <= j)%nat ->
       data' !! j = data !! j) /\
    slotWritten data' i img off.
Proof.
  intros Hi Hoff Hfit Hlen.
  pose proof (len_nonneg (pngData img)) as Hpng.
  unfold writeEntry.
  rewrite setByte_ok by lia. cbn [mbind outcome_bind].
  rewrite setByte_ok by (rewrite ?len_insert; lia). cbn [mbind outcome_bind].
  rewrite setByte_ok by (rewrite ?len_insert; lia). cbn [mbind outcome_bind].
  rewrite setByte_ok by (rewrite ?len_insert; lia). cbn [mbind outcome_bind].
  rewrite PutUint16_ok by (rewrite ?len_insert; lia). cbn [mbind outcome_bind].
  rewrite PutUint16_ok by (rewrite ?len_insert; lia). cbn [mbind outcome_bind].
  rewrite PutUint32_ok by (rewrite ?len_insert; lia). cbn [mbind outcome_bind].
  rewrite PutUint32_ok by (rewrite ?len_insert; lia). cbn [mbind outcome_bind].
  rewrite copyAt_ok by (rewrite ?len_insert; lia). cbn [mbind outcome_bind].
  rewrite (uint32_small (len (pngData img))) by lia.
  rewrite (uint32_small (off + len (pngData img))) by lia.
  eexists. split; [reflexivity|].
  split; [rewrite length_inserts, !length_insert; reflexivity|].
  split.
  - intros j Hj. unfold len in *.
    destruct (decide (j < Z.to_nat off)%nat).
    + rewrite list_lookup_inserts_lt by lia. through_writes. reflexivity.
    + rewrite list_lookup_inserts_ge by lia. through_writes. reflexivity.
  - split.
    + unfold len in *. unfold entryAt.
      rewrite !le16_sum, !le32_sum.
      repeat match goal with
      | |- context [byteAt ?d ?p] =>
          lazymatch d with
          | list_inserts _ _ _ =>
              let b := fresh "b" in let Hb := fresh "Hb" in
              evar (b : byte);
              assert (byteAt d p = b) as Hb
                by (apply byteAt_lookup;
                    rewrite list_lookup_inserts_lt by lia;
                    through_writes; subst b; reflexivity);
              rewrite Hb; subst b; clear Hb
          end
      end.
      pose proof (uint8_range (pngWidth img)).
      pose proof (uint8_range (pngHeight img)).
      rewrite !u8_byteOf
        by first [apply uint8_range | lia | destruct (_ =? 256); lia].
      rewrite (bytes16 1), (bytes16 32) by lia.
      rewrite !bytes32 by (unfold len; lia).
      reflexivity.
    + intros k Hk. unfold len in *.
      rewrite list_lookup_inserts by (rewrite ?length_insert; lia).
      f_equal. lia.
Qed.

Lemma slotWritten_ext (data data' : list byte) (i : Z) (img : pngImage) (off : Z) :
  0 <= i -> 0 <= off ->
  (forall j : nat,
     (Z.to_nat (6 + i * 16) <= j < Z.to_nat (6 + i * 16 + 16) \/
      Z.to_nat off <= j < Z.to_nat off + length (pngData img))%nat ->
     data' !! j = data !! j) ->
  slotWritten data i img off -> slotWritten data' i img off.
Proof.
  intros Hi Hoff Hext [He Hp]. split.
  - rewrite <- He. unfold entryAt, le16, le32, byteAt.
    rewrite !(Hext (Z.to_nat _)) by lia. reflexivity.
  - intros k Hk. rewrite Hext by lia. apply Hp. exact Hk.
Qed.

Lemma pngTotal_nonneg (images : list pngImage) : 0 <= pngTotal images.
Proof.
  induction images as [|img rest IH]; cbn [pngTotal]; [lia|].
  pose proof (len_nonneg (pngData img)). lia.
Qed.

Lemma writeEntries_spec (n : Z) (rest : list pngImage) :
  forall (i : Z) (data : list byte) (off : Z),
  0 <= i -> i + len rest = n -> 6 + 16 * n <= off ->
  off + pngTotal rest <= len data -> len data < 2 ^ 32 ->
  exists data',
    writeEntries rest i data off = Ok data' /\
    length data' = length data /\
    (forall j : nat,
       (j < Z.to_nat (6 + i * 16) \/ Z.to_nat (6 + 16 * n) <= j < Z.to_nat off)%nat ->
       data' !! j = data !! j) /\
    (forall (k : nat) img, rest !! k = Some img ->
       slotWritten data' (i + Z.of_nat k) img (off + pngTotal (take k rest))).
Proof.
  induction rest as [|img rest IH]; intros i data off Hi Hn Hoff Hfit Hlen.
  - exists data. cbn [writeEntries].
    split; [reflexivity|]. split; [reflexivity|]. split; [reflexivity|].
    intros k img' Hk; rewrite lookup_nil in Hk; discriminate.
  - cbn [pngTotal] in Hfit. unfold len in Hn. cbn [length] in Hn.
    pose proof (pngTotal_nonneg rest) as Hrest.
    pose proof (len_nonneg (pngData img)) as Hpng.
    destruct (writeEntry_spec data i img off n) as (d1 & Hrun & Hl1 & Hf1 & Hs1);
      [lia | lia | lia | lia |].
    destruct (IH (i + 1) d1 (off + len (pngData img))) as (d2 & Hrun2 & Hl2 & Hf2 & Hs2);
      [lia | unfold len; lia | lia | unfold len in *; lia | unfold len in *; lia |].
    exists d2. cbn [writeEntries]. rewrite Hrun. cbn [mbind outcome_bind].
    split; [exact Hrun2|]. split; [congruence|]. split.
    + intros j Hj. unfold len in *. rewrite Hf2 by lia. apply Hf1. lia.
    + intros [|k] img' Hk.
      * cbn in Hk. injection Hk as <-. cbn [take pngTotal].
        rewrite !Z.add_0_r.
        apply (slotWritten_ext d1); [lia | lia | | exact Hs1].
        intros j Hj. unfold len in *. apply Hf2. lia.
      * cbn [lookup list_lookup] in Hk. cbn [take pngTotal].
        replace (i + Z.of_nat (S k)) with (i + 1 + Z.of_nat k) by lia.
        rewrite Z.add_assoc. apply Hs2. exact Hk.
Qed.

Lemma fold_pngTotal (images : list pngImage) (t : Z) :
  fold_left (fun t img => t + len (pngData img)) images t = t + pngTotal images.
Proof.
  revert t. induction images as [|img rest IH]; intros t; cbn [fold_left pngTotal].
  - lia.
  - rewrite IH. lia.
Qed.

Lemma pngTotal_take (images : list pngImage) (k : nat) (img : pngImage) :
  images !! k = Some img ->
  0 <= pngTotal (take k images) /\
  pngTotal (take k images) + len (pngData img) <= pngTotal images.
Proof.
  revert k. induction images as [|i0 rest IH]; intros k Hk.
  - rewrite lookup_nil in Hk. discriminate.
  - destruct k as [|k]; cbn [take pngTotal].
    + cbn in Hk. injection Hk as <-. pose proof (pngTotal_nonneg rest). lia.
    + cbn [lookup list_lookup] in Hk. apply IH in Hk.
      pose proof (len_nonneg (pngData i0)). lia.
Qed.

Lemma icoImage_len (img : pngImage) : icoImage img -> 8 <= len (pngData img).
Proof.
  intros (_ & _ & H). apply HasPrefix_true in H. destruct H as [rest ->].
  pose proof (len_ge_app magicPNG rest) as Hl. change (len magicPNG) with 8 in Hl.
  exact Hl.
Qed.

Lemma slot_resolution (data : list byte) (i : Z) (img : pngImage) (off : Z) :
  icoImage img -> slotWritten data i img off ->
  resolution (entryAt data i) = pngWidth img * pngHeight img /\
  Size (entryAt data i) = len (pngData img) /\ Offset (entryAt data i) = off.
Proof.
  intros (Hw & Hh & _) [He _]. rewrite He.
  unfold resolution, getActualWidth, getActualHeight, uint8. cbn.
  split; [|split; reflexivity].
  destruct (Z.eqb_spec (pngWidth img) 256) as [->|Hw'];
    destruct (Z.eqb_spec (pngHeight img) 256) as [->|Hh']; cbn.
  - reflexivity.
  - rewrite (Z.mod_small (pngHeight img)) by lia.
    destruct (Z.eqb_spec (pngHeight img) 0); [lia|reflexivity].
  - rewrite (Z.mod_small (pngWidth img)) by lia.
    destruct (Z.eqb_spec (pngWidth img) 0); [lia|reflexivity].
  - rewrite (Z.mod_small (pngWidth img)), (Z.mod_small (pngHeight img)) by lia.
    destruct (Z.eqb_spec (pngWidth img) 0); [lia|].
    destruct (Z.eqb_spec (pngHeight img) 0); [lia|reflexivity].
Qed.

Lemma slot_payload (data : list byte) (i : Z) (img : pngImage) (off : Z) :
  0 <= off -> off + len (pngData img) <= len data -> slotWritten data i img off ->
  take (Z.to_nat (len (pngData img))) (drop (Z.to_nat off) data) = pngData img.
Proof.
  intros Hoff Hfit [_ Hp]. unfold len in *. rewrite Nat2Z.id.
  apply list_eq. intros k.
  destruct (decide (k < length (pngData img))%nat) as [Hk|Hk].
  - rewrite lookup_take_lt by exact Hk. rewrite lookup_drop. apply Hp. exact Hk.
  - rewrite lookup_take_ge by lia. symmetry. apply lookup_ge_None. lia.
Qed.

(** What [saveICO] leaves in the buffer. *)
Lemma saveICO_layout (images : list pngImage) :
  len images < 65536 -> 6 + 16 * len images + pngTotal images < 2 ^ 32 ->
  exists bytes,
    saveICO images = Ok bytes /\
    len bytes = 6 + 16 * len images + pngTotal images /\
    le16 bytes 0 = 0 /\ le16 bytes 2 = 1 /\ le16 bytes 4 = len images /\
    forall (k : nat) img, images !! k = Some img ->
      slotWritten bytes (Z.of_nat k) img (6 + 16 * len images + pngTotal (take k images)).
Proof.
  intros Hn Hsz.
  pose proof (len_nonneg images) as Hn0. pose proof (pngTotal_nonneg images) as Ht0.
  unfold saveICO. rewrite fold_pngTotal. rewrite Z.add_0_l.
  set (size := 6 + 16 * len images + pngTotal images) in *.
  assert (len (replicate (Z.to_nat size) x00) = size) as Hl0
    by (unfold len; rewrite length_replicate; lia).
  rewrite PutUint16_ok by lia. cbn [mbind outcome_bind].
  rewrite PutUint16_ok by (rewrite ?len_insert; lia). cbn [mbind outcome_bind].
  rewrite PutUint16_ok by (rewrite ?len_insert; lia). cbn [mbind outcome_bind].
  rewrite uint32_small by lia.
  match goal with |- context [writeEntries images 0 ?d _] => set (d0 := d) end.
  assert (len d0 = size) as Hd0 by (subst d0; rewrite !len_insert; exact Hl0).
  destruct (writeEntries_spec (len images) images 0 d0 (6 + 16 * len images))
    as (d & Hrun & Hl & Hf & Hs); [lia | lia | lia | lia | lia |].
  assert (len d = size) as Hd by (unfold len in *; lia).
  exists d. split; [exact Hrun|]. split; [exact Hd|].
  assert (forall p b, 0 <= p < 6 -> d0 !! Z.to_nat p = Some b -> byteAt d p = b) as Hh.
  { intros p b Hp Hb. apply byteAt_lookup. rewrite Hf by lia. exact Hb. }
  assert (uint16 (len images) = len images) as Hu
    by (unfold uint16; apply Z.mod_small; lia).
  unfold len in Hl0.
  split; [|split; [|split]].
  - rewrite le16_sum.
    rewrite (Hh 0 (byteOf (uint8 0))), (Hh (0 + 1) (byteOf (uint8 (Z.shiftr 0 8))));
      [reflexivity | lia | | lia |]; subst d0; through_writes; reflexivity.
  - rewrite le16_sum.
    rewrite (Hh 2 (byteOf (uint8 1))), (Hh (2 + 1) (byteOf (uint8 (Z.shiftr 1 8))));
      [reflexivity | lia | | lia |]; subst d0; through_writes; reflexivity.
  - rewrite le16_sum.
    rewrite (Hh 4 (byteOf (uint8 (uint16 (len images))))),
            (Hh (4 + 1) (byteOf (uint8 (Z.shiftr (uint16 (len images)) 8))));
      [ | lia | | lia |]; [|subst d0; through_writes; reflexivity ..].
    rewrite Hu, !u8_byteOf by apply uint8_range. apply bytes16. lia.
  - intros k img Hk. apply Hs in Hk. rewrite Z.add_0_l in Hk. exact Hk.
Qed.

Section RoundTrip.
Context {ExtImage : Type}.
Variable image_Decode : list byte -> option ExtImage.

(** X11.  [decodeICO] reads back the file [saveICO] writes: it hands the encoding
    of the first image of largest area to the PNG decoder, byte for byte. *)
Theorem saveICO_decodeICO_round_trip (images : list pngImage) :
  images <> [] -> len images < 65536 -> Forall icoImage images ->
  6 + 16 * len images + pngTotal images < 2 ^ 32 ->
  exists bytes m img,
    saveICO images = Ok bytes /\
    detectFormat bytes = FormatICO /\
    firstLargestImage images m img /\
    decodeICO image_Decode bytes =
      match image_Decode (pngData img) with
      | Some i => Ok (Decoded i)
      | None => Err ErrPNGInICO
      end.
Proof.
  intros Hne Hn Hall Hsz.
  destruct (saveICO_layout images Hn Hsz) as (d & Hrun & Hd & H0 & H2 & H4 & Hs).
  pose proof (len_nonneg images) as Hn0. pose proof (pngTotal_nonneg images) as Ht0.
  assert (0 < len images) as Hpos by (destruct images; [congruence | unfold len; cbn; lia]).
  assert (forall j, 0 <= j < len images -> exists img,
            images !! Z.to_nat j = Some img /\ icoImage img /\
            survives d (entryAt d j) = true /\
            resolution (entryAt d j) = pngWidth img * pngHeight img /\
            take (Z.to_nat (Size (entryAt d j)))
                 (drop (Z.to_nat (Offset (entryAt d j))) d) = pngData img /\
            0 <= Offset (entryAt d j) /\ 0 <= Size (entryAt d j)) as Hslot.
  { intros j Hj.
    destruct (lookup_lt_is_Some_2 images (Z.to_nat j)) as [img Himg];
      [unfold len in Hj; lia|].
    exists img. split; [exact Himg|].
    assert (icoImage img) as Hico
      by (eapply Forall_lookup_1; [exact Hall | exact Himg]).
    split; [exact Hico|].
    pose proof (Hs _ _ Himg) as Hw. rewrite Z2Nat.id in Hw by lia.
    destruct (slot_resolution _ _ _ _ Hico Hw) as (Hr & Hsz' & Hoff').
    pose proof (pngTotal_take _ _ _ Himg) as [Ht1 Ht2].
    pose proof (icoImage_len _ Hico) as Hl8.
    rewrite Hsz', Hoff'. repeat split; try lia.
    - unfold survives. rewrite Hsz', Hoff'.
      destruct (Z.eqb_spec (6 + 16 * len images + pngTotal (take (Z.to_nat j) images)) 0); [lia|].
      destruct (Z.eqb_spec (len (pngData img)) 0); [lia|].
      destruct (Z.leb_spec (6 + 16 * len images + pngTotal (take (Z.to_nat j) images)
                            + len (pngData img)) (len d)); [reflexivity|lia].
    - apply (slot_payload d j); [lia | lia | exact Hw]. }
  destruct (scan_loop d (len images)) as (b & Hscan & Hb); [lia | lia |].
  unfold scanned in Hb. destruct (bestEntry b) as [e|] eqn:Hbest.
  - destruct Hb as (m & -> & Hm & Hsv & Hmax & Hfirst).
    destruct (Hslot m Hm) as (img & Himg & Hico & _ & Hr & Hpay & Ho & Hz).
    exists d, (Z.to_nat m), img.
    split; [exact Hrun|]. split.
    + apply detectFormat_of_header; [lia | exact H0 | exact H2].
    + split.
      * split; [exact Himg|]. split.
        -- intros j img' Hj. pose proof (lookup_lt_Some _ _ _ Hj) as Hlt.
           destruct (Hslot (Z.of_nat j)) as (i' & Hi' & _ & Hsv' & Hr' & _);
             [unfold len; lia|].
           rewrite Nat2Z.id, Hj in Hi'. injection Hi' as <-.
           rewrite <- Hr, <- Hr'. apply Hmax; [unfold len; lia | exact Hsv'].
        -- intros j img' Hjm Hj. pose proof (lookup_lt_Some _ _ _ Hj) as Hlt.
           destruct (Hslot (Z.of_nat j)) as (i' & Hi' & _ & Hsv' & Hr' & _);
             [unfold len; lia|].
           rewrite Nat2Z.id, Hj in Hi'. injection Hi' as <-.
           rewrite <- Hr, <- Hr'. apply Hfirst; [lia | exact Hsv'].
      * rewrite decodeICO_eq by lia. rewrite H0, H2, H4. cbn [Z.eqb negb].
        destruct (Z.eqb_spec (len images) 0); [lia|].
        destruct (Z.ltb_spec (len d) (6 + len images * 16)); [lia|].
        rewrite Hscan. cbn [mbind outcome_bind]. rewrite Hbest.
        rewrite extractAndDecode_entry_bytes by (try assumption; lia).
        rewrite Hpay. unfold decodeICOImage.
        pose proof (icoImage_len _ Hico) as Hl8.
        destruct (Z.ltb_spec (len (pngData img)) 4); [lia|].
        destruct Hico as (_ & _ & ->). reflexivity.
  - destruct (Hslot 0) as (img & _ & _ & Hsv & _); [lia|].
    rewrite Hb in Hsv by lia. discriminate.
Qed.

End RoundTrip.

(** ** The registry of installed applications *)

Lemma IsInstalled_Mark (installed : gmap string (option AppConfig.t)) (a b : string) (config : option AppConfig.t) :
  IsInstalled (MarkInstalled installed a config) b
    = if decide (a = b) then true else IsInstalled installed b.
Proof.
  unfold IsInstalled, MarkInstalled. destruct (decide (a = b)) as [->|Hne].
  - rewrite lookup_insert_eq. reflexivity.
  - rewrite lookup_insert_ne by exact Hne. reflexivity.
Qed.

Lemma IsInstalled_Unmark (installed : gmap string (option AppConfig.t)) (a b : string) :
  IsInstalled (MarkUninstalled installed a) b
    = if decide (a = b) then false else IsInstalled installed b.
Proof.
  unfold IsInstalled, MarkUninstalled. destruct (decide (a = b)) as [->|Hne].
  - rewrite lookup_delete_eq. reflexivity.
  - rewrite lookup_delete_ne by exact Hne. reflexivity.
Qed.

Lemma performAll_snoc (calls : list call) (c : call)
    (installed : gmap string (option AppConfig.t)) :
  performAll (calls ++ [c]) installed = perform (performAll calls installed) c.
Proof. unfold performAll. rewrite fold_left_app. reflexivity. Qed.

(** X16.  The last call decides: after any sequence of [MarkInstalled] and
    [MarkUninstalled] calls on a new generator, a container counts as
    installed exactly when some [MarkInstalled] for it is followed by no
    [MarkUninstalled] for it; calls for other containers do not matter. *)
Theorem IsInstalled_last_call (calls : list call)
    (containerID : string) :
  IsInstalled (performAll calls newInstalled) containerID = true <->
  exists before config after,
    calls = before ++ Mark containerID config :: after /\
    ~ In (Unmark containerID) after.
Proof.
  induction calls as [|c calls IH] using rev_ind.
  - split; [discriminate|].
    intros (before & config & after & E & _). destruct before; discriminate.
  - rewrite performAll_snoc. destruct c as [a config|a]; cbn [perform].
    + rewrite IsInstalled_Mark. destruct (decide (a = containerID)) as [->|Hne].
      * split; [intros _|reflexivity].
        exists calls, config, []. split; [reflexivity|]. intros [].
      * rewrite IH. split.
        -- intros (before & cfg & after & -> & Hno).
           exists before, cfg, (after ++ [Mark a config]).
           split; [rewrite <- app_assoc; reflexivity|].
           intros Hin. apply in_app_or in Hin. destruct Hin as [Hin|[Hin|[]]];
             [exact (Hno Hin)|discriminate].
        -- intros (before & cfg & after & E & Hno).
           destruct after as [|x after _] using rev_ind.
           ++ apply app_inj_tail in E. destruct E as [_ [= E _]]. congruence.
           ++ change (before ++ Mark containerID cfg :: after ++ [x])
                with (before ++ (Mark containerID cfg :: after) ++ [x]) in E.
              rewrite app_assoc in E. apply app_inj_tail in E. destruct E as [E _].
              exists before, cfg, after. split; [exact E|].
              intros Hin. apply Hno. apply in_or_app. left. exact Hin.
    + rewrite IsInstalled_Unmark. destruct (decide (a = containerID)) as [->|Hne].
      * split; [discriminate|].
        intros (before & cfg & after & E & Hno). exfalso.
        destruct after as [|x after _] using rev_ind.
        -- apply app_inj_tail in E. destruct E as [_ E]. discriminate.
        -- change (before ++ Mark containerID cfg :: after ++ [x])
             with (before ++ (Mark containerID cfg :: after) ++ [x]) in E.
           rewrite app_assoc in E. apply app_inj_tail in E. destruct E as [_ <-].
           apply Hno. apply in_or_app. right. left. reflexivity.
      * rewrite IH. split.
        -- intros (before & cfg & after & -> & Hno).
           exists before, cfg, (after ++ [Unmark a]).
           split; [rewrite <- app_assoc; reflexivity|].
           intros Hin. apply in_app_or in Hin. destruct Hin as [Hin|[Hin|[]]];
             [exact (Hno Hin)|congruence].
        -- intros (before & cfg & after & E & Hno).
           destruct after as [|x after _] using rev_ind.
           ++ apply app_inj_tail in E. destruct E as [_ E]. discriminate.
           ++ change (before ++ Mark containerID cfg :: after ++ [x])
                with (before ++ (Mark containerID cfg :: after) ++ [x]) in E.
              rewrite app_assoc in E. apply app_inj_tail in E. destruct E as [E _].
              exists before, cfg, after. split; [exact E|].
              intros Hin. apply Hno. apply in_or_app. left. exact Hin.
Qed.

Lemma GetAllInstalled_fold (order : list (string * option AppConfig.t)) :
  GetAllInstalled order = list_to_map (reverse order).
Proof.
  unfold GetAllInstalled.
  induction order as [|kv order IH] using rev_ind; [reflexivity|].
  rewrite fold_left_app, reverse_app. cbn [fold_left]. rewrite IH.
  destruct kv as [k v]. reflexivity.
Qed.

(** X17.  [GetAllInstalled] returns the registry, entry for entry, in
    whatever order the runtime hands the entries to the copying loop; so a
    [nil] configuration stays registered in the copy too. *)
Theorem GetAllInstalled_copies (installed : gmap string (option AppConfig.t))
    (order : list (string * option AppConfig.t)) :
  order ≡ₚ map_to_list installed ->
  GetAllInstalled order = installed /\
  forall containerID,
    IsInstalled (GetAllInstalled order) containerID = IsInstalled installed containerID /\
    GetInstalledApp (GetAllInstalled order) containerID
      = GetInstalledApp installed containerID.
Proof.
  intros Hperm.
  assert (E : GetAllInstalled order = installed).
  { rewrite GetAllInstalled_fold.
    transitivity (list_to_map (M := gmap string (option AppConfig.t))
                    (map_to_list installed)); [|apply list_to_map_to_list].
    apply list_to_map_proper.
    - rewrite reverse_Permutation, Hperm. apply NoDup_fst_map_to_list.
    - rewrite reverse_Permutation. exact Hperm. }
  split; [exact E|]. intros containerID. rewrite E. split; reflexivity.
Qed.

(** ** Application names *)

Lemma nameChar_not_underscore (c : ascii) : nameChar c = true -> Ascii.eqb c "_" = false.
Proof.
  intros H. destruct (Ascii.eqb_spec c "_") as [->|]; [discriminate H|reflexivity].
Qed.

Lemma dashed_conforming (name : string) : conforming name = true -> dashed name = name.
Proof.
  induction name as [|c rest IH]; [reflexivity|]. cbn [conforming dashed].
  intros H. apply andb_prop in H. destruct H as [Hc Hr].
  rewrite (nameChar_not_underscore c Hc), (IH Hr). reflexivity.
Qed.

Lemma keepNameChars_conforming (name : string) :
  conforming name = true -> keepNameChars name = name.
Proof.
  induction name as [|c rest IH]; [reflexivity|]. cbn [conforming keepNameChars].
  intros H. apply andb_prop in H. destruct H as [Hc Hr].
  rewrite Hc, (IH Hr). reflexivity.
Qed.

Lemma conforming_keepNameChars (name : string) : conforming (keepNameChars name) = true.
Proof.
  induction name as [|c rest IH]; [reflexivity|]. cbn [keepNameChars].
  destruct (nameChar c) eqn:Hc; [cbn [conforming]; rewrite Hc, IH; reflexivity|exact IH].
Qed.

Lemma asciiLower_conforming (name : string) :
  conforming name = true -> asciiLower name = name.
Proof.
  induction name as [|c rest IH]; [reflexivity|]. cbn [conforming asciiLower].
  intros H. apply andb_prop in H. destruct H as [Hc Hr]. rewrite (IH Hr).
  replace (between "A" "Z" c) with false; [reflexivity|].
  unfold nameChar, between in *.
  destruct (Ascii.eqb_spec c "-") as [->|_]; [reflexivity|].
  change (nat_of_ascii "a") with 97%nat in Hc. change (nat_of_ascii "z") with 122%nat in Hc.
  change (nat_of_ascii "0") with 48%nat in Hc. change (nat_of_ascii "9") with 57%nat in Hc.
  change (nat_of_ascii "A") with 65%nat. change (nat_of_ascii "Z") with 90%nat.
  symmetry. apply andb_false_iff.
  rewrite orb_false_r in Hc. apply orb_prop in Hc.
  destruct Hc as [Hc|Hc]; apply andb_prop in Hc; destruct Hc as [H1 H2];
    apply Nat.leb_le in H1; apply Nat.leb_le in H2.
  - right. apply Nat.leb_gt. lia.
  - left. apply Nat.leb_gt. lia.
Qed.

Section AppNameFacts.

Variable ToLower : string -> string.

(** X18.  [sanitizeAppName] returns a name of [a]-[z], [0]-[9] and [-]
    only, whatever it is given.  Provided lower-casing leaves such names as
    they are, a name that conforms already is returned unchanged, and
    sanitizing twice is as good as once. *)
Theorem sanitizeAppName_conforms (name : string) :
  conforming (sanitizeAppName ToLower name) = true /\
  ((forall s, conforming s = true -> ToLower s = s) ->
   (conforming name = true -> sanitizeAppName ToLower name = name) /\
   sanitizeAppName ToLower (sanitizeAppName ToLower name)
     = sanitizeAppName ToLower name).
Proof.
  assert (Hc : conforming (sanitizeAppName ToLower name) = true)
    by apply conforming_keepNameChars.
  split; [exact Hc|]. intros Hlower.
  assert (Hfix : forall s, conforming s = true -> sanitizeAppName ToLower s = s).
  { intros s Hs. unfold sanitizeAppName.
    rewrite (Hlower s Hs), (dashed_conforming s Hs). apply keepNameChars_conforming, Hs. }
  split; [apply Hfix|]. apply Hfix, Hc.
Qed.

End AppNameFacts.

(** ** Template data *)

Lemma orDefault_nonempty (s d : string) : d <> ""%string -> orDefault s d <> ""%string.
Proof.
  intros Hd. unfold orDefault. destruct (String.eqb_spec s ""); assumption.
Qed.

(** X19.  [NewTemplateData] returns (its escaping loop ends), and in the
    data it returns the UI type, protocol, path and restart policy are the
    configuration's or, where that is empty, [url], [http], [/] and
    [unless-stopped], so never empty; the description is the
    configuration's with spaces for newlines; the port list is
    [port:port] for a configured port and empty without one; name, version,
    image, volumes and environment are the configuration's. *)
Theorem NewTemplateData_defaults (fuel : nat) (config : AppConfig.t) :
  (newlines (AppConfig.Description config) < fuel)%nat ->
  exists data,
    NewTemplateData fuel config = Some data /\
    (TemplateData.UIType data = orDefault (AppConfig.UIType config) "url" /\
     TemplateData.Protocol data = orDefault (AppConfig.Protocol config) "http" /\
     TemplateData.Path data = orDefault (AppConfig.Path config) "/" /\
     TemplateData.RestartPolicy data
       = orDefault (AppConfig.RestartPolicy config) "unless-stopped") /\
    (TemplateData.UIType data <> "" /\ TemplateData.Protocol data <> "" /\
     TemplateData.Path data <> "" /\ TemplateData.RestartPolicy data <> "")%string /\
    (TemplateData.Description data = spaced (AppConfig.Description config) /\
     newlines (TemplateData.Description data) = 0%nat) /\
    TemplateData.Ports data =
      (if String.eqb (AppConfig.Port config) "" then []
       else [(AppConfig.Port config ++ ":" ++ AppConfig.Port config)%string]) /\
    (TemplateData.AppName data = AppConfig.AppName config /\
     TemplateData.Version data = AppConfig.Version config /\
     TemplateData.Image data = AppConfig.Image config /\
     TemplateData.Port data = AppConfig.Port config /\
     TemplateData.Volumes data = AppConfig.Volumes config /\
     TemplateData.Environment data = AppConfig.Environment config).
Proof.
  intros Hf. unfold NewTemplateData, escapeForTemplate.
  rewrite (replaceAll_newlines _ _ Hf). cbn [mbind option_bind].
  destruct config as [an ve dn de ma ci cn im pr po pa ui au vo en ic rp la].
  unfold orDefault. cbn.
  destruct (String.eqb ui "") eqn:Hui; cbn;
    destruct (String.eqb pr "") eqn:Hpr; cbn;
    destruct (String.eqb pa "") eqn:Hpa; cbn;
    destruct (String.eqb rp "") eqn:Hrp; cbn;
    destruct (String.eqb po "") eqn:Hpo; cbn;
    eexists; (split; [reflexivity|]); cbn;
    repeat split;
    try reflexivity; try discriminate; try apply newlines_spaced;
    apply String.eqb_neq; assumption.
Qed.

(** ** The further properties on concrete inputs *)

Example detectFormat_riff_without_webp :
  detectFormat (magicRIFF ++ bytesOf [0; 0; 0; 0; 87; 65; 86; 69]) = FormatUnknown.
Proof. vm_compute. reflexivity. Qed.

Lemma true_colour_plane_decoded_witness :
  exists img',
    decodeICOBMP32 (blank (image.Rect 0 0 1 2)) (bytesOf [1; 2; 3; 4; 5; 6; 7; 8]) 1 2
      = Ok img' /\
    image.RGBAAt img' 0 0 = color.mkRGBA x07 x06 x05 x08 /\
    image.RGBAAt img' 0 1 = color.mkRGBA x03 x02 x01 x04.
Proof.
  destruct (true_colour_plane_decoded (blank (image.Rect 0 0 1 2))
              (bytesOf [1; 2; 3; 4; 5; 6; 7; 8]) 1 2) as [_ [Hfull _]].
  - evaluated.
  - destruct Hfull as (img' & E & Hb & Hpix).
    + vm_compute. discriminate.
    + exists img'. split; [exact E|]. split.
      * rewrite (proj1 (Hpix 0 0)) by lia. evaluated.
      * rewrite (proj1 (Hpix 0 1)) by lia. evaluated.
Defined.

Lemma indexed_plane_decoded_witness :
  exists img',
    decodeICOBMP1 (blank (image.Rect 0 0 2 1)) planeTwoPixels 2 1 paletteOneEntry
      = Ok img' /\
    image.RGBAAt img' 0 0 = color.mkRGBA x1e x14 x0a xff /\
    image.RGBAAt img' 1 0 = color.zero.
Proof.
  destruct (indexed_plane_decoded (blank (image.Rect 0 0 2 1)) planeTwoPixels
              paletteOneEntry 2 1) as [[Hfull _] _].
  - evaluated.
  - destruct Hfull as (img' & E & Hb & Hpix).
    + vm_compute. discriminate.
    + exists img'. split; [exact E|]. split.
      * rewrite (proj1 (Hpix 0 0)) by lia. evaluated.
      * rewrite (proj1 (Hpix 1 0)) by lia. evaluated.
Defined.

Lemma decodeICOBMP_decodes_witness :
  exists img,
    decodeICOBMP (ExtImage := unit) dibIndexed entryIndexed = Ok (Bitmap img) /\
    image.Bounds img = image.Rect 0 0 2 2 /\
    image.RGBAAt img 0 0 = color.mkRGBA x3c x32 x28 xff /\
    image.RGBAAt img 1 0 = color.mkRGBA x1e x14 x0a xff /\
    image.RGBAAt img 0 1 = color.mkRGBA x1e x14 x0a xff /\
    image.RGBAAt img 1 1 = color.mkRGBA x3c x32 x28 xff.
Proof.
  destruct (decodeICOBMP_decodes (ExtImage := unit) dibIndexed entryIndexed)
    as (img & E & Hb & Hp); try evaluated.
  exists img. split; [exact E|]. split; [exact Hb|].
  rewrite (Hp 0 0), (Hp 1 0), (Hp 0 1), (Hp 1 1) by evaluated.
  evaluated.
Defined.

Lemma decodeICO_rejects_what_is_not_ICO_witness :
  detectFormat (pngStub 0) = FormatPNG /\
  failsWith (decodeICO rejectAll (pngStub 0)) MalformedHeader.
Proof.
  split; [reflexivity|].
  apply (decodeICO_rejects_what_is_not_ICO rejectAll (pngStub 0)). evaluated.
Defined.

Lemma decodeICO_panic_sources_witness :
  decodeICO rejectAll icoHeaderSizeBeyondEntry = Panic (SliceBoundsOutOfRange 41 40 40) /\
  exists m,
    firstLargest icoHeaderSizeBeyondEntry (le16 icoHeaderSizeBeyondEntry 4) m /\
    let entry := entryAt icoHeaderSizeBeyondEntry m in
    let payload :=
      take (Z.to_nat (Size entry)) (drop (Z.to_nat (Offset entry)) icoHeaderSizeBeyondEntry) in
    HasPrefix payload magicPNG = false /\ 40 <= len payload /\
    (image.maxAlloc < allocation payload entry \/
     ((le16 payload 14 = 24 \/ le16 payload 14 = 32) /\ len payload < le32 payload 0)).
Proof.
  assert (E : decodeICO rejectAll icoHeaderSizeBeyondEntry
              = Panic (SliceBoundsOutOfRange 41 40 40)) by (vm_compute; reflexivity).
  split; [exact E|].
  apply (decodeICO_panic_sources rejectAll icoHeaderSizeBeyondEntry
           (SliceBoundsOutOfRange 41 40 40)); [evaluated | exact E].
Defined.

Lemma escapeForTemplate_spaces_newlines_witness :
  escapeForTemplate 3 twoLines = Some "name: app port: 80 "%string.
Proof.
  destruct (escapeForTemplate_spaces_newlines twoLines 3) as (r & E & -> & _).
  - vm_compute. lia.
  - rewrite E. vm_compute. reflexivity.
Defined.

Example indexOf_examples :
  indexOf "hello" "l" = 2 /\ indexOf "hello" "lo" = 3 /\
  indexOf "hello" "hello!" = -1 /\ indexOf "" "" = 0.
Proof. vm_compute. repeat split; reflexivity. Qed.

Example filterEnvironment_example :
  filterEnvironment ["PATH=/bin"; "TZ=UTC"; "MYPATH=/x"; "HOME=/root"; "home=/x"]%string
    = ["TZ=UTC"; "MYPATH=/x"; "home=/x"]%string.
Proof. vm_compute. reflexivity. Qed.

(** The file [saveICO] writes for the three images: header, three slots,
    three encodings. *)
Example saveICO_three_images :
  saveICO threeImages = Ok (bytesOf
    [0; 0; 1; 0; 3; 0;
     16; 16; 0; 0; 1; 0; 32; 0; 9; 0; 0; 0; 54; 0; 0; 0;
     32; 32; 0; 0; 1; 0; 32; 0; 9; 0; 0; 0; 63; 0; 0; 0;
     32; 32; 0; 0; 1; 0; 32; 0; 9; 0; 0; 0; 72; 0; 0; 0;
     137; 80; 78; 71; 13; 10; 26; 10; 1;
     137; 80; 78; 71; 13; 10; 26; 10; 2;
     137; 80; 78; 71; 13; 10; 26; 10; 3]).
Proof. vm_compute. reflexivity. Qed.

Lemma saveICO_decodeICO_round_trip_witness :
  exists bytes,
    saveICO threeImages = Ok bytes /\
    detectFormat bytes = FormatICO /\
    decodeICO acceptAll bytes = Ok (Decoded (pngStub 2)).
Proof.
  destruct (saveICO_decodeICO_round_trip acceptAll threeImages)
    as (bytes & m & img & Hs & Hd & (Hm & Hmax & Hfirst) & Hdec).
  - discriminate.
  - evaluated.
  - repeat constructor; evaluated.
  - evaluated.
  - exists bytes. split; [exact Hs|]. split; [exact Hd|].
    rewrite Hdec.
    destruct m as [|[|[|m]]].
    + injection Hm as <-.
      specialize (Hmax 1%nat (mkPng 32 32 (pngStub 2)) eq_refl). cbn in Hmax. lia.
    + injection Hm as <-. reflexivity.
    + injection Hm as <-.
      specialize (Hfirst 1%nat (mkPng 32 32 (pngStub 2)) ltac:(lia) eq_refl).
      cbn in Hfirst. lia.
    + discriminate.
Defined.

(** A header that declares a width of -1: the rectangle is put in canonical
    form, no row is read, and the decoder returns a blank image. *)
Example decodeICOBMP_negative_width :
  decodeICOBMP (ExtImage := unit)
    (bytesOf [40; 0; 0; 0; 255; 255; 255; 255; 2; 0; 0; 0; 1; 0; 32; 0;
              0; 0; 0; 0; 0; 0; 0; 0; 0; 0; 0; 0; 0; 0; 0; 0; 0; 0; 0; 0;
              0; 0; 0; 0])
    (entryOfSize 1 1)
    = Ok (Bitmap (blank (image.Rect (-1) 0 0 1))).
Proof. vm_compute. reflexivity. Qed.

Lemma GetAllInstalled_copies_witness :
  GetAllInstalled [("db"%string, None); ("web"%string, Some bareConfig)] = twoApps /\
  IsInstalled (GetAllInstalled [("db"%string, None); ("web"%string, Some bareConfig)])
    "db" = true /\
  GetInstalledApp (GetAllInstalled [("db"%string, None); ("web"%string, Some bareConfig)])
    "db" = None.
Proof.
  destruct (GetAllInstalled_copies twoApps
              [("db"%string, None); ("web"%string, Some bareConfig)]) as [E H].
  - replace (map_to_list twoApps)
      with [("web"%string, Some bareConfig); ("db"%string, @None AppConfig.t)]
      by (vm_compute; reflexivity).
    apply perm_swap.
  - split; [exact E|]. destruct (H "db"%string) as [H1 H2].
    rewrite H1, H2. split; reflexivity.
Defined.

Example IsInstalled_after_calls :
  IsInstalled (performAll [Mark "web" (Some bareConfig); Mark "db" None; Unmark "web"]
                 newInstalled) "web" = false /\
  IsInstalled (performAll [Mark "web" (Some bareConfig); Mark "db" None; Unmark "web"]
                 newInstalled) "db" = true.
Proof. vm_compute. split; reflexivity. Qed.

Lemma sanitizeAppName_conforms_witness :
  sanitizeAppName asciiLower "My_App 2!" = "my-app2"%string /\
  sanitizeAppName asciiLower "my-app2" = "my-app2"%string /\
  sanitizeAppName asciiLower (sanitizeAppName asciiLower "My_App 2!")
    = sanitizeAppName asciiLower "My_App 2!".
Proof.
  split; [reflexivity|].
  destruct (sanitizeAppName_conforms asciiLower "My_App 2!") as [_ H1].
  destruct (sanitizeAppName_conforms asciiLower "my-app2") as [_ H2].
  split.
  - exact (proj1 (H2 asciiLower_conforming) eq_refl).
  - exact (proj2 (H1 asciiLower_conforming)).
Defined.

Example sanitizeAppName_may_be_empty :
  sanitizeAppName asciiLower "!!!" = ""%string.
Proof. reflexivity. Qed.

Lemma NewTemplateData_defaults_witness :
  exists data,
    NewTemplateData 3 bareConfig = Some data /\
    TemplateData.UIType data = "url"%string /\
    TemplateData.Protocol data = "http"%string /\
    TemplateData.Path data = "/"%string /\
    TemplateData.RestartPolicy data = "unless-stopped"%string /\
    TemplateData.Description data = "name: app port: 80 "%string /\
    TemplateData.Ports data = ["8080:8080"%string].
Proof.
  destruct (NewTemplateData_defaults 3 bareConfig)
    as (data & E & (H1 & H2 & H3 & H4) & _ & (H5 & _) & H6 & _).
  - vm_compute. lia.
  - exists data. split; [exact E|].
    rewrite H1, H2, H3, H4, H5, H6. vm_compute. repeat split; reflexivity.
Defined.
